(** * Resolution and ID-decoding engine of the roster enricher

    A shallow embedding of [enrich_data.py]: the reference tables are finite
    maps keyed by decimal strings, records stand for the JSON objects the
    code reads and writes, and every function that can raise in the source
    returns a [result].  Strings are byte strings; the text helpers below
    follow the interpreter's behaviour on ASCII input. *)

From Stdlib Require Import ZArith Lia String Ascii List.
From stdpp Require Import gmap strings list pretty.

Local Open Scope string_scope.
Local Open Scope Z_scope.

(** ** The interpreter's primitives used by the enricher *)

Module Py.

(** Exceptions the modelled code can raise on well-typed input. *)
Inductive exn := IndexError | ValueError | OverflowError.

Inductive result (A : Type) :=
| Ok (a : A)
| Raise (e : exn).
Arguments Ok {A} a.
Arguments Raise {A} e.

Definition bind {A B} (r : result A) (k : A -> result B) : result B :=
  match r with
  | Ok a => k a
  | Raise e => Raise e
  end.

Fixpoint mapM {A B} (f : A -> result B) (l : list A) : result (list B) :=
  match l with
  | [] => Ok []
  | x :: t =>
      bind (f x) (fun y => bind (mapM f t) (fun ys => Ok (y :: ys)))
  end.

(** [mapM] over an optional list: an absent key stays absent. *)
Definition mapM_opt {A B} (f : A -> result B) (o : option (list A))
  : result (option (list B)) :=
  match o with
  | None => Ok None
  | Some l => bind (mapM f l) (fun l' => Ok (Some l'))
  end.

(** [str(n)] for an integer. *)
Definition str (n : Z) : string := pretty n.

(** Truthiness of an [int | None] and of a [str | None]. *)
Definition truthy_int (o : option Z) : bool :=
  match o with
  | Some z => negb (z =? 0)
  | None => false
  end.

Definition truthy_str (o : option string) : bool :=
  match o with
  | Some (String _ _) => true
  | _ => false
  end.

(** Keeps a string only when it is truthy. *)
Definition nonempty (o : option string) : option string :=
  if truthy_str o then o else None.

Definition len (s : string) : nat := String.length s.

Fixpoint skipn_str (n : nat) (s : string) : string :=
  match n, s with
  | O, _ => s
  | S k, String _ s' => skipn_str k s'
  | S _, EmptyString => EmptyString
  end.

Fixpoint firstn_str (n : nat) (s : string) : string :=
  match n, s with
  | S k, String c s' => String c (firstn_str k s')
  | _, _ => EmptyString
  end.

(** [s[i:j]] for [0 <= i <= j]. *)
Definition slice (i j : nat) (s : string) : string :=
  firstn_str (j - i) (skipn_str i s).

(** [s[-n:]]. *)
Definition last_chars (n : nat) (s : string) : string :=
  skipn_str (len s - n) s.

(** [s[i]], raising [IndexError] out of range. *)
Definition char_at (i : nat) (s : string) : result ascii :=
  match skipn_str i s with
  | String c _ => Ok c
  | EmptyString => Raise IndexError
  end.

Fixpoint startswith (s p : string) : bool :=
  match p, s with
  | EmptyString, _ => true
  | String a p', String b s' => Ascii.eqb a b && startswith s' p'
  | String _ _, EmptyString => false
  end.

Definition endswith (s suf : string) : bool :=
  String.eqb (skipn_str (len s - len suf) s) suf.

(** [s.partition(sep)] at the leftmost occurrence of a non-empty [sep];
    [None] when [sep] does not occur.  The test [sep in s] and the split
    [s.split(sep, 1)] are both read off it. *)
Fixpoint partition (sep s : string) : option (string * string) :=
  if startswith s sep then Some (EmptyString, skipn_str (len sep) s)
  else
    match s with
    | EmptyString => None
    | String c s' =>
        match partition sep s' with
        | Some (a, b) => Some (String c a, b)
        | None => None
        end
    end.

(** [s.split(c)] for a one-character separator. *)
Fixpoint split_on (c : ascii) (s : string) : list string :=
  match s with
  | EmptyString => [EmptyString]
  | String a s' =>
      if Ascii.eqb a c then EmptyString :: split_on c s'
      else
        match split_on c s' with
        | h :: t => String a h :: t
        | [] => [String a EmptyString]
        end
  end.

Fixpoint join (sep : string) (l : list string) : string :=
  match l with
  | [] => EmptyString
  | [x] => x
  | x :: t => x +:+ sep +:+ join sep t
  end.

(** [s.replace(old, new)] for a non-empty [old]: occurrences are replaced
    left to right without overlap; [skip] counts the characters of a match
    still to be dropped. *)
Fixpoint replace_go (old new : string) (skip : nat) (s : string) : string :=
  match s with
  | EmptyString => EmptyString
  | String c s' =>
      match skip with
      | S k => replace_go old new k s'
      | O =>
          if startswith s old
          then new +:+ replace_go old new (len old - 1) s'
          else String c (replace_go old new 0 s')
      end
  end.

Definition replace (old new s : string) : string := replace_go old new 0 s.

Definition code (c : ascii) : N := N_of_ascii c.

Definition is_space (c : ascii) : bool :=
  let n := code c in
  ((9 <=? n) && (n <=? 13) || (28 <=? n) && (n <=? 32))%N.

Definition is_lower (c : ascii) : bool :=
  let n := code c in ((97 <=? n) && (n <=? 122))%N.

Definition is_upper (c : ascii) : bool :=
  let n := code c in ((65 <=? n) && (n <=? 90))%N.

Definition to_upper (c : ascii) : ascii :=
  if is_lower c then ascii_of_N (code c - 32) else c.

Definition to_lower (c : ascii) : ascii :=
  if is_upper c then ascii_of_N (code c + 32) else c.

Fixpoint lstrip (s : string) : string :=
  match s with
  | String c s' => if is_space c then lstrip s' else s
  | EmptyString => EmptyString
  end.

Fixpoint rstrip (s : string) : string :=
  match s with
  | EmptyString => EmptyString
  | String c s' =>
      match rstrip s' with
      | EmptyString => if is_space c then EmptyString else String c EmptyString
      | r => String c r
      end
  end.

Definition strip (s : string) : string := rstrip (lstrip s).

(** [s.title()]: a letter is upper-cased when the previous character is not
    a letter and lower-cased otherwise. *)
Fixpoint title_go (prev_cased : bool) (s : string) : string :=
  match s with
  | EmptyString => EmptyString
  | String c s' =>
      if is_lower c
      then String (if prev_cased then c else to_upper c) (title_go true s')
      else if is_upper c
      then String (if prev_cased then to_lower c else c) (title_go true s')
      else String c (title_go false s')
  end.

Definition title (s : string) : string := title_go false s.

(** [int(s)]: optional surrounding blanks, an optional sign, then decimal
    digits in which single underscores may separate digits. *)
Definition digit_val (c : ascii) : option Z :=
  let n := code c in
  if ((48 <=? n) && (n <=? 57))%N then Some (Z.of_N n - 48) else None.

Fixpoint int_body (acc : Z) (prev_digit : bool) (s : string) : option Z :=
  match s with
  | EmptyString => if prev_digit then Some acc else None
  | String c s' =>
      match digit_val c with
      | Some d => int_body (10 * acc + d) true s'
      | None =>
          if Ascii.eqb c "_"%char && prev_digit then int_body acc false s'
          else None
      end
  end.

Definition int_of_str (s : string) : result Z :=
  let parsed :=
    match strip s with
    | String "-"%char r => option_map Z.opp (int_body 0 false r)
    | String "+"%char r => int_body 0 false r
    | r => int_body 0 false r
    end in
  match parsed with
  | Some z => Ok z
  | None => Raise ValueError
  end.

(** *** True division and fixed-point formatting

    [p / q] on integers is the binary64 number nearest to the exact
    quotient (ties to even), and [format(x, ".df")] is the decimal with [d]
    fractional digits nearest to the exact value of [x] (ties to even).
    Both are computed here on exact integers: a binary64 magnitude is a
    pair [(m, s)] standing for [m * 2^s]. *)

(** Nearest integer to [a / b], ties to even, for [0 <= a] and [0 < b]. *)
Definition rne_div (a b : Z) : Z :=
  let q := a / b in
  let r := a mod b in
  if 2 * r <? b then q
  else if b <? 2 * r then q + 1
  else if Z.even q then q else q + 1.

(** Magnitude of [p / q] (for [0 <= p], [0 < q]) rounded to binary64: the
    exponent [e] of the quotient, not below that of the smallest normal
    number, fixes the unit [2^(e - 52)] in which the quotient is rounded;
    a result of [2^1024] or more is the division's [OverflowError]. *)
Definition double_of_ratio (p q : Z) : result (Z * Z) :=
  let e := Z.max (-1022) (Z.log2 (p * 2 ^ 1100 / q) - 1100) in
  let s := e - 52 in
  let m := if 0 <=? s then rne_div p (q * 2 ^ s)
           else rne_div (p * 2 ^ (- s)) q in
  if (0 <=? s) && (2 ^ 1024 <=? m * 2 ^ s) then Raise OverflowError
  else Ok (m, s).

Definition pad_zeros (d : nat) (s : string) : string :=
  Nat.iter (d - len s) (String "0"%char) s.

(** The magnitude [(m, s)] scaled by [10^d] and rounded to an integer. *)
Definition scaled_of_double (d : nat) (ms : Z * Z) : Z :=
  let '(m, s) := ms in
  let scale := 10 ^ Z.of_nat d in
  if 0 <=? s then m * 2 ^ s * scale
  else rne_div (m * scale) (2 ^ (- s)).

(** The decimal with [d] fractional digits that stands for [n / 10^d]. *)
Definition render_fixed (d : nat) (n : Z) : string :=
  let scale := 10 ^ Z.of_nat d in
  match d with
  | O => str n
  | S _ => str (n / scale) +:+ "." +:+ pad_zeros d (str (n mod scale))
  end.

(** Decimal rendering with [d] fractional digits of the magnitude [(m, s)]. *)
Definition fixed_of_double (d : nat) (ms : Z * Z) : string :=
  render_fixed d (scaled_of_double d ms).

(** The sign is printed for every negative value, also when the digits
    that follow are all zero. *)
Definition sign_prefix (p : Z) : string := if p <? 0 then "-" else "".

(** [f"{p / q:.{d}f}"] for integers [p] and [0 < q]. *)
Definition format_div (d : nat) (p q : Z) : result string :=
  bind (double_of_ratio (Z.abs p) q) (fun ms =>
  Ok (sign_prefix p +:+ fixed_of_double d ms)).

End Py.

Export Py.

Notation "x <- r ;; k" := (Py.bind r (fun x => k))
  (at level 100, r at next level, right associativity).

(** ** Fixed tables of the module *)

(** [EFFECT_TYPES]: effect-type code to label. *)
Definition EFFECT_TYPES : gmap Z string :=
  list_to_map
    [ (0, "No Effect"); (1, "Speed +"); (2, "Stamina +"); (3, "Power +");
      (4, "Guts +"); (5, "Wit +"); (9, "Stamina Recovery");
      (10, "Start Delay x"); (14, "Set Start Delay");
      (21, "Current Speed +"); (22, "Current Speed + (w/ decel)");
      (27, "Target Speed +"); (28, "Lane Move Speed +");
      (31, "Acceleration +"); (35, "Change Lane");
      (37, "Activate Random Gold"); (42, "Extend Evolved Duration") ].

(** The categorical entries of [CONDITION_TERMS] that the parser reads. *)
Definition PHASE_NAMES : gmap string string :=
  list_to_map [ ("0", "Opening Leg"); ("1", "Middle Leg"); ("2", "Final Leg") ].

Definition RUNNING_STYLES : gmap string string :=
  list_to_map [ ("1", "Front Runner"); ("2", "Pace Chaser");
                ("3", "Late Surger"); ("4", "End Closer") ].

Definition GROUND_TYPES : gmap string string :=
  list_to_map [ ("1", "Turf"); ("2", "Dirt") ].

Definition DISTANCE_TYPES : gmap string string :=
  list_to_map [ ("1", "Sprint"); ("2", "Mile"); ("3", "Medium"); ("4", "Long") ].

(** [SUPPORT_CARD_TYPES]: leading digit of the card id to category. *)
Definition SUPPORT_CARD_TYPES : gmap string string :=
  list_to_map [ ("1", "Speed"); ("2", "Stamina"); ("3", "Power"); ("4", "Guts");
                ("5", "Wit"); ("6", "Friend"); ("7", "Group") ].

(** [rarity_names] of [get_skill_details]. *)
Definition rarity_names : gmap Z string :=
  list_to_map [ (1, "White"); (2, "White"); (3, "White");
                (4, "Gold"); (5, "Gold"); (6, "Unique") ].

(** The operators in the order the parser tries them. *)
Definition OPERATORS : list string :=
  [ ">="; "<="; "=="; "!="; ">"; "<"; "=" ].

(** ** Condition parser *)

Definition op_is (op a : string) : bool := String.eqb op a.

(** The body of the operator loop once [op] was found in the clause and the
    clause was split into [key] and [value].  [Some text] is a rendered
    clause (appended, then [break]); [None] is the [continue] of the
    [always] branch, which resumes the operator loop. *)
Definition render_clause (op key value : string) : result (option string) :=
  if String.eqb key "phase" then
    let value_name := default ("Phase " +:+ value) (PHASE_NAMES !! value) in
    if op_is op "==" || op_is op "=" then Ok (Some value_name)
    else if op_is op ">=" then Ok (Some (value_name +:+ "+"))
    else Ok (Some ("phase" +:+ op +:+ value))
  else if String.eqb key "distance_rate" then
    if op_is op ">=" then Ok (Some ("After " +:+ value +:+ "% of race"))
    else if op_is op "<=" then Ok (Some ("Before " +:+ value +:+ "% of race"))
    else Ok (Some (value +:+ "% of race"))
  else if String.eqb key "order" then
    if op_is op "<=" then Ok (Some ("Top " +:+ value))
    else if op_is op ">=" then Ok (Some ("Position " +:+ value +:+ "+"))
    else Ok (Some ("Position " +:+ value))
  else if String.eqb key "order_rate" then
    if op_is op "<=" then Ok (Some ("Top " +:+ value +:+ "%"))
    else if op_is op ">=" then
      n <- int_of_str value ;;
      Ok (Some ("Back " +:+ str (100 - n) +:+ "%"))
    else Ok (Some (value +:+ "% of field"))
  else if String.eqb key "running_style" then
    Ok (Some (default ("Style " +:+ value) (RUNNING_STYLES !! value)))
  else if String.eqb key "corner" then
    if String.eqb value "0" then Ok (Some "Not in corner")
    else Ok (Some ("Corner " +:+ value))
  else if String.eqb key "is_lastspurt" && String.eqb value "1" then
    Ok (Some "Last Spurt")
  else if String.eqb key "is_finalcorner" && String.eqb value "1" then
    Ok (Some "Final Corner")
  else if String.eqb key "hp_per" then
    if op_is op "<=" then Ok (Some ("HP ≤" +:+ value +:+ "%"))
    else if op_is op ">=" then Ok (Some ("HP ≥" +:+ value +:+ "%"))
    else Ok (Some ("HP " +:+ value +:+ "%"))
  else if String.eqb key "activate_count_heal" then
    Ok (Some ("After " +:+ value +:+ " recovery skill(s)"))
  else if String.eqb key "ground_type" then
    Ok (Some (default ("Ground " +:+ value) (GROUND_TYPES !! value)))
  else if String.eqb key "distance_type" then
    Ok (Some (default ("Distance " +:+ value) (DISTANCE_TYPES !! value)))
  else if endswith key "_random" && String.eqb value "1" then
    let area := title (replace "_" " " (replace "_random" "" key)) in
    Ok (Some ("Random in " +:+ area))
  else if String.eqb key "always" then
    Ok None
  else
    let readable_key := title (replace "_" " " key) in
    Ok (Some (readable_key +:+ " " +:+ op +:+ " " +:+ value)).

(** The operator loop over one stripped, non-empty clause, with its
    [for ... else]: when the loop runs out of operators without a [break],
    the clause itself is rendered as a title-cased token. *)
Fixpoint render_term (ops : list string) (term : string) : result string :=
  match ops with
  | [] => Ok (title (replace "_" " " term))
  | op :: rest =>
      match partition op term with
      | None => render_term rest term
      | Some (k, v) =>
          r <- render_clause op (strip k) (strip v) ;;
          match r with
          | Some text => Ok text
          | None => render_term rest term
          end
      end
  end.

(** The list [parts] built by the outer loop. *)
Fixpoint condition_parts (terms : list string) : result (list string) :=
  match terms with
  | [] => Ok []
  | t :: rest =>
      let term := strip t in
      match term with
      | EmptyString => condition_parts rest
      | _ =>
          text <- render_term OPERATORS term ;;
          parts <- condition_parts rest ;;
          Ok (text :: parts)
      end
  end.

Definition parse_condition (condition : string) : result string :=
  match condition with
  | EmptyString => Ok "Always"
  | _ =>
      parts <- condition_parts (split_on "&" condition) ;;
      match parts with
      | [] => Ok "Always"
      | _ => Ok (join " & " parts)
      end
  end.

(** ** Reference tables *)

(** One effect of a skill alternative; a key may be missing. *)
Record Effect := {
  e_type : option Z;
  e_modifier : option Z
}.

Record Alternative := {
  a_condition : option string;
  a_baseDuration : option Z;
  a_effects : option (list Effect)
}.

(** An entry of [skill_data.json], with the keys the enricher reads. *)
Record SkillEntry := {
  se_rarity : option Z;
  se_alternatives : option (list Alternative)
}.

(** An entry of [umas_global.json] or [umas_full.json]. *)
Record Uma := {
  u_name : option (list string);
  u_outfits : option (gmap string string)
}.

(** An entry of [supportcardnames_global.json]. *)
Record SupportCardName := {
  scn_name : option string;
  scn_title : option string;
  scn_chara : option string
}.

(** The snapshot [data] built by [load_all_data]; a table that is missing
    from the snapshot reads as the empty map. *)
Record Data := {
  skills_global : gmap string (list string);
  skills_jp : gmap string (list string);
  skill_data : gmap string SkillEntry;
  umas_global : gmap string Uma;
  umas_full : gmap string Uma;
  sparknames : gmap string string;
  racenames : gmap string string;
  outfitnames : gmap string string;
  supportcardnames : gmap string SupportCardName;
  racetitles : gmap string string;
  nicknames : gmap string string
}.

(** ** Effect formatter *)

Definition effect_type (e : Effect) : Z := default 0 (e_type e).
Definition effect_modifier (e : Effect) : Z := default 0 (e_modifier e).

(** An effect with both keys present, and the label [type_name] of a type. *)
Definition effect (t m : Z) : Effect :=
  {| e_type := Some t; e_modifier := Some m |}.

Definition effect_label (t : Z) : string :=
  default ("Effect " +:+ str t) (EFFECT_TYPES !! t).

Definition is_stat_buff (t : Z) : bool :=
  (t =? 1) || (t =? 2) || (t =? 3) || (t =? 4) || (t =? 5).

Definition is_speed (t : Z) : bool := (t =? 21) || (t =? 22) || (t =? 27).

Definition format_effect (effect : Effect) : result string :=
  let etype := effect_type effect in
  let modifier := effect_modifier effect in
  let type_name := effect_label etype in
  if is_stat_buff etype then Ok (type_name +:+ str modifier)
  else if etype =? 9 then
    pct <- format_div 0 modifier 100 ;;
    Ok ("Recover " +:+ pct +:+ "% Stamina")
  else if is_speed etype then
    speed_val <- format_div 2 modifier 10000 ;;
    Ok (type_name +:+ speed_val +:+ "m/s")
  else if etype =? 31 then
    accel_val <- format_div 4 modifier 10000 ;;
    Ok (type_name +:+ accel_val)
  else if etype =? 10 then Ok ("Start Delay x" +:+ str modifier)
  else Ok (type_name +:+ " (" +:+ str modifier +:+ ")").

(** ** Skill classification *)

Definition get_skill_type (skill_id : Z) (effects : list Effect)
  : option string :=
  let sid := str skill_id in
  if existsb (fun e => is_stat_buff (effect_type e)) effects then Some "green"
  else if existsb (fun e => effect_modifier e <? 0) effects then Some "blue"
  else if (len sid =? 6)%nat && (startswith sid "10" || startswith sid "11")
  then Some "unique"
  else if (len sid =? 6)%nat && (startswith sid "90" || startswith sid "91")
  then Some "inherited"
  else None.

(** ** Skill details *)

(** One element of the [effects] list of a detail bundle. *)
Record EffectInfo := {
  ei_type : Z;
  ei_type_name : string;
  ei_modifier : Z;
  ei_readable : string
}.

(** The dictionary returned by [get_skill_details]; [rarity] is always
    set, the other keys only when the definition has an alternative. *)
Record SkillDetails := {
  sd_rarity : string;
  sd_condition : option string;
  sd_condition_readable : option string;
  sd_duration_base_ms : option Z;
  sd_duration_per_1000m : option string;
  sd_effects : option (list EffectInfo);
  sd_skill_type : option string;
  sd_summary : option string
}.

(** A dictionary is falsy exactly when it has no key. *)
Definition entry_nonempty (e : SkillEntry) : bool :=
  match se_rarity e, se_alternatives e with
  | None, None => false
  | _, _ => true
  end.

Definition effect_info (eff : Effect) : result EffectInfo :=
  readable <- format_effect eff ;;
  Ok {| ei_type := effect_type eff;
        ei_type_name := default "Unknown" (EFFECT_TYPES !! effect_type eff);
        ei_modifier := effect_modifier eff;
        ei_readable := readable |}.

Definition rarity_label (e : SkillEntry) : string :=
  let rarity := default 0 (se_rarity e) in
  default ("Rarity " +:+ str rarity) (rarity_names !! rarity).

(** The part of [get_skill_details] below the lookup, on a truthy entry. *)
Definition skill_details_of (skill_id : Z) (skill_entry : SkillEntry)
  : result SkillDetails :=
  let rarity := rarity_label skill_entry in
  match default [] (se_alternatives skill_entry) with
  | [] =>
      Ok {| sd_rarity := rarity; sd_condition := None;
            sd_condition_readable := None; sd_duration_base_ms := None;
            sd_duration_per_1000m := None; sd_effects := None;
            sd_skill_type := None; sd_summary := None |}
  | alt :: _ =>
      let condition := default "" (a_condition alt) in
      condition_readable <- parse_condition condition ;;
      let base_duration := default 0 (a_baseDuration alt) in
      duration <-
        (if base_duration =? 0 then Ok None
         else d <- format_div 1 base_duration 1000 ;; Ok (Some (d +:+ "s"))) ;;
      let effects := default [] (a_effects alt) in
      infos <- mapM effect_info effects ;;
      let skill_type :=
        match get_skill_type skill_id effects with
        | Some t => t
        | None =>
            if String.eqb rarity "Gold" then "gold"
            else if String.eqb rarity "Unique" then "unique"
            else "white"
        end in
      let effects_summary := join ", " (map ei_readable infos) in
      Ok {| sd_rarity := rarity;
            sd_condition := Some condition;
            sd_condition_readable := Some condition_readable;
            sd_duration_base_ms :=
              if base_duration =? 0 then None else Some base_duration;
            sd_duration_per_1000m := duration;
            sd_effects := Some infos;
            sd_skill_type := Some skill_type;
            sd_summary :=
              Some (condition_readable +:+ " → " +:+ effects_summary) |}
  end.

Definition get_skill_details (data : Data) (skill_id : Z)
  : result (option SkillDetails) :=
  match skill_data data !! str skill_id with
  | None => Ok None
  | Some skill_entry =>
      if entry_nonempty skill_entry
      then d <- skill_details_of skill_id skill_entry ;; Ok (Some d)
      else Ok None
  end.

(** ** Name resolver chains *)

Definition get_skill_name (data : Data) (skill_id : Z) : option string :=
  let skill_id_str := str skill_id in
  match skills_global data !! skill_id_str with
  | Some (name :: _) => Some name
  | _ =>
      match skills_jp data !! skill_id_str with
      | Some (_ :: en :: _) => Some en
      | _ => None
      end
  end.

(** First tier of [get_spark_name]: the skill id encoded in an eight-digit
    unique-skill trait, [None] when the digit count is not eight. *)
Definition unique_skill_id (spark_id : Z) : result (option Z) :=
  let spark_str := str spark_id in
  if (len spark_str =? 8)%nat then
    middle <- int_of_str (slice 2 5 spark_str) ;;
    c <- char_at 5 spark_str ;;
    variant <- int_of_str (String c EmptyString) ;;
    Ok (Some (if variant =? 2 then 110001 + middle else 100001 + middle))
  else Ok None.

Definition spark_unique (data : Data) (spark_id : Z) : result (option string) :=
  if (10000000 <=? spark_id) && (spark_id <? 20000000) then
    sid <- unique_skill_id spark_id ;;
    match sid with
    | Some skill_id => Ok (nonempty (get_skill_name data skill_id))
    | None => Ok None
    end
  else Ok None.

(** [range(1, 10)]. *)
Definition GROUP_DIGITS : list Z := [1; 2; 3; 4; 5; 6; 7; 8; 9].

Definition rarity_is_white (entry : option SkillEntry) : bool :=
  match entry with
  | Some e =>
      match se_rarity e with
      | Some r => r =? 1
      | None => false
      end
  | None => false
  end.

(** The first loop of the skill tier: at the first candidate of rarity 1
    it returns that candidate's name if there is one and leaves the loop
    either way. *)
Fixpoint white_scan (data : Data) (group_base : Z) (digits : list Z)
  : option string :=
  match digits with
  | [] => None
  | digit :: rest =>
      let candidate_id := group_base + digit in
      if rarity_is_white (skill_data data !! str candidate_id)
      then nonempty (get_skill_name data candidate_id)
      else white_scan data group_base rest
  end.

(** The second loop of the skill tier: the first candidate with a name. *)
Fixpoint any_scan (data : Data) (group_base : Z) (digits : list Z)
  : option string :=
  match digits with
  | [] => None
  | digit :: rest =>
      match nonempty (get_skill_name data (group_base + digit)) with
      | Some name => Some name
      | None => any_scan data group_base rest
      end
  end.

Definition spark_skill (data : Data) (spark_id : Z) : option string :=
  if (2000000 <=? spark_id) && (spark_id <? 3000000) then
    let group_base := spark_id / 100 * 10 in
    match white_scan data group_base GROUP_DIGITS with
    | Some name => Some name
    | None => any_scan data group_base GROUP_DIGITS
    end
  else None.

Definition spark_race (data : Data) (spark_id : Z) : option string :=
  if (1000000 <=? spark_id) && (spark_id <? 10000000) then
    let race_program_id := spark_id / 100 in
    let text_race_id := 1000 + race_program_id mod 1000 in
    nonempty (racenames data !! str text_race_id)
  else None.

Definition spark_generic (data : Data) (spark_id : Z) : option string :=
  nonempty (sparknames data !! str spark_id).

Definition get_spark_name (data : Data) (spark_id : Z)
  : result (option string) :=
  unique <- spark_unique data spark_id ;;
  match unique with
  | Some name => Ok (Some name)
  | None =>
      match spark_skill data spark_id with
      | Some name => Ok (Some name)
      | None =>
          match spark_race data spark_id with
          | Some name => Ok (Some name)
          | None => Ok (spark_generic data spark_id)
          end
      end
  end.

Definition get_race_title_name (data : Data) (saddle_id : Z) : option string :=
  racetitles data !! str saddle_id.

Definition get_nickname_name (data : Data) (nickname_id : Z) : option string :=
  nicknames data !! str nickname_id.

Definition get_race_cloth_name (data : Data) (race_cloth_id : Z)
  : option string :=
  outfitnames data !! str race_cloth_id.

(** The dictionary returned by [get_support_card_info]. *)
Record SupportInfo := {
  si_name_en : option string;
  si_title_en : option string;
  si_chara_en : option string;
  si_type : option string
}.

Definition get_support_card_info (data : Data) (support_card_id : Z)
  : SupportInfo :=
  let sid_str := str support_card_id in
  let entry := supportcardnames data !! sid_str in
  {| si_name_en := entry ≫= scn_name;
     si_title_en := entry ≫= scn_title;
     si_chara_en := entry ≫= scn_chara;
     si_type :=
       match sid_str with
       | String c _ => nonempty (SUPPORT_CARD_TYPES !! String c EmptyString)
       | EmptyString => None
       end |}.

(** The dictionary returned by [get_chara_info]. *)
Record CharaInfo := {
  ci_chara_name_en : option string;
  ci_costume_name_en : option string;
  ci_card_name_en : option string
}.

(** [names[1] if len(names) > 1 and names[1] else names[0]]. *)
Definition pick_name (uma : Uma) : result string :=
  match default [""; ""] (u_name uma) with
  | _ :: (String _ _ as en) :: _ => Ok en
  | native :: _ => Ok native
  | [] => Raise IndexError
  end.

Definition outfit_label (uma : Uma) (card_id_str : string) : option string :=
  default ∅ (u_outfits uma) !! card_id_str.

(** The block reading [umas_global]. *)
Definition chara_info_primary (data : Data) (card_id : Z) : result CharaInfo :=
  match umas_global data !! str (card_id / 100) with
  | Some uma =>
      name <- pick_name uma ;;
      match outfit_label uma (str card_id) with
      | Some label =>
          Ok {| ci_chara_name_en := Some name;
                ci_costume_name_en := Some label;
                ci_card_name_en := Some (label +:+ " " +:+ name) |}
      | None =>
          Ok {| ci_chara_name_en := Some name;
                ci_costume_name_en := None;
                ci_card_name_en := None |}
      end
  | None =>
      Ok {| ci_chara_name_en := None; ci_costume_name_en := None;
            ci_card_name_en := None |}
  end.

Definition get_chara_info (data : Data) (card_id : Z) : result CharaInfo :=
  result0 <- chara_info_primary data card_id ;;
  match ci_chara_name_en result0 with
  | Some _ => Ok result0
  | None =>
      match umas_full data !! str (card_id / 100) with
      | Some uma =>
          name <- pick_name uma ;;
          match outfit_label uma (str card_id), ci_costume_name_en result0 with
          | Some label, None =>
              Ok {| ci_chara_name_en := Some name;
                    ci_costume_name_en := Some label;
                    ci_card_name_en := Some (label +:+ " " +:+ name) |}
          | _, _ =>
              Ok {| ci_chara_name_en := Some name;
                    ci_costume_name_en := ci_costume_name_en result0;
                    ci_card_name_en := ci_card_name_en result0 |}
          end
      | None => Ok result0
      end
  end.


(** ** Character records

    A field of type [option _] is a key that may be absent.  A derived key
    that the orchestrator assigns from [dict.get] can hold [None]; such a
    key has type [option (option string)]: [None] is an absent key,
    [Some None] a key bound to [None]. *)

Record Skill := {
  skill_id : option Z;
  level : option Z;
  skill_name_en : option string;
  sk_rarity : option (option string);
  sk_skill_type : option (option string);
  sk_condition : option (option string);
  sk_effects : option (list EffectInfo);
  sk_duration : option (option string);
  sk_summary : option (option string)
}.

(** An element of [spark_array_enriched]. *)
Record SparkEntry := {
  spark_id : Z;
  spark_name_en : option string;
  stars : option Z
}.

(** An element of a [factor_info_array]. *)
Record FactorInfo := {
  factor_id : option Z;
  fi_spark_name_en : option string;
  fi_stars : option Z
}.

Record WinEntry := {
  saddle_id : Z;
  race_name_en : option string
}.

Record NickEntry := {
  nickname_id : Z;
  nickname_name_en : option string
}.

Record Support := {
  support_card_id : option Z;
  support_card_name_en : option string;
  support_card_title_en : option string;
  support_card_chara_en : option string;
  support_card_type : option string
}.

(** An element of [succession_chara_array]. *)
Record Parent := {
  p_card_id : option Z;
  p_factor_info_array : option (list FactorInfo);
  p_chara_name_en : option string;
  p_costume_name_en : option string;
  p_card_name_en : option string
}.

Record Character := {
  card_id : option Z;
  race_cloth_id : option Z;
  skill_array : option (list Skill);
  factor_id_array : option (list Z);
  factor_info_array : option (list FactorInfo);
  win_saddle_id_array : option (list Z);
  nickname_id_array : option (list Z);
  support_card_list : option (list Support);
  succession_chara_array : option (list Parent);
  chara_name_en : option string;
  costume_name_en : option string;
  card_name_en : option string;
  race_cloth_name_en : option string;
  spark_array_enriched : option (list SparkEntry);
  win_saddle_array_enriched : option (list WinEntry);
  nickname_array_enriched : option (list NickEntry)
}.

(** ** Enrichment orchestrator *)

(** [d.update(info)] on one key: a key of [info] overwrites, a key missing
    from [info] leaves the old binding. *)
Definition updated {A} (new old : option A) : option A :=
  match new with
  | Some v => Some v
  | None => old
  end.

(** [int(str(spark_id)[-2:])]. *)
Definition star_level (spark_id : Z) : result Z :=
  int_of_str (last_chars 2 (str spark_id)).

Definition accepted_stars (star : Z) : option Z :=
  if (1 <=? star) && (star <=? 3) then Some star else None.

Definition enrich_skill (data : Data) (skill : Skill) : result Skill :=
  match skill_id skill with
  | Some sid =>
      if sid =? 0 then Ok skill
      else
        let name := updated (nonempty (get_skill_name data sid))
                            (skill_name_en skill) in
        details <- get_skill_details data sid ;;
        match details with
        | Some d =>
            Ok {| skill_id := skill_id skill;
                  level := level skill;
                  skill_name_en := name;
                  sk_rarity := Some (Some (sd_rarity d));
                  sk_skill_type := Some (sd_skill_type d);
                  sk_condition := Some (sd_condition_readable d);
                  sk_effects := Some (default [] (sd_effects d));
                  sk_duration := Some (sd_duration_per_1000m d);
                  sk_summary := Some (sd_summary d) |}
        | None =>
            Ok {| skill_id := skill_id skill;
                  level := level skill;
                  skill_name_en := name;
                  sk_rarity := sk_rarity skill;
                  sk_skill_type := sk_skill_type skill;
                  sk_condition := sk_condition skill;
                  sk_effects := sk_effects skill;
                  sk_duration := sk_duration skill;
                  sk_summary := sk_summary skill |}
        end
  | None => Ok skill
  end.

Definition enrich_spark (data : Data) (id : Z) : result SparkEntry :=
  spark_name <- get_spark_name data id ;;
  star <- star_level id ;;
  Ok {| spark_id := id; spark_name_en := spark_name;
        stars := accepted_stars star |}.

(** The loop over the character's own [factor_info_array]: names only. *)
Definition enrich_factor_info (data : Data) (fi : FactorInfo)
  : result FactorInfo :=
  if truthy_int (factor_id fi) then
    spark_name <- get_spark_name data (default 0 (factor_id fi)) ;;
    Ok {| factor_id := factor_id fi;
          fi_spark_name_en := updated spark_name (fi_spark_name_en fi);
          fi_stars := fi_stars fi |}
  else Ok fi.

(** The loop over a parent's [factor_info_array]: names and star levels. *)
Definition enrich_parent_spark (data : Data) (fi : FactorInfo)
  : result FactorInfo :=
  if truthy_int (factor_id fi) then
    spark_name <- get_spark_name data (default 0 (factor_id fi)) ;;
    star <- star_level (default 0 (factor_id fi)) ;;
    Ok {| factor_id := factor_id fi;
          fi_spark_name_en := updated spark_name (fi_spark_name_en fi);
          fi_stars := updated (accepted_stars star) (fi_stars fi) |}
  else Ok fi.

Definition enrich_win (data : Data) (id : Z) : WinEntry :=
  {| saddle_id := id;
     race_name_en := nonempty (get_race_title_name data id) |}.

Definition enrich_nickname (data : Data) (id : Z) : NickEntry :=
  {| nickname_id := id;
     nickname_name_en := nonempty (get_nickname_name data id) |}.

Definition enrich_support (data : Data) (support : Support) : Support :=
  if truthy_int (support_card_id support) then
    let info := get_support_card_info data
                  (default 0 (support_card_id support)) in
    {| support_card_id := support_card_id support;
       support_card_name_en :=
         updated (si_name_en info) (support_card_name_en support);
       support_card_title_en :=
         updated (si_title_en info) (support_card_title_en support);
       support_card_chara_en :=
         updated (si_chara_en info) (support_card_chara_en support);
       support_card_type :=
         updated (si_type info) (support_card_type support) |}
  else support.

Definition enrich_parent (data : Data) (parent : Parent) : result Parent :=
  if truthy_int (p_card_id parent) then
    info <- get_chara_info data (default 0 (p_card_id parent)) ;;
    sparks <- mapM_opt (enrich_parent_spark data) (p_factor_info_array parent) ;;
    Ok {| p_card_id := p_card_id parent;
          p_factor_info_array := sparks;
          p_chara_name_en :=
            updated (ci_chara_name_en info) (p_chara_name_en parent);
          p_costume_name_en :=
            updated (ci_costume_name_en info) (p_costume_name_en parent);
          p_card_name_en :=
            updated (ci_card_name_en info) (p_card_name_en parent) |}
  else Ok parent.

(** A key set only when the list built for it is non-empty. *)
Definition set_if_nonempty {A} (built : list A) (old : option (list A))
  : option (list A) :=
  match built with
  | [] => old
  | _ :: _ => Some built
  end.

Definition no_info : CharaInfo :=
  {| ci_chara_name_en := None; ci_costume_name_en := None;
     ci_card_name_en := None |}.

Definition enrich_character (char : Character) (data : Data)
  : result Character :=
  info <- (if truthy_int (card_id char)
           then get_chara_info data (default 0 (card_id char))
           else Ok no_info) ;;
  let cloth_name :=
    if truthy_int (race_cloth_id char)
    then nonempty (get_race_cloth_name data (default 0 (race_cloth_id char)))
    else None in
  skills <- mapM_opt (enrich_skill data) (skill_array char) ;;
  enriched_sparks <- mapM (enrich_spark data)
                          (default [] (factor_id_array char)) ;;
  factor_infos <- mapM_opt (enrich_factor_info data) (factor_info_array char) ;;
  let enriched_wins :=
    map (enrich_win data) (default [] (win_saddle_id_array char)) in
  let enriched_nicknames :=
    map (enrich_nickname data) (default [] (nickname_id_array char)) in
  let supports := option_map (map (enrich_support data))
                             (support_card_list char) in
  parents <- mapM_opt (enrich_parent data) (succession_chara_array char) ;;
  Ok {| card_id := card_id char;
        race_cloth_id := race_cloth_id char;
        skill_array := skills;
        factor_id_array := factor_id_array char;
        factor_info_array := factor_infos;
        win_saddle_id_array := win_saddle_id_array char;
        nickname_id_array := nickname_id_array char;
        support_card_list := supports;
        succession_chara_array := parents;
        chara_name_en := updated (ci_chara_name_en info) (chara_name_en char);
        costume_name_en :=
          updated (ci_costume_name_en info) (costume_name_en char);
        card_name_en := updated (ci_card_name_en info) (card_name_en char);
        race_cloth_name_en := updated cloth_name (race_cloth_name_en char);
        spark_array_enriched :=
          set_if_nonempty enriched_sparks (spark_array_enriched char);
        win_saddle_array_enriched :=
          set_if_nonempty enriched_wins (win_saddle_array_enriched char);
        nickname_array_enriched :=
          set_if_nonempty enriched_nicknames (nickname_array_enriched char) |}.

(** ** The skill tier as the specification words it

    The specification describes the skill tier as a single-shot policy:
    the first candidate of rarity 1 decides the result, and the scan that
    ignores rarity runs only when the group has no candidate of rarity 1.
    [first_white] and [spec_spark_skill] follow these words; they are
    compared with [spark_skill] below. *)

Fixpoint first_white (data : Data) (group_base : Z) (digits : list Z)
  : option Z :=
  match digits with
  | [] => None
  | digit :: rest =>
      if rarity_is_white (skill_data data !! str (group_base + digit))
      then Some (group_base + digit)
      else first_white data group_base rest
  end.

Definition spec_spark_skill (data : Data) (spark_id : Z) : option string :=
  let group_base := spark_id / 100 * 10 in
  match first_white data group_base GROUP_DIGITS with
  | Some candidate_id => nonempty (get_skill_name data candidate_id)
  | None => any_scan data group_base GROUP_DIGITS
  end.

(** ** Sample snapshots and records *)

Module Samples.

Definition white_entry : SkillEntry :=
  {| se_rarity := Some 1; se_alternatives := None |}.

Definition gold_entry : SkillEntry :=
  {| se_rarity := Some 4; se_alternatives := None |}.

(** Group 20049x with both tiers named, as in the bundled tables. *)
Definition named_group : Data :=
  {| skills_global := {[ "200491" := ["No Stopping Me!"];
                         "200492" := ["Nimble Navigator"] ]};
     skills_jp := ∅;
     skill_data := {[ "200491" := gold_entry; "200492" := white_entry ]};
     umas_global := ∅; umas_full := ∅; sparknames := ∅; racenames := ∅;
     outfitnames := ∅; supportcardnames := ∅; racetitles := ∅;
     nicknames := ∅ |}.

(** The same group when the name table lacks the white skill. *)
Definition unnamed_white : Data :=
  {| skills_global := {[ "200491" := ["No Stopping Me!"] ]};
     skills_jp := ∅;
     skill_data := {[ "200491" := gold_entry; "200492" := white_entry ]};
     umas_global := ∅; umas_full := ∅; sparknames := ∅; racenames := ∅;
     outfitnames := ∅; supportcardnames := ∅; racetitles := ∅;
     nicknames := ∅ |}.

(** A generic trait table that names each star level of a stat trait. *)
Definition star_names : Data :=
  {| skills_global := {[ "100061" := ["Triumphant Pulse"] ]};
     skills_jp := ∅; skill_data := ∅; umas_global := ∅; umas_full := ∅;
     sparknames := {[ "101" := "Speed 1"; "102" := "Speed 2" ]};
     racenames := ∅; outfitnames := ∅; supportcardnames := ∅;
     racetitles := ∅; nicknames := ∅ |}.

(** The primary character table knows the character but not the outfit;
    the secondary table knows both. *)
Definition split_outfit : Data :=
  {| skills_global := ∅; skills_jp := ∅; skill_data := ∅;
     umas_global :=
       {[ "1001" := {| u_name := Some ["Supesharu Wiiku"; "Special Week"];
                       u_outfits := Some ∅ |} ]};
     umas_full :=
       {[ "1001" := {| u_name := Some ["Supesharu Wiiku"; "Special Week"];
                       u_outfits :=
                         Some {[ "100101" := "[Special Dreamer]" ]} |} ]};
     sparknames := ∅; racenames := ∅; outfitnames := ∅;
     supportcardnames := ∅; racetitles := ∅; nicknames := ∅ |}.

(** Name table with the two unique skills of character index 060. *)
Definition festive : Data :=
  {| skills_global := {[ "100061" := ["Triumphant Pulse"];
                         "110061" := ["Festive Miracle"] ]};
     skills_jp := ∅; skill_data := ∅; umas_global := ∅; umas_full := ∅;
     sparknames := ∅; racenames := ∅; outfitnames := ∅;
     supportcardnames := ∅; racetitles := ∅; nicknames := ∅ |}.

Definition recovery : Effect :=
  {| e_type := Some 9; e_modifier := Some 550 |}.

Definition slow_down : Effect :=
  {| e_type := Some 21; e_modifier := Some (-1500) |}.

Definition speed_up : Effect :=
  {| e_type := Some 27; e_modifier := Some 3500 |}.

Definition corner_alt : Alternative :=
  {| a_condition := Some "phase==1&corner!=0";
     a_baseDuration := Some 24000;
     a_effects := Some [speed_up] |}.

Definition instant_alt : Alternative :=
  {| a_condition := Some "order_rate>=50";
     a_baseDuration := Some 0;
     a_effects := Some [recovery] |}.

Definition late_alt : Alternative :=
  {| a_condition := Some "is_lastspurt==1";
     a_baseDuration := Some 18000;
     a_effects := Some [slow_down] |}.

(** Skill definitions: one without alternatives, one whose alternative has
    a zero base duration, and two that share their first alternative. *)
Definition skill_defs : Data :=
  {| skills_global := {[ "200512" := ["Corner Adept"];
                         "200352" := ["Corner Recovery"] ]};
     skills_jp := {[ "200011" := ["Migi-mawari"; "Right-Handed"] ]};
     skill_data :=
       {[ "200011" := {| se_rarity := Some 2; se_alternatives := Some [] |};
          "200352" := {| se_rarity := Some 1;
                         se_alternatives := Some [instant_alt] |};
          "200512" := {| se_rarity := Some 1;
                         se_alternatives := Some [corner_alt; late_alt] |} ]};
     umas_global :=
       {[ "1006" := {| u_name := Some ["Oguri Kyappu"; "Oguri Cap"];
                       u_outfits := Some {[ "100601" := "[Starlight Beat]" ]} |} ]};
     umas_full :=
       {[ "1004" := {| u_name := Some ["Maruzensukii"; ""];
                       u_outfits := Some {[ "100401" := "[Formula R]" ]} |} ]};
     sparknames := {[ "101" := "Speed"; "3203" := "Mile" ]};
     racenames := {[ "1005" := "Satsuki Sho" ]};
     outfitnames := {[ "901006" := "Oguri Cap racewear" ]};
     supportcardnames :=
       {[ "30001" := {| scn_name := Some "[Tracen Academy] Special Week";
                        scn_title := Some "[Tracen Academy]";
                        scn_chara := None |} ]};
     racetitles := {[ "14" := "Satsuki Sho" ]};
     nicknames := {[ "1" := "Legend" ]} |}.

(** The same snapshot with a different second alternative for 200512. *)
Definition skill_defs' : Data :=
  {| skills_global := skills_global skill_defs;
     skills_jp := skills_jp skill_defs;
     skill_data :=
       {[ "200512" := {| se_rarity := Some 1;
                         se_alternatives := Some [corner_alt] |} ]};
     umas_global := ∅; umas_full := ∅; sparknames := ∅; racenames := ∅;
     outfitnames := ∅; supportcardnames := ∅; racetitles := ∅;
     nicknames := ∅ |}.

Definition raw_skill (id : Z) : Skill :=
  {| skill_id := Some id; level := Some 1; skill_name_en := None;
     sk_rarity := None; sk_skill_type := None; sk_condition := None;
     sk_effects := None; sk_duration := None; sk_summary := None |}.

Definition raw_factor (id : Z) : FactorInfo :=
  {| factor_id := Some id; fi_spark_name_en := None; fi_stars := None |}.

Definition raw_parent : Parent :=
  {| p_card_id := Some 100401;
     p_factor_info_array := Some [raw_factor 3203; raw_factor 1000502];
     p_chara_name_en := None; p_costume_name_en := None;
     p_card_name_en := None |}.

Definition raw_character : Character :=
  {| card_id := Some 100601;
     race_cloth_id := Some 901006;
     skill_array := Some [raw_skill 200512; raw_skill 200011; raw_skill 200352];
     factor_id_array := Some [101; 3203; 1000502];
     factor_info_array := Some [raw_factor 101];
     win_saddle_id_array := Some [14; 15];
     nickname_id_array := Some [1];
     support_card_list :=
       Some [ {| support_card_id := Some 30001;
                 support_card_name_en := None;
                 support_card_title_en := None;
                 support_card_chara_en := None;
                 support_card_type := None |} ];
     succession_chara_array := Some [raw_parent];
     chara_name_en := None; costume_name_en := None; card_name_en := None;
     race_cloth_name_en := None; spark_array_enriched := None;
     win_saddle_array_enriched := None; nickname_array_enriched := None |}.

End Samples.

(** ** Auxiliary definitions used in the statements *)

(** The [k] low decimal digits of [n], most significant first, put in
    front of [s]. *)
Fixpoint digits_onto (k : nat) (n : N) (s : string) : string :=
  match k with
  | O => s
  | S k' => digits_onto k' (n / 10)%N (String (pretty_N_char (n mod 10)%N) s)
  end.

Fixpoint digits_only (s : string) : bool :=
  match s with
  | EmptyString => true
  | String c r =>
      match digit_val c with
      | Some _ => digits_only r
      | None => false
      end
  end.

(** Value of a string of decimal digits read after the prefix value [acc]. *)
Fixpoint dec_value (acc : Z) (s : string) : Z :=
  match s with
  | EmptyString => acc
  | String c r => dec_value (10 * acc + default 0 (digit_val c)) r
  end.

(** The skill id of a unique-skill trait, by arithmetic on the id. *)
Definition unique_skill_formula (n : Z) : Z :=
  let middle := n / 1000 mod 1000 in
  let variant := n / 100 mod 10 in
  if variant =? 2 then 110001 + middle else 100001 + middle.

Definition alternatives_of (e : SkillEntry) : list Alternative :=
  default [] (se_alternatives e).

(** A detail bundle that holds the rarity label and nothing else. *)
Definition rarity_only (label : string) : SkillDetails :=
  {| sd_rarity := label; sd_condition := None; sd_condition_readable := None;
     sd_duration_base_ms := None; sd_duration_per_1000m := None;
     sd_effects := None; sd_skill_type := None; sd_summary := None |}.

(** The ids a parent entry arrives with: its card id and the trait ids of
    its factor list. *)
Definition parent_ids (p : Parent) : option Z * option (list (option Z)) :=
  (p_card_id p, option_map (map factor_id) (p_factor_info_array p)).

(** [SUPPORT_CARD_TYPES] as a function of the leading decimal digit. *)
Definition card_type_of_digit (d : Z) : option string :=
  match d with
  | 1 => Some "Speed" | 2 => Some "Stamina" | 3 => Some "Power"
  | 4 => Some "Guts" | 5 => Some "Wit" | 6 => Some "Friend"
  | 7 => Some "Group" | _ => None
  end.


(** ** Table generation ([generate_data.py])

    The generator builds the name tables of the snapshot from the
    categories of the text dictionary.  A correction table is the list of
    its items in the order of the source; its terms are non-empty.  Names
    are UTF-8 byte strings, on which the substring test and the replacement
    of a non-empty term agree with those on code points. *)

Definition SPARK_NAME_CORRECTIONS : list (string * string) :=
  [ ("Runner", "Front Runner"); ("Leader", "Pace Chaser");
    ("Betweener", "Late Surger"); ("Chaser", "End Closer");
    ("Bad Track Condition ○", "Wet Conditions ○");
    ("Bad Track Condition ◎", "Wet Conditions ◎");
    ("Bad Track Condition ×", "Wet Conditions ×");
    ("Frontrunner", "Early Lead");
    ("Runner's Corners ○", "Front Runner Corners ○");
    ("Runner's Corners ◎", "Front Runner Corners ◎");
    ("Runner's Straights ○", "Front Runner Straightaways ○");
    ("Runner's Straights ◎", "Front Runner Straightaways ◎");
    ("Runner's Tricks ○", "Front Runner Savvy ○");
    ("Runner's Tricks ◎", "Front Runner Savvy ◎");
    ("Leader's Corners ○", "Pace Chaser Corners ○");
    ("Leader's Corners ◎", "Pace Chaser Corners ◎");
    ("Leader's Straights ○", "Pace Chaser Straightaways ○");
    ("Leader's Straights ◎", "Pace Chaser Straightaways ◎");
    ("Leader's Tricks ○", "Pace Chaser Savvy ○");
    ("Leader's Tricks ◎", "Pace Chaser Savvy ◎");
    ("Betweener's Corners ○", "Late Surger Corners ○");
    ("Betweener's Corners ◎", "Late Surger Corners ◎");
    ("Betweener's Straights ○", "Late Surger Straightaways ○");
    ("Betweener's Straights ◎", "Late Surger Straightaways ◎");
    ("Betweener's Tricks ○", "Late Surger Savvy ○");
    ("Betweener's Tricks ◎", "Late Surger Savvy ◎");
    ("Chaser's Corners ○", "End Closer Corners ○");
    ("Chaser's Corners ◎", "End Closer Corners ◎");
    ("Chaser's Straights ○", "End Closer Straightaways ○");
    ("Chaser's Straights ◎", "End Closer Straightaways ◎");
    ("Chaser's Tricks ○", "End Closer Savvy ○");
    ("Chaser's Tricks ◎", "End Closer Savvy ◎");
    ("Frantic Runners", "Frenzied Front Runners");
    ("Restrained Runners", "Subdued Front Runners");
    ("Panicked Runners", "Flustered Front Runners");
    ("Faltering Runners", "Hesitant Front Runners");
    ("Frantic Leaders", "Frenzied Pace Chasers");
    ("Restrained Leaders", "Subdued Pace Chasers");
    ("Panicked Leaders", "Flustered Pace Chasers");
    ("Faltering Leaders", "Hesitant Pace Chasers");
    ("Frantic Betweeners", "Frenzied Late Surgers");
    ("Restrained Betweeners", "Subdued Late Surgers");
    ("Panicked Betweeners", "Flustered Late Surgers");
    ("Faltering Betweeners", "Hesitant Late Surgers");
    ("Frantic Chasers", "Frenzied End Closers");
    ("Restrained Chasers", "Subdued End Closers");
    ("Panicked Chasers", "Flustered End Closers");
    ("Faltering Chasers", "Hesitant End Closers");
    ("Position Swiper", "Position Pilfer");
    ("100K Horsepower", "1,500,000 CC");
    ("1M Horsepower", "15,000,000 CC");
    ("Blue Rose Chaser", "Blue Rose Closer");
    ("Backup Belly", "Extra Tank");
    ("Big Strides", "Furious Feat");
    ("Autumn Girl ○", "Fall Runner ○");
    ("Autumn Girl ◎", "Fall Runner ◎");
    ("Autumn Girl ×", "Fall Runner ×");
    ("Hold Your Tail High", "Tail Held High");
    ("Wisdom", "Wit") ].

Definition NICKNAME_CORRECTIONS : list (string * string) :=
  [ ("Int Bonus", "Wit Bonus"); ("Int Cap Up", "Wit Cap Up") ].

(** [corrections[name]] when [name in corrections]. *)
Fixpoint correction_for (name : string) (corrections : list (string * string))
  : option string :=
  match corrections with
  | [] => None
  | (wrong, correct) :: rest =>
      if String.eqb wrong name then Some correct
      else correction_for name rest
  end.

(** [sub in s]. *)
Definition occurs_in (sub s : string) : bool :=
  match partition sub s with
  | Some _ => true
  | None => false
  end.

(** The loop of partial replacements, over the items in order; each
    replacement works on the outcome of the ones before it. *)
Fixpoint partial_corrections (corrections : list (string * string))
    (corrected : string) : string :=
  match corrections with
  | [] => corrected
  | (wrong, correct) :: rest =>
      partial_corrections rest
        (if occurs_in wrong corrected then replace wrong correct corrected
         else corrected)
  end.

Definition apply_corrections (name : string)
    (corrections : list (string * string)) : string :=
  match name with
  | EmptyString => name
  | _ =>
      match correction_for name corrections with
      | Some correct => correct
      | None => partial_corrections corrections name
      end
  end.

(** [text_data.get(cat, {})]. *)
Definition category (text_data : gmap string (gmap string string))
    (cat : string) : gmap string string :=
  default ∅ (text_data !! cat).

(** [for k, v in src.items(): result[k] = f(v)], started from [result]. *)
Definition assign_each (f : string -> string) (src result : gmap string string)
  : gmap string string :=
  map_fold (fun k v acc => <[k := f v]> acc) result src.

Definition generate_sparknames (text_data : gmap string (gmap string string))
  : gmap string string :=
  assign_each (fun name => apply_corrections name SPARK_NAME_CORRECTIONS)
              (category text_data "147") ∅.

Definition generate_racenames (text_data : gmap string (gmap string string))
  : gmap string string :=
  assign_each (fun name => apply_corrections name SPARK_NAME_CORRECTIONS)
              (category text_data "36") ∅.

Definition generate_nicknames (text_data : gmap string (gmap string string))
  : gmap string string :=
  let fix_name := fun name => apply_corrections name NICKNAME_CORRECTIONS in
  assign_each fix_name (category text_data "130")
    (assign_each fix_name (category text_data "151") ∅).

(** One entry per id of the union of the three key sets, holding the keys
    the categories have for that id; the sorted order of the insertions
    only fixes the order of the keys in the written file. *)
Definition generate_supportcardnames
    (text_data : gmap string (gmap string string))
  : gmap string SupportCardName :=
  let cat_75 := category text_data "75" in
  let cat_76 := category text_data "76" in
  let cat_77 := category text_data "77" in
  let all_ids : gset string := dom cat_75 ∪ dom cat_76 ∪ dom cat_77 in
  set_to_map
    (fun card_id =>
       (card_id, {| scn_name := cat_75 !! card_id;
                    scn_title := cat_76 !! card_id;
                    scn_chara := cat_77 !! card_id |}))
    all_ids.

(** ** Further sample snapshots and records *)

Module Fixtures.

(** A character table whose entry for character 1001 has an empty list of
    names. *)
Definition nameless : Data :=
  {| skills_global := ∅; skills_jp := ∅; skill_data := ∅;
     umas_global := {[ "1001" := {| u_name := Some []; u_outfits := None |} ]};
     umas_full := ∅; sparknames := ∅; racenames := ∅; outfitnames := ∅;
     supportcardnames := ∅; racetitles := ∅; nicknames := ∅ |}.

(** A skill definition whose condition bounds [order_rate] by a word. *)
Definition unreadable : Data :=
  {| skills_global := ∅; skills_jp := ∅;
     skill_data :=
       {[ "200999" :=
            {| se_rarity := Some 1;
               se_alternatives :=
                 Some [ {| a_condition := Some "order_rate>=half";
                           a_baseDuration := Some 0;
                           a_effects := Some [] |} ] |} ]};
     umas_global := ∅; umas_full := ∅; sparknames := ∅; racenames := ∅;
     outfitnames := ∅; supportcardnames := ∅; racetitles := ∅;
     nicknames := ∅ |}.

(** A roster record that holds a card id and nothing else. *)
Definition card_only (cid : Z) : Character :=
  {| card_id := Some cid; race_cloth_id := None; skill_array := None;
     factor_id_array := None; factor_info_array := None;
     win_saddle_id_array := None; nickname_id_array := None;
     support_card_list := None; succession_chara_array := None;
     chara_name_en := None; costume_name_en := None; card_name_en := None;
     race_cloth_name_en := None; spark_array_enriched := None;
     win_saddle_array_enriched := None; nickname_array_enriched := None |}.

(** An excerpt of a text dictionary: nickname 5 is in both nickname
    categories, card 30002 has a character but neither name nor title. *)
Definition text_excerpt : gmap string (gmap string string) :=
  {[ "147" := {[ "101" := "Speed"; "2101" := "Runner" ]};
     "36" := {[ "1005" := "Satsuki Sho" ]};
     "75" := {[ "30001" := "[Tracen Academy] Special Week" ]};
     "76" := {[ "30001" := "[Tracen Academy]" ]};
     "77" := {[ "30002" := "Silence Suzuka" ]};
     "130" := {[ "33" := "Legend"; "5" := "Int Bonus" ]};
     "151" := {[ "5" := "Speed Bonus"; "6" := "Int Cap Up" ]} ]}.

(** The snapshot whose generated tables come from the excerpt. *)
Definition generated : Data :=
  {| skills_global := ∅; skills_jp := ∅; skill_data := ∅; umas_global := ∅;
     umas_full := ∅;
     sparknames := generate_sparknames text_excerpt;
     racenames := generate_racenames text_excerpt;
     outfitnames := ∅;
     supportcardnames := generate_supportcardnames text_excerpt;
     racetitles := ∅;
     nicknames := generate_nicknames text_excerpt |}.

(** One skill definition: rarity 1 and a single alternative. *)
Definition plain_entry : SkillEntry :=
  {| se_rarity := Some 1; se_alternatives := Some [Samples.corner_alt] |}.

(** The same definition stored under two skill ids. *)
Definition twin_ids : Data :=
  {| skills_global := ∅; skills_jp := ∅;
     skill_data := {[ "100011" := plain_entry; "200011" := plain_entry ]};
     umas_global := ∅; umas_full := ∅; sparknames := ∅; racenames := ∅;
     outfitnames := ∅; supportcardnames := ∅; racetitles := ∅;
     nicknames := ∅ |}.

(** An empty dictionary and a dictionary whose only key is an empty list of
    alternatives. *)
Definition no_keys : SkillEntry :=
  {| se_rarity := None; se_alternatives := None |}.

Definition no_alternatives : SkillEntry :=
  {| se_rarity := None; se_alternatives := Some [] |}.

Definition hollow : Data :=
  {| skills_global := ∅; skills_jp := ∅;
     skill_data := {[ "200021" := no_keys; "200022" := no_alternatives ]};
     umas_global := ∅; umas_full := ∅; sparknames := ∅; racenames := ∅;
     outfitnames := ∅; supportcardnames := ∅; racetitles := ∅;
     nicknames := ∅ |}.
End Fixtures.

(** ** Properties *)

(** *** Decimal strings *)

Lemma pretty_N_go_digits (k : nat) (n : N) (s : string) :
  (10 ^ N.of_nat k <= n < 10 ^ N.of_nat (S k))%N ->
  pretty_N_go n s = digits_onto (S k) n s.
Proof.
  revert n s. induction k as [| k IH]; intros n s [Hlo Hhi].
  - rewrite pretty_N_go_step by (cbn in Hlo; lia).
    cbn [digits_onto].
    replace (n / 10)%N with 0%N; [reflexivity |].
    symmetry. apply N.div_small. cbn in Hhi. lia.
  - rewrite pretty_N_go_step.
    2:{ assert (0 < 10 ^ N.of_nat (S k))%N by (apply N.neq_0_lt_0, N.pow_nonzero; lia). lia. }
    rewrite IH; [reflexivity |].
    rewrite !Nat2N.inj_succ, !N.pow_succ_r' in *.
    split.
    + apply N.div_le_lower_bound; lia.
    + apply N.Div0.div_lt_upper_bound; lia.
Qed.

Lemma str_digits (k : nat) (n : Z) :
  10 ^ Z.of_nat k <= n < 10 ^ Z.of_nat (S k) ->
  str n = digits_onto (S k) (Z.to_N n) "".
Proof.
  intros [Hlo Hhi].
  assert (Hpos : 0 < n).
  { pose proof (Z.pow_pos_nonneg 10 (Z.of_nat k)). lia. }
  destruct n as [| p | p]; try lia.
  unfold str, pretty, pretty_Z, pretty, pretty_positive, pretty, pretty_N.
  destruct (decide (N.pos p = 0%N)) as [Heq | _]; [discriminate |].
  apply pretty_N_go_digits.
  change (Z.to_N (Z.pos p)) with (N.pos p).
  split.
  - apply N2Z.inj_le. rewrite N2Z.inj_pow, nat_N_Z. exact Hlo.
  - apply N2Z.inj_lt. rewrite N2Z.inj_pow, nat_N_Z. exact Hhi.
Qed.

Lemma digit_val_char (x : N) :
  (x < 10)%N -> digit_val (pretty_N_char x) = Some (Z.of_N x).
Proof.
  intros Hx.
  assert (x = 0 \/ x = 1 \/ x = 2 \/ x = 3 \/ x = 4 \/ x = 5 \/ x = 6 \/
          x = 7 \/ x = 8 \/ x = 9)%N as Hcases by lia.
  repeat (destruct Hcases as [-> | Hcases]; [reflexivity |]).
  subst. reflexivity.
Qed.

Lemma digit_not_space (c : ascii) (d : Z) :
  digit_val c = Some d ->
  is_space c = false /\ c <> "-"%char /\ c <> "+"%char /\ c <> "_"%char.
Proof.
  destruct c as [[] [] [] [] [] [] [] []]; vm_compute; intros H;
    try discriminate H; repeat split; discriminate.
Qed.

Lemma lstrip_digits (s : string) : digits_only s = true -> lstrip s = s.
Proof.
  destruct s as [| c r]; [reflexivity |]. cbn [digits_only lstrip].
  destruct (digit_val c) as [d |] eqn:Hd; [| discriminate].
  intros _. destruct (digit_not_space c d Hd) as [-> _]. reflexivity.
Qed.

Lemma rstrip_digits (s : string) : digits_only s = true -> rstrip s = s.
Proof.
  induction s as [| c r IH]; [reflexivity |]. cbn [digits_only rstrip].
  destruct (digit_val c) as [d |] eqn:Hd; [| discriminate].
  intros Hr. rewrite (IH Hr).
  destruct (digit_not_space c d Hd) as [-> _]. destruct r; reflexivity.
Qed.

Lemma int_body_digits (s : string) (acc : Z) (prev : bool) :
  digits_only s = true -> s <> "" ->
  int_body acc prev s = Some (dec_value acc s).
Proof.
  revert acc prev. induction s as [| c r IH]; intros acc prev Hd Hne;
    [congruence |].
  cbn [digits_only] in Hd. cbn [int_body dec_value].
  destruct (digit_val c) as [d |]; [| discriminate]. cbn [default from_option id].
  destruct r as [| c' r'].
  - reflexivity.
  - apply IH; [assumption | discriminate].
Qed.

Lemma int_of_str_digits (s : string) :
  digits_only s = true -> s <> "" -> int_of_str s = Ok (dec_value 0 s).
Proof.
  intros Hd Hne. unfold int_of_str, strip.
  rewrite (lstrip_digits s Hd), (rstrip_digits s Hd).
  destruct s as [| c r]; [congruence |].
  pose proof Hd as Hd'. cbn [digits_only] in Hd'.
  destruct (digit_val c) as [d |] eqn:Hc; [| discriminate].
  destruct (digit_not_space c d Hc) as (_ & Hminus & Hplus & _).
  pose proof (int_body_digits (String c r) 0 false Hd Hne) as Hbody.
  destruct c as [[] [] [] [] [] [] [] []]; try congruence;
    lazy beta iota zeta; rewrite Hbody; reflexivity.
Qed.

Lemma str_eight_digits (n : Z) :
  10000000 <= n < 100000000 ->
  str n = digits_onto 8 (Z.to_N n) "".
Proof. intros H. apply (str_digits 7). cbn. lia. Qed.

Lemma unique_skill_id_decode (n : Z) :
  10000000 <= n < 100000000 ->
  len (str n) = 8%nat /\
  int_of_str (slice 2 5 (str n)) = Ok (n / 1000 mod 1000) /\
  (c <- char_at 5 (str n) ;; int_of_str (String c "")) = Ok (n / 100 mod 10).
Proof.
  intros Hn. rewrite (str_eight_digits n Hn).
  set (x := Z.to_N n).
  cbn [digits_onto]. split; [reflexivity |].
  unfold slice, char_at. cbn [Nat.sub skipn_str firstn_str bind].
  assert (Hd : forall y : N, digit_val (pretty_N_char (y mod 10)%N) = Some (Z.of_N (y mod 10)%N)).
  { intros y. apply digit_val_char. apply N.mod_lt. discriminate. }
  split.
  - rewrite int_of_str_digits.
    + cbn [dec_value]. rewrite !Hd. cbn [default from_option id].
      f_equal. subst x.
      rewrite ?N2Z.inj_mod, ?N2Z.inj_div, Z2N.id by lia.
      change (Z.of_N 10) with 10. clear Hd.
      Z.div_mod_to_equations. lia.
    + cbn [digits_only]. rewrite !Hd. reflexivity.
    + discriminate.
  - rewrite int_of_str_digits.
    + cbn [dec_value]. rewrite !Hd. cbn [default from_option id].
      f_equal. subst x.
      rewrite ?N2Z.inj_mod, ?N2Z.inj_div, Z2N.id by lia.
      change (Z.of_N 10) with 10. clear Hd.
      Z.div_mod_to_equations. lia.
    + cbn [digits_only]. rewrite !Hd. reflexivity.
    + discriminate.
Qed.

(** *** True division and fixed-point formatting *)

Lemma rne_div_spec (a b : Z) :
  0 < b -> 2 * Z.abs (rne_div a b * b - a) <= b.
Proof.
  intros Hb. unfold rne_div.
  pose proof (Z.div_mod a b ltac:(lia)) as Hdm.
  pose proof (Z.mod_pos_bound a b Hb) as Hmod.
  destruct (2 * (a mod b) <? b) eqn:H1; [apply Z.ltb_lt in H1; nia |].
  apply Z.ltb_ge in H1.
  destruct (b <? 2 * (a mod b)) eqn:H2; [apply Z.ltb_lt in H2; nia |].
  apply Z.ltb_ge in H2.
  destruct (Z.even (a / b)); nia.
Qed.

Lemma rne_div_zero (b : Z) : 0 < b -> rne_div 0 b = 0.
Proof.
  intros Hb. unfold rne_div.
  rewrite Z.div_0_l, Z.mod_0_l by lia.
  assert (H : (2 * 0 <? b) = true) by (apply Z.ltb_lt; lia).
  rewrite H. reflexivity.
Qed.

Lemma double_of_ratio_normal (p q : Z) :
  1 <= p < 2 ^ 52 -> 0 < q <= 2 ^ 14 ->
  exists t, 0 < t /\ q < 2 ^ t /\
    double_of_ratio p q = Ok (rne_div (p * 2 ^ t) q, - t).
Proof.
  intros Hp Hq. unfold double_of_ratio.
  set (X := p * 2 ^ 1100 / q).
  assert (Hpow14 : 2 ^ 1100 = 2 ^ 1086 * 2 ^ 14) by (rewrite <- Z.pow_add_r; [reflexivity | lia | lia]).
  assert (H1086 : 0 < 2 ^ 1086) by (apply Z.pow_pos_nonneg; lia).
  assert (H1100 : 0 < 2 ^ 1100) by (apply Z.pow_pos_nonneg; lia).
  assert (HXlo : 2 ^ 1086 <= X).
  { apply Z.div_le_lower_bound; [lia |]. nia. }
  assert (HXq : X * q <= p * 2 ^ 1100).
  { unfold X. rewrite Z.mul_comm. apply Z.mul_div_le. lia. }
  assert (HXhi : X < 2 ^ 1152).
  { replace (2 ^ 1152) with (2 ^ 52 * 2 ^ 1100) by (rewrite <- Z.pow_add_r; [reflexivity | lia | lia]).
    apply Z.le_lt_trans with (p * 2 ^ 1100); [| nia].
    unfold X. apply Z.div_le_upper_bound; [lia |]. nia. }
  assert (HXpos : 0 < X) by lia.
  destruct (Z.log2_spec X HXpos) as [HL1 HL2].
  set (L := Z.log2 X) in *.
  assert (HLlo : 1086 <= L).
  { unfold L. apply Z.log2_le_pow2; [lia | exact HXlo]. }
  assert (HLhi : L < 1152).
  { unfold L. apply Z.log2_lt_pow2; [lia | exact HXhi]. }
  rewrite Z.max_r by lia.
  assert (Hs : (0 <=? L - 1100 - 52) = false) by (apply Z.leb_gt; lia).
  rewrite Hs. cbn [andb].
  exists (1152 - L).
  replace (- (L - 1100 - 52)) with (1152 - L) by lia.
  replace (L - 1100 - 52) with (- (1152 - L)) by lia.
  split; [lia |]. split; [| reflexivity].
  assert (HLpos : 0 < 2 ^ L) by (apply Z.pow_pos_nonneg; lia).
  assert (Hsplit : 2 ^ 1152 = 2 ^ L * 2 ^ (1152 - L)).
  { rewrite <- Z.pow_add_r by lia. f_equal. lia. }
  assert (Hlt : 2 ^ L * q < 2 ^ L * 2 ^ (1152 - L)).
  { rewrite <- Hsplit.
    replace (2 ^ 1152) with (2 ^ 52 * 2 ^ 1100) by (rewrite <- Z.pow_add_r; [reflexivity | lia | lia]).
    nia. }
  apply Z.mul_lt_mono_pos_l in Hlt; assumption.
Qed.

Lemma format_div_nearest (d : nat) (p q r : Z) :
  Z.abs p < 2 ^ 52 -> 0 < r -> q = 10 ^ Z.of_nat d * r -> q <= 2 ^ 14 ->
  exists n,
    format_div d p q = Ok (sign_prefix p +:+ render_fixed d n) /\
    0 <= n /\ 2 * Z.abs (r * n - Z.abs p) <= r.
Proof.
  intros Hp Hr Hq Hq14.
  assert (Hscale : 0 < 10 ^ Z.of_nat d) by (apply Z.pow_pos_nonneg; lia).
  assert (Hqpos : 0 < q) by nia.
  unfold format_div.
  destruct (Z.eq_dec p 0) as [-> | Hne].
  - exists 0. split; [| lia].
    unfold double_of_ratio. cbn [Z.abs]. rewrite Z.mul_0_l, Z.div_0_l by lia.
    change (Z.log2 0) with 0. change (Z.max (-1022) (0 - 1100)) with (-1022).
    change (0 <=? -1022 - 52) with false. cbn [andb bind].
    unfold fixed_of_double, scaled_of_double.
    change (0 <=? -1022 - 52) with false. cbv iota beta.
    rewrite Z.mul_0_l, (rne_div_zero q Hqpos), Z.mul_0_l.
    rewrite rne_div_zero by (apply Z.pow_pos_nonneg; lia).
    reflexivity.
  - destruct (double_of_ratio_normal (Z.abs p) q) as (t & Ht & HqT & Hdouble);
      [lia | lia |].
    rewrite Hdouble. cbn [bind].
    unfold fixed_of_double, scaled_of_double.
    assert (Hneg : (0 <=? - t) = false) by (apply Z.leb_gt; lia).
    rewrite Hneg, Z.opp_involutive.
    set (T := 2 ^ t) in *.
    assert (HT : 0 < T) by (apply Z.pow_pos_nonneg; lia).
    set (M := rne_div (Z.abs p * T) q).
    set (N := rne_div (M * 10 ^ Z.of_nat d) T).
    exists N. split; [reflexivity |].
    pose proof (rne_div_spec (Z.abs p * T) q Hqpos) as HM. fold M in HM.
    pose proof (rne_div_spec (M * 10 ^ Z.of_nat d) T HT) as HN. fold N in HN.
    set (S := 10 ^ Z.of_nat d) in *.
    set (P := Z.abs p) in *.
    assert (HP : 0 < P) by (unfold P; lia).
    assert (Hid : T * (r * N - P) = r * (N * T - M * S) + (M * q - P * T))
      by (rewrite Hq; ring).
    assert (Hbound : 2 * Z.abs (T * (r * N - P)) < (r + 1) * T).
    { rewrite Hid.
      pose proof (Z.abs_triangle (r * (N * T - M * S)) (M * q - P * T)) as Htri.
      rewrite Z.abs_mul, (Z.abs_eq r) in Htri by lia. nia. }
    rewrite Z.abs_mul, (Z.abs_eq T) in Hbound by lia.
    split; [| nia].
    destruct (Z_lt_dec N 0) as [HNneg |]; [| lia].
    exfalso. nia.
Qed.

(** *** Skill classification *)

Lemma is_stat_buff_spec (t : Z) :
  is_stat_buff t = true <-> In t [1; 2; 3; 4; 5].
Proof.
  unfold is_stat_buff. cbn [In].
  rewrite !orb_true_iff, !Z.eqb_eq. intuition.
Qed.

Lemma is_stat_buff_false (t : Z) :
  is_stat_buff t = false <-> ~ In t [1; 2; 3; 4; 5].
Proof.
  rewrite <- is_stat_buff_spec. destruct (is_stat_buff t); intuition congruence.
Qed.

(** C9.  Whatever the skill id, an effect list holding a stat-buff type
    (1 to 5) classifies as "green"; the classification is "blue" exactly
    when no effect has a stat-buff type and some modifier is negative. *)
Theorem get_skill_type_green_precedes_blue (sid : Z) (effects : list Effect) :
  ((exists e, In e effects /\ In (effect_type e) [1; 2; 3; 4; 5]) ->
   get_skill_type sid effects = Some "green") /\
  (get_skill_type sid effects = Some "blue" <->
   (forall e, In e effects -> ~ In (effect_type e) [1; 2; 3; 4; 5]) /\
   (exists e, In e effects /\ effect_modifier e < 0)).
Proof.
  unfold get_skill_type.
  destruct (existsb (fun e => is_stat_buff (effect_type e)) effects) eqn:Hgreen.
  - apply existsb_exists in Hgreen as (e & Hin & Hbuff).
    apply is_stat_buff_spec in Hbuff.
    split; [reflexivity |].
    split; [discriminate |].
    intros [Hnone _]. exfalso. exact (Hnone e Hin Hbuff).
  - assert (Hnone : forall e, In e effects -> ~ In (effect_type e) [1; 2; 3; 4; 5]).
    { intros e Hin. apply is_stat_buff_false.
      destruct (is_stat_buff (effect_type e)) eqn:Hb; [| reflexivity].
      rewrite <- Hgreen. symmetry. apply existsb_exists. eauto. }
    split.
    { intros (e & Hin & Hbuff). exfalso. exact (Hnone e Hin Hbuff). }
    destruct (existsb (fun e => effect_modifier e <? 0) effects) eqn:Hblue.
    + apply existsb_exists in Hblue as (e & Hin & Hneg).
      apply Z.ltb_lt in Hneg. split; [| reflexivity]. eauto.
    + split.
      * intros Habs. repeat case_match; discriminate.
      * intros [_ (e & Hin & Hneg)]. exfalso.
        assert (Hex : existsb (fun e => effect_modifier e <? 0) effects = true).
        { apply existsb_exists. exists e. split; [assumption |].
          apply Z.ltb_lt. assumption. }
        congruence.
Qed.

(** *** Effect formatter *)


(** *** Condition parser *)

(** A clause that is not blank always contributes a part: the [continue]
    of the [always] branch only moves on to the next operator, and the
    [else] of the operator loop renders the clause when no operator is
    left. *)
Lemma condition_parts_nil (terms : list string) :
  condition_parts terms = Ok [] -> Forall (fun t => strip t = "") terms.
Proof.
  induction terms as [| t rest IH]; intros Hparts.
  - constructor.
  - cbn [condition_parts] in Hparts.
    destruct (strip t) as [| c term] eqn:Hstrip.
    + constructor; [assumption | apply IH; assumption].
    + exfalso.
      destruct (render_term OPERATORS (String c term)) as [text | e];
        cbn [bind] in Hparts; [| discriminate].
      destruct (condition_parts rest) as [parts | e];
        cbn [bind] in Hparts; discriminate.
Qed.

Lemma condition_parts_blank (terms : list string) :
  Forall (fun t => strip t = "") terms -> condition_parts terms = Ok [].
Proof.
  induction 1 as [| t rest Hblank _ IH]; [reflexivity |].
  cbn [condition_parts]. rewrite Hblank. exact IH.
Qed.

Lemma parse_condition_join (condition : string) (parts : list string) :
  condition_parts (split_on "&" condition) = Ok parts ->
  parse_condition condition =
  Ok (match parts with [] => "Always" | _ :: _ => join " & " parts end).
Proof.
  intros Hparts. unfold parse_condition.
  destruct condition as [| c rest].
  - vm_compute in Hparts. injection Hparts as <-. reflexivity.
  - rewrite Hparts. cbn [bind]. destruct parts; reflexivity.
Qed.

(** C7.  The empty condition reads "Always"; the two sample conditions of
    the specification render as stated; the rendered clauses are joined
    with " & " and a condition none of whose clauses renders reads
    "Always".  A clause whose key is [always] is not dropped, though: the
    condition "always==1" renders as "Always==1", and no clause renders
    only when every clause is blank. *)
Theorem parse_condition_always_clause :
  parse_condition "" = Ok "Always" /\
  parse_condition "phase==2&is_lastspurt=1" = Ok "Final Leg & Last Spurt" /\
  parse_condition "order_rate>=70" = Ok "Back 30%" /\
  (forall condition parts,
     condition_parts (split_on "&" condition) = Ok parts ->
     parse_condition condition =
     Ok (match parts with [] => "Always" | _ :: _ => join " & " parts end)) /\
  (forall condition,
     condition_parts (split_on "&" condition) = Ok [] <->
     Forall (fun t => strip t = "") (split_on "&" condition)) /\
  render_clause "==" "always" "1" = Ok None /\
  parse_condition "always==1" = Ok "Always==1" /\
  parse_condition "always=1&always==1" = Ok "Always=1 & Always==1".
Proof.
  split; [vm_compute; reflexivity |].
  split; [vm_compute; reflexivity |].
  split; [vm_compute; reflexivity |].
  split; [exact parse_condition_join |].
  split.
  { intros condition. split.
    - apply condition_parts_nil.
    - apply condition_parts_blank. }
  split; [vm_compute; reflexivity |].
  split; vm_compute; reflexivity.
Qed.

(** *** Character and outfit names *)

(** Once the primary table has named the character, the secondary table is
    not read at all. *)
Lemma get_chara_info_primary_named (data : Data) (card_id : Z) (info : CharaInfo) :
  chara_info_primary data card_id = Ok info ->
  is_Some (ci_chara_name_en info) ->
  get_chara_info data card_id = Ok info.
Proof.
  intros Hprimary [name Hname]. unfold get_chara_info.
  rewrite Hprimary. cbn [bind]. rewrite Hname. reflexivity.
Qed.

(** C3.  With a primary table that names character 1001 but has no label
    for outfit 100101 and a secondary table that has the label, the result
    carries the character name only: the costume label of the secondary
    source is not merged in. *)
Theorem get_chara_info_outfit_not_merged :
  umas_global Samples.split_outfit !! str (100101 / 100) =
    Some {| u_name := Some ["Supesharu Wiiku"; "Special Week"];
            u_outfits := Some ∅ |} /\
  match umas_full Samples.split_outfit !! str (100101 / 100) with
  | Some uma => outfit_label uma (str 100101)
  | None => None
  end = Some "[Special Dreamer]" /\
  get_chara_info Samples.split_outfit 100101 =
    Ok {| ci_chara_name_en := Some "Special Week";
          ci_costume_name_en := None;
          ci_card_name_en := None |}.
Proof.
  split; [vm_compute; reflexivity |].
  split; vm_compute; reflexivity.
Qed.

(** *** Skill entries of a character *)

(** For any skill whose definition is found and has no alternative, the
    four keys below are bound to [None] and [effects] to the empty list. *)
Lemma enrich_skill_no_alternatives (data : Data) (skill : Skill) (sid : Z)
    (e : SkillEntry) :
  skill_id skill = Some sid -> sid <> 0 ->
  skill_data data !! str sid = Some e ->
  entry_nonempty e = true ->
  alternatives_of e = [] ->
  exists skill',
    enrich_skill data skill = Ok skill' /\
    sk_rarity skill' = Some (Some (rarity_label e)) /\
    sk_skill_type skill' = Some None /\
    sk_condition skill' = Some None /\
    sk_effects skill' = Some [] /\
    sk_duration skill' = Some None /\
    sk_summary skill' = Some None.
Proof.
  intros Hid Hnz He Hne Halts.
  unfold enrich_skill, get_skill_details, skill_details_of.
  fold (alternatives_of e).
  assert (Hz : (sid =? 0) = false) by (apply Z.eqb_neq; assumption).
  rewrite Hid, Hz, He, Hne.
  fold (alternatives_of e). rewrite Halts. cbn [bind].
  eexists. split; [reflexivity |]. repeat split.
Qed.

(** C5.  For a skill whose definition has no alternatives the orchestrator
    binds the keys skill_type, condition, duration and summary to [None]
    instead of leaving them out, and for a definition whose alternative
    has a zero base duration it binds duration to [None]. *)
Theorem enrich_skill_binds_none :
  enrich_skill Samples.skill_defs (Samples.raw_skill 200011) =
    Ok {| skill_id := Some 200011; level := Some 1;
          skill_name_en := Some "Right-Handed";
          sk_rarity := Some (Some "White");
          sk_skill_type := Some None;
          sk_condition := Some None;
          sk_effects := Some [];
          sk_duration := Some None;
          sk_summary := Some None |} /\
  (s <- enrich_skill Samples.skill_defs (Samples.raw_skill 200352) ;;
   Ok (sk_duration s, sk_condition s)) =
    Ok (Some None, Some (Some "Back 50%")).
Proof.
  split; vm_compute; reflexivity.
Qed.

(** *** Skill details *)

Lemma skill_details_of_head (sid : Z) (e1 e2 : SkillEntry) :
  se_rarity e1 = se_rarity e2 ->
  head (alternatives_of e1) = head (alternatives_of e2) ->
  skill_details_of sid e1 = skill_details_of sid e2.
Proof.
  unfold skill_details_of, rarity_label, alternatives_of.
  intros Hrarity Hhead. rewrite Hrarity.
  destruct (default [] (se_alternatives e1)) as [| alt1 more1];
    destruct (default [] (se_alternatives e2)) as [| alt2 more2];
    cbn [head] in Hhead; try discriminate; [reflexivity |].
  injection Hhead as ->. reflexivity.
Qed.

(** The classification stored in a detail bundle is the one of
    [get_skill_type] whenever that one is decided; the fallback by rarity
    never yields "green" or "blue". *)
Lemma skill_details_type (sid : Z) (e : SkillEntry) (alt : Alternative)
    (d : SkillDetails) :
  head (alternatives_of e) = Some alt ->
  skill_details_of sid e = Ok d ->
  let effects := default [] (a_effects alt) in
  (forall t, get_skill_type sid effects = Some t -> sd_skill_type d = Some t) /\
  (get_skill_type sid effects = None ->
   sd_skill_type d = Some "gold" \/ sd_skill_type d = Some "unique" \/
   sd_skill_type d = Some "white").
Proof.
  unfold alternatives_of, skill_details_of. intros Hhead Hd.
  destruct (default [] (se_alternatives e)) as [| alt' more];
    cbn [head] in Hhead; [discriminate |].
  injection Hhead as ->.
  destruct (parse_condition (default "" (a_condition alt))) as [c | x];
    cbn [bind] in Hd; [| discriminate].
  destruct (if default 0 (a_baseDuration alt) =? 0 then Ok None
            else dur <- format_div 1 (default 0 (a_baseDuration alt)) 1000 ;;
                 Ok (Some (dur +:+ "s"))) as [dur | x];
    cbn [bind] in Hd; [| discriminate].
  destruct (mapM effect_info (default [] (a_effects alt))) as [infos | x];
    cbn [bind] in Hd; [| discriminate].
  injection Hd as <-. cbn [sd_skill_type]. cbv zeta.
  destruct (get_skill_type sid (default [] (a_effects alt))) as [t |].
  - split; [intros t' [= <-]; reflexivity | discriminate].
  - split; [discriminate |]. intros _.
    destruct (String.eqb (rarity_label e) "Gold"); [left; reflexivity |].
    destruct (String.eqb (rarity_label e) "Unique"); auto.
Qed.

(** *** Trait resolution *)

Lemma unique_skill_id_spec (n : Z) :
  10000000 <= n < 100000000 ->
  unique_skill_id n = Ok (Some (unique_skill_formula n)).
Proof.
  intros Hn. destruct (unique_skill_id_decode n Hn) as (Hlen & Hmid & Hvar).
  unfold unique_skill_id. rewrite Hlen. cbn [Nat.eqb].
  rewrite Hmid. cbn [bind].
  destruct (char_at 5 (str n)) as [c | e]; cbn [bind] in Hvar |- *;
    [| discriminate].
  rewrite Hvar. reflexivity.
Qed.

Lemma nonempty_some (name : string) :
  name <> "" -> nonempty (Some name) = Some name.
Proof. destruct name; [congruence | reflexivity]. Qed.

(** C6.  A trait id from 10,000,000 up to but excluding 20,000,000 prints
    with eight digits; the slice of its digits 3 to 5 reads as
    [id / 1000 mod 1000] and its digit 6 as [id / 100 mod 10]; the decoded
    skill id is 110001 plus the slice when that digit is 2 and 100001 plus
    the slice otherwise; and when the Skill Name chain finds a name for the
    decoded id (a non-empty one), that name is the result. *)
Theorem spark_unique_decoding (data : Data) (id : Z) :
  10000000 <= id < 20000000 ->
  len (str id) = 8%nat /\
  int_of_str (slice 2 5 (str id)) = Ok (id / 1000 mod 1000) /\
  (c <- char_at 5 (str id) ;; int_of_str (String c "")) = Ok (id / 100 mod 10) /\
  unique_skill_id id =
    Ok (Some (if id / 100 mod 10 =? 2 then 110001 + id / 1000 mod 1000
              else 100001 + id / 1000 mod 1000)) /\
  (forall name,
     get_skill_name data (unique_skill_formula id) = Some name ->
     name <> "" ->
     get_spark_name data id = Ok (Some name)).
Proof.
  intros Hid.
  assert (Hn : 10000000 <= id < 100000000) by lia.
  destruct (unique_skill_id_decode id Hn) as (Hlen & Hmid & Hvar).
  repeat split; try assumption.
  - apply (unique_skill_id_spec id Hn).
  - intros name Hname Hne. unfold get_spark_name, spark_unique.
    assert (Hrange : (10000000 <=? id) && (id <? 20000000) = true).
    { apply andb_true_intro. split; [apply Z.leb_le | apply Z.ltb_lt]; lia. }
    rewrite Hrange, (unique_skill_id_spec id Hn). cbn [bind].
    rewrite Hname, (nonempty_some name Hne). reflexivity.
Qed.

Lemma spark_unique_decoding_witness :
  len (str 10060201) = 8%nat /\
  int_of_str (slice 2 5 (str 10060201)) = Ok 60 /\
  (c <- char_at 5 (str 10060201) ;; int_of_str (String c "")) = Ok 2 /\
  unique_skill_id 10060201 = Ok (Some 110061) /\
  get_spark_name Samples.festive 10060201 = Ok (Some "Festive Miracle").
Proof.
  destruct (spark_unique_decoding Samples.festive 10060201)
    as (Hlen & Hmid & Hvar & Hid & Hname); [lia |].
  split; [exact Hlen |].
  split; [exact Hmid |].
  split; [exact Hvar |].
  split; [exact Hid |].
  apply Hname; [vm_compute; reflexivity | discriminate].
Defined.

Lemma spark_unique_out_of_range (data : Data) (id : Z) :
  ~ (10000000 <= id < 20000000) -> spark_unique data id = Ok None.
Proof.
  intros Hout. unfold spark_unique.
  destruct ((10000000 <=? id) && (id <? 20000000)) eqn:Hrange; [| reflexivity].
  apply andb_prop in Hrange as [Hlo Hhi].
  apply Z.leb_le in Hlo. apply Z.ltb_lt in Hhi. lia.
Qed.

Lemma spark_unique_in_range (data : Data) (id : Z) :
  10000000 <= id < 20000000 ->
  spark_unique data id =
  Ok (nonempty (get_skill_name data (unique_skill_formula id))).
Proof.
  intros Hid. unfold spark_unique.
  assert (Hrange : (10000000 <=? id) && (id <? 20000000) = true).
  { apply andb_true_intro. split; [apply Z.leb_le | apply Z.ltb_lt]; lia. }
  rewrite Hrange, unique_skill_id_spec by lia. reflexivity.
Qed.

(** [get_spark_name] never raises: the only fallible step, the decoding of
    a unique-skill trait, succeeds on every id of its range. *)
Lemma get_spark_name_total (data : Data) (id : Z) :
  exists name, get_spark_name data id = Ok name.
Proof.
  unfold get_spark_name.
  assert (Hu : exists u, spark_unique data id = Ok u).
  { destruct (Z_le_dec 10000000 id) as [Hlo |];
      [destruct (Z_lt_dec id 20000000) as [Hhi |] |].
    - eexists. apply spark_unique_in_range. lia.
    - eexists. apply spark_unique_out_of_range. lia.
    - eexists. apply spark_unique_out_of_range. lia. }
  destruct Hu as [u ->]. cbn [bind].
  destruct u; [eauto |].
  destruct (spark_skill data id); [eauto |].
  destruct (spark_race data id); eauto.
Qed.

Lemma range_same_hundred (lo hi a b : Z) :
  a / 100 = b / 100 ->
  (100 * lo <=? a) && (a <? 100 * hi) = (100 * lo <=? b) && (b <? 100 * hi).
Proof.
  intros Hab.
  destruct (100 * lo <=? a) eqn:Ha1; destruct (100 * lo <=? b) eqn:Hb1;
  destruct (a <? 100 * hi) eqn:Ha2; destruct (b <? 100 * hi) eqn:Hb2;
  try reflexivity; exfalso;
  rewrite ?Z.leb_le, ?Z.leb_gt, ?Z.ltb_lt, ?Z.ltb_ge in *;
  Z.div_mod_to_equations; lia.
Qed.

(** C4 as stated fails: the generic tier looks the whole id up, so two ids
    that differ only in their last two digits can get different names. *)
Lemma get_spark_name_suffix_changes_name :
  101 / 100 = 102 / 100 /\
  get_spark_name Samples.star_names 101 = Ok (Some "Speed 1") /\
  get_spark_name Samples.star_names 102 = Ok (Some "Speed 2") /\
  ~ (forall (data : Data) (a b : Z),
       0 <= a -> 0 <= b -> a / 100 = b / 100 ->
       get_spark_name data a = get_spark_name data b).
Proof.
  split; [reflexivity |].
  split; [vm_compute; reflexivity |].
  split; [vm_compute; reflexivity |].
  intros Hinv.
  specialize (Hinv Samples.star_names 101 102).
  assert (Hab : get_spark_name Samples.star_names 101 =
                get_spark_name Samples.star_names 102).
  { apply Hinv; [lia | lia | reflexivity]. }
  vm_compute in Hab. discriminate Hab.
Qed.

(** C4, amended.  For two trait ids with the same quotient by 100 (ids
    that differ only in their final two decimal digits), the unique-skill,
    skill and race tiers give the same answer, and [get_spark_name] gives
    the same result whenever the generic trait table does. *)
Theorem get_spark_name_same_hundred (data : Data) (a b : Z) :
  a / 100 = b / 100 ->
  spark_unique data a = spark_unique data b /\
  spark_skill data a = spark_skill data b /\
  spark_race data a = spark_race data b /\
  (spark_generic data a = spark_generic data b ->
   get_spark_name data a = get_spark_name data b).
Proof.
  intros Hab.
  assert (Hu : spark_unique data a = spark_unique data b).
  { destruct (Z_le_dec 10000000 a) as [Hlo |];
      [destruct (Z_lt_dec a 20000000) as [Hhi |] |].
    - assert (10000000 <= b < 20000000) by (Z.div_mod_to_equations; lia).
      rewrite !spark_unique_in_range by lia.
      unfold unique_skill_formula.
      replace (a / 1000) with (a / 100 / 10) by (rewrite Z.div_div by lia; reflexivity).
      replace (b / 1000) with (b / 100 / 10) by (rewrite Z.div_div by lia; reflexivity).
      rewrite Hab. reflexivity.
    - rewrite !spark_unique_out_of_range; [reflexivity | |];
        Z.div_mod_to_equations; lia.
    - rewrite !spark_unique_out_of_range; [reflexivity | |];
        Z.div_mod_to_equations; lia. }
  assert (Hs : spark_skill data a = spark_skill data b).
  { unfold spark_skill.
    pose proof (range_same_hundred 20000 30000 a b Hab) as Hrange.
    change (100 * 20000) with 2000000 in Hrange.
    change (100 * 30000) with 3000000 in Hrange.
    rewrite Hrange, Hab. reflexivity. }
  assert (Hr : spark_race data a = spark_race data b).
  { unfold spark_race.
    pose proof (range_same_hundred 10000 100000 a b Hab) as Hrange.
    change (100 * 10000) with 1000000 in Hrange.
    change (100 * 100000) with 10000000 in Hrange.
    rewrite Hrange, Hab. reflexivity. }
  repeat split; try assumption.
  intros Hg. unfold get_spark_name. rewrite Hu, Hs, Hr, Hg. reflexivity.
Qed.

Lemma get_spark_name_same_hundred_witness :
  spark_unique Samples.star_names 10060101 =
    spark_unique Samples.star_names 10060103 /\
  spark_skill Samples.star_names 10060101 =
    spark_skill Samples.star_names 10060103 /\
  spark_race Samples.star_names 10060101 =
    spark_race Samples.star_names 10060103 /\
  get_spark_name Samples.star_names 10060101 =
    get_spark_name Samples.star_names 10060103.
Proof.
  destruct (get_spark_name_same_hundred Samples.star_names 10060101 10060103)
    as (Hu & Hs & Hr & Hname); [reflexivity |].
  split; [exact Hu |].
  split; [exact Hs |].
  split; [exact Hr |].
  apply Hname. vm_compute. reflexivity.
Defined.

(** [first_white] is the first candidate of the scan whose rarity is 1. *)
Lemma first_white_some (data : Data) (gb : Z) (digits : list Z) (c : Z) :
  first_white data gb digits = Some c ->
  exists pre d post,
    digits = (pre ++ d :: post)%list /\ c = gb + d /\
    rarity_is_white (skill_data data !! str (gb + d)) = true /\
    Forall (fun d' => rarity_is_white (skill_data data !! str (gb + d')) = false)
           pre.
Proof.
  induction digits as [| d rest IH]; cbn [first_white]; [discriminate |].
  destruct (rarity_is_white (skill_data data !! str (gb + d))) eqn:Hw.
  - intros [= <-]. exists [], d, rest. repeat split; [assumption | constructor].
  - intros Hrest. destruct (IH Hrest) as (pre & d' & post & -> & -> & Hd' & Hpre).
    exists (d :: pre), d', post. repeat split; [assumption |].
    constructor; assumption.
Qed.

Lemma first_white_none (data : Data) (gb : Z) (digits : list Z) :
  first_white data gb digits = None <->
  Forall (fun d => rarity_is_white (skill_data data !! str (gb + d)) = false)
         digits.
Proof.
  induction digits as [| d rest IH]; cbn [first_white].
  - split; [constructor | reflexivity].
  - destruct (rarity_is_white (skill_data data !! str (gb + d))) eqn:Hw.
    + split; [discriminate |]. intros Hall. inversion Hall; congruence.
    + rewrite IH. split.
      * intros Hrest. constructor; assumption.
      * intros Hall. inversion Hall; assumption.
Qed.

Lemma white_scan_first_white (data : Data) (gb : Z) (digits : list Z) :
  white_scan data gb digits =
  match first_white data gb digits with
  | Some candidate_id => nonempty (get_skill_name data candidate_id)
  | None => None
  end.
Proof.
  induction digits as [| d rest IH]; [reflexivity |].
  cbn [white_scan first_white].
  destruct (rarity_is_white (skill_data data !! str (gb + d))); [reflexivity |].
  exact IH.
Qed.

(** C1 as stated fails: when the first candidate of rarity 1 has no name,
    the scan that ignores rarity still runs, and the trait resolves to the
    name of a candidate of higher rarity. *)
Lemma spark_skill_rescans_after_white :
  first_white Samples.unnamed_white (2004901 / 100 * 10) GROUP_DIGITS =
    Some 200492 /\
  get_skill_name Samples.unnamed_white 200492 = None /\
  spec_spark_skill Samples.unnamed_white 2004901 = None /\
  spark_skill Samples.unnamed_white 2004901 = Some "No Stopping Me!" /\
  get_spark_name Samples.unnamed_white 2004901 = Ok (Some "No Stopping Me!") /\
  get_skill_name Samples.unnamed_white 200491 = Some "No Stopping Me!" /\
  skill_data Samples.unnamed_white !! str 200491 = Some Samples.gold_entry /\
  ~ (forall (data : Data) (id : Z),
       2000000 <= id < 3000000 ->
       spark_skill data id = spec_spark_skill data id).
Proof.
  repeat (split; [vm_compute; reflexivity |]).
  intros Hspec.
  specialize (Hspec Samples.unnamed_white 2004901).
  assert (Heq : spark_skill Samples.unnamed_white 2004901 =
                spec_spark_skill Samples.unnamed_white 2004901)
    by (apply Hspec; lia).
  vm_compute in Heq. discriminate Heq.
Qed.

(** C1, amended.  For a trait id from 2,000,000 up to but excluding
    3,000,000, with [group_base = (id div 100) * 10]: the skill tier returns
    the name of the first candidate of rarity 1 among [group_base + 1] to
    [group_base + 9] when that candidate has a name; otherwise, whether the
    group has no candidate of rarity 1 or its first one has no name, it
    returns the first name found among the same candidates with rarity
    ignored.  When the skill tier finds nothing the race tier and then the
    generic tier are tried. *)
Theorem spark_skill_two_phase (data : Data) (id : Z) :
  2000000 <= id < 3000000 ->
  spark_skill data id =
    match
      match first_white data (id / 100 * 10) GROUP_DIGITS with
      | Some candidate_id => nonempty (get_skill_name data candidate_id)
      | None => None
      end
    with
    | Some name => Some name
    | None => any_scan data (id / 100 * 10) GROUP_DIGITS
    end /\
  get_spark_name data id =
    Ok match spark_skill data id with
       | Some name => Some name
       | None =>
           match spark_race data id with
           | Some name => Some name
           | None => spark_generic data id
           end
       end.
Proof.
  intros Hid. split.
  - unfold spark_skill.
    assert (Hrange : (2000000 <=? id) && (id <? 3000000) = true).
    { apply andb_true_intro. split; [apply Z.leb_le | apply Z.ltb_lt]; lia. }
    rewrite Hrange, white_scan_first_white. reflexivity.
  - unfold get_spark_name.
    rewrite spark_unique_out_of_range by lia. cbn [bind].
    destruct (spark_skill data id); [reflexivity |].
    destruct (spark_race data id); reflexivity.
Qed.

Lemma spark_skill_two_phase_witness :
  spark_skill Samples.named_group 2004903 = Some "Nimble Navigator" /\
  get_spark_name Samples.named_group 2004903 = Ok (Some "Nimble Navigator").
Proof.
  destruct (spark_skill_two_phase Samples.named_group 2004903)
    as (Hskill & Hname); [lia |].
  split.
  - rewrite Hskill. vm_compute. reflexivity.
  - rewrite Hname. vm_compute. reflexivity.
Defined.

(** *** Idempotence of the orchestrator *)

Lemma updated_idem {A} (new old : option A) :
  updated new (updated new old) = updated new old.
Proof. destruct new; reflexivity. Qed.

Lemma set_if_nonempty_idem {A} (built : list A) (old : option (list A)) :
  set_if_nonempty built (set_if_nonempty built old) = set_if_nonempty built old.
Proof. destruct built; reflexivity. Qed.

Lemma mapM_idem {A} (f : A -> result A) :
  (forall x y, f x = Ok y -> f y = Ok y) ->
  forall l l', mapM f l = Ok l' -> mapM f l' = Ok l'.
Proof.
  intros Hf. induction l as [| x t IH]; intros l' Hl; cbn [mapM] in Hl.
  - injection Hl as <-. reflexivity.
  - destruct (f x) as [y | e] eqn:Hx; cbn [bind] in Hl; [| discriminate].
    destruct (mapM f t) as [ys | e] eqn:Ht; cbn [bind] in Hl; [| discriminate].
    injection Hl as <-. cbn [mapM].
    rewrite (Hf x y Hx). cbn [bind]. rewrite (IH ys eq_refl). reflexivity.
Qed.

Lemma mapM_opt_idem {A} (f : A -> result A) :
  (forall x y, f x = Ok y -> f y = Ok y) ->
  forall o o', mapM_opt f o = Ok o' -> mapM_opt f o' = Ok o'.
Proof.
  intros Hf [l |] o' Ho; cbn [mapM_opt] in Ho.
  - destruct (mapM f l) as [l' | e] eqn:Hl; cbn [bind] in Ho; [| discriminate].
    injection Ho as <-. cbn [mapM_opt].
    rewrite (mapM_idem f Hf l l' Hl). reflexivity.
  - injection Ho as <-. reflexivity.
Qed.

Lemma enrich_skill_idem (data : Data) (s s' : Skill) :
  enrich_skill data s = Ok s' -> enrich_skill data s' = Ok s'.
Proof.
  unfold enrich_skill. intros Hs.
  destruct (skill_id s) as [sid |] eqn:Hid.
  - destruct (sid =? 0) eqn:Hz.
    + injection Hs as <-. rewrite Hid, Hz. reflexivity.
    + destruct (get_skill_details data sid) as [[d |] | e] eqn:Hd;
        cbn [bind] in Hs; try discriminate;
        injection Hs as <-; cbn [skill_id skill_name_en level sk_rarity
          sk_skill_type sk_condition sk_effects sk_duration sk_summary];
        rewrite Hz, Hd; cbn [bind]; rewrite updated_idem; reflexivity.
  - injection Hs as <-. rewrite Hid. reflexivity.
Qed.

Lemma enrich_factor_info_idem (data : Data) (fi fi' : FactorInfo) :
  enrich_factor_info data fi = Ok fi' -> enrich_factor_info data fi' = Ok fi'.
Proof.
  unfold enrich_factor_info. intros Hfi.
  destruct (truthy_int (factor_id fi)) eqn:Ht.
  - destruct (get_spark_name data (default 0 (factor_id fi))) as [name | e]
      eqn:Hname; cbn [bind] in Hfi; [| discriminate].
    injection Hfi as <-. cbn [factor_id fi_spark_name_en fi_stars].
    rewrite Ht, Hname. cbn [bind]. rewrite updated_idem. reflexivity.
  - injection Hfi as <-. rewrite Ht. reflexivity.
Qed.

Lemma enrich_parent_spark_idem (data : Data) (fi fi' : FactorInfo) :
  enrich_parent_spark data fi = Ok fi' -> enrich_parent_spark data fi' = Ok fi'.
Proof.
  unfold enrich_parent_spark. intros Hfi.
  destruct (truthy_int (factor_id fi)) eqn:Ht.
  - destruct (get_spark_name data (default 0 (factor_id fi))) as [name | e]
      eqn:Hname; cbn [bind] in Hfi; [| discriminate].
    destruct (star_level (default 0 (factor_id fi))) as [star | e] eqn:Hstar;
      cbn [bind] in Hfi; [| discriminate].
    injection Hfi as <-. cbn [factor_id fi_spark_name_en fi_stars].
    rewrite Ht, Hname. cbn [bind]. rewrite Hstar. cbn [bind].
    rewrite !updated_idem. reflexivity.
  - injection Hfi as <-. rewrite Ht. reflexivity.
Qed.

Lemma enrich_support_idem (data : Data) (s : Support) :
  enrich_support data (enrich_support data s) = enrich_support data s.
Proof.
  unfold enrich_support.
  destruct (truthy_int (support_card_id s)) eqn:Ht.
  - cbn [support_card_id support_card_name_en support_card_title_en
         support_card_chara_en support_card_type].
    rewrite Ht, !updated_idem. reflexivity.
  - rewrite Ht. reflexivity.
Qed.

Lemma enrich_parent_idem (data : Data) (p p' : Parent) :
  enrich_parent data p = Ok p' -> enrich_parent data p' = Ok p'.
Proof.
  unfold enrich_parent. intros Hp.
  destruct (truthy_int (p_card_id p)) eqn:Ht.
  - destruct (get_chara_info data (default 0 (p_card_id p))) as [info | e]
      eqn:Hinfo; cbn [bind] in Hp; [| discriminate].
    destruct (mapM_opt (enrich_parent_spark data) (p_factor_info_array p))
      as [sparks | e] eqn:Hsparks; cbn [bind] in Hp; [| discriminate].
    injection Hp as <-.
    cbn [p_card_id p_factor_info_array p_chara_name_en p_costume_name_en
         p_card_name_en].
    rewrite Ht, Hinfo. cbn [bind].
    rewrite (mapM_opt_idem _ (enrich_parent_spark_idem data) _ _ Hsparks).
    cbn [bind]. rewrite !updated_idem. reflexivity.
  - injection Hp as <-. rewrite Ht. reflexivity.
Qed.

Lemma map_enrich_support_idem (data : Data) (o : option (list Support)) :
  option_map (map (enrich_support data)) (option_map (map (enrich_support data)) o)
  = option_map (map (enrich_support data)) o.
Proof.
  destruct o as [l |]; [| reflexivity]. cbn [option_map]. f_equal.
  rewrite map_map. apply map_ext. intros s. apply enrich_support_idem.
Qed.

Lemma enrich_character_stable (char char' : Character) (data : Data) :
  enrich_character char data = Ok char' ->
  enrich_character char' data = Ok char'.
Proof.
  unfold enrich_character. intros Hc.
  destruct (if truthy_int (card_id char)
            then get_chara_info data (default 0 (card_id char))
            else Ok no_info) as [info | e] eqn:Hinfo;
    cbn [bind] in Hc; [| discriminate].
  destruct (mapM_opt (enrich_skill data) (skill_array char))
    as [skills | e] eqn:Hskills; cbn [bind] in Hc; [| discriminate].
  destruct (mapM (enrich_spark data) (default [] (factor_id_array char)))
    as [sparks | e] eqn:Hsparks; cbn [bind] in Hc; [| discriminate].
  destruct (mapM_opt (enrich_factor_info data) (factor_info_array char))
    as [infos | e] eqn:Hinfos; cbn [bind] in Hc; [| discriminate].
  destruct (mapM_opt (enrich_parent data) (succession_chara_array char))
    as [parents | e] eqn:Hparents; cbn [bind] in Hc; [| discriminate].
  injection Hc as <-.
  cbn [card_id race_cloth_id skill_array factor_id_array factor_info_array
       win_saddle_id_array nickname_id_array support_card_list
       succession_chara_array chara_name_en costume_name_en card_name_en
       race_cloth_name_en spark_array_enriched win_saddle_array_enriched
       nickname_array_enriched].
  rewrite Hinfo. cbn [bind].
  rewrite (mapM_opt_idem _ (enrich_skill_idem data) _ _ Hskills). cbn [bind].
  rewrite Hsparks. cbn [bind].
  rewrite (mapM_opt_idem _ (enrich_factor_info_idem data) _ _ Hinfos).
  cbn [bind].
  rewrite (mapM_opt_idem _ (enrich_parent_idem data) _ _ Hparents).
  cbn [bind].
  rewrite map_enrich_support_idem, !updated_idem, !set_if_nonempty_idem.
  reflexivity.
Qed.

(** C2.  Whenever enriching a character record against a snapshot returns
    a record, enriching that record again against the same snapshot
    returns it unchanged: no field is added, duplicated or altered by the
    second run, and two runs in a row give what one run gives. *)
Theorem enrich_character_idempotent (char char' : Character) (data : Data) :
  enrich_character char data = Ok char' ->
  enrich_character char' data = Ok char' /\
  (once <- enrich_character char data ;; enrich_character once data) =
    enrich_character char data.
Proof.
  intros Hrun. pose proof (enrich_character_stable char char' data Hrun) as Hs.
  split; [exact Hs |].
  rewrite Hrun. cbn [bind]. exact Hs.
Qed.

Lemma enrich_character_idempotent_witness :
  exists char',
    enrich_character Samples.raw_character Samples.skill_defs = Ok char' /\
    enrich_character char' Samples.skill_defs = Ok char' /\
    (once <- enrich_character Samples.raw_character Samples.skill_defs ;;
     enrich_character once Samples.skill_defs) =
      enrich_character Samples.raw_character Samples.skill_defs.
Proof.
  eexists. split.
  - vm_compute. reflexivity.
  - apply (enrich_character_idempotent Samples.raw_character).
    vm_compute. reflexivity.
Defined.

(** *** Decimal strings: printing and reading back *)

Lemma app_cons (x : ascii) (a b : string) :
  String x a +:+ b = String x (a +:+ b).
Proof. reflexivity. Qed.

Lemma app_assoc_str (a b c : string) : (a +:+ b) +:+ c = a +:+ (b +:+ c).
Proof.
  induction a as [| x a IH]; [reflexivity |].
  rewrite !app_cons. f_equal. exact IH.
Qed.

Lemma len_app (a b : string) : len (a +:+ b) = (len a + len b)%nat.
Proof.
  induction a as [| x a IH]; [reflexivity |].
  rewrite app_cons. unfold len in *. cbn [String.length].
  rewrite IH. reflexivity.
Qed.

Lemma digits_only_app (a b : string) :
  digits_only (a +:+ b) = digits_only a && digits_only b.
Proof.
  induction a as [| x a IH]; [reflexivity |].
  rewrite app_cons. cbn [digits_only].
  destruct (digit_val x); [exact IH | reflexivity].
Qed.

Lemma dec_value_app (a b : string) (acc : Z) :
  dec_value acc (a +:+ b) = dec_value (dec_value acc a) b.
Proof.
  revert acc. induction a as [| x a IH]; intros acc; [reflexivity |].
  rewrite app_cons. cbn [dec_value]. apply IH.
Qed.

Lemma skipn_str_app (a b : string) : skipn_str (len a) (a +:+ b) = b.
Proof.
  induction a as [| x a IH]; [destruct b; reflexivity |].
  rewrite app_cons. exact IH.
Qed.

(** The digits that [pretty_N_go] puts in front of its accumulator. *)
Lemma pretty_N_go_prefix (x : N) (s : string) :
  exists pre,
    pretty_N_go x s = pre +:+ s /\
    digits_only pre = true /\
    (forall acc,
       dec_value acc pre = acc * 10 ^ Z.of_nat (len pre) + Z.of_N x) /\
    Z.of_N x < 10 ^ Z.of_nat (len pre) /\
    ((0 < x)%N -> 10 ^ (Z.of_nat (len pre) - 1) <= Z.of_N x) /\
    (x = 0%N -> pre = "").
Proof.
  revert s. induction (N.lt_wf_0 x) as [x _ IH]. intros s.
  destruct (N.eq_dec x 0%N) as [-> | Hx].
  - exists "". rewrite pretty_N_go_0. cbn.
    repeat split; lia.
  - rewrite pretty_N_go_step by lia.
    destruct (IH (x / 10)%N ltac:(apply N.div_lt; lia)
                 (String (pretty_N_char (x mod 10)%N) s))
      as (pre & Hgo & Hdig & Hval & Hhi & Hlo & Hnil).
    set (c := pretty_N_char (x mod 10)%N) in *.
    assert (Hc : digit_val c = Some (Z.of_N (x mod 10)%N)).
    { apply digit_val_char. apply N.mod_lt. discriminate. }
    exists (pre +:+ String c "").
    rewrite Hgo, app_assoc_str. split; [reflexivity |].
    rewrite digits_only_app, Hdig, len_app. cbn [digits_only andb len String.length].
    rewrite Hc. split; [reflexivity |].
    replace (Z.of_nat (len pre + 1)) with (Z.of_nat (len pre) + 1) by lia.
    rewrite Z.pow_add_r by lia. change (10 ^ 1) with 10.
    assert (Hdm : Z.of_N x = 10 * Z.of_N (x / 10)%N + Z.of_N (x mod 10)%N).
    { rewrite N2Z.inj_div, N2Z.inj_mod. change (Z.of_N 10) with 10.
      apply Z.div_mod. lia. }
    assert (Hm : 0 <= Z.of_N (x mod 10)%N < 10).
    { rewrite N2Z.inj_mod. change (Z.of_N 10) with 10.
      apply Z.mod_pos_bound. lia. }
    split; [| split; [| split]].
    + intros acc. rewrite dec_value_app, Hval. cbn [dec_value].
      rewrite Hc. cbn [default from_option id]. lia.
    + lia.
    + intros _. destruct (N.eq_dec (x / 10)%N 0%N) as [Hz | Hnz].
      * rewrite (Hnil Hz). cbn. lia.
      * specialize (Hlo ltac:(lia)).
        replace (Z.of_nat (len pre) + 1 - 1) with (Z.of_nat (len pre) - 1 + 1) by lia.
        assert (0 < Z.of_nat (len pre)).
        { destruct pre; [| cbn; lia]. cbn in Hhi. lia. }
        rewrite Z.pow_add_r by lia. change (10 ^ 1) with 10. lia.
    + intros ->. congruence.
Qed.

(** [str] of a number that is not negative: a non-empty string of digits
    with the number as its value. *)
Lemma str_nonneg (n : Z) :
  0 <= n ->
  digits_only (str n) = true /\ str n <> "" /\
  dec_value 0 (str n) = n /\
  n < 10 ^ Z.of_nat (len (str n)) /\
  (0 < n -> 10 ^ (Z.of_nat (len (str n)) - 1) <= n).
Proof.
  intros Hn. destruct n as [| p | p]; [| | lia].
  - cbn. repeat split; try lia. discriminate.
  - unfold str, pretty, pretty_Z, pretty, pretty_positive, pretty, pretty_N.
    destruct (decide (N.pos p = 0%N)) as [Heq | _]; [discriminate |].
    destruct (pretty_N_go_prefix (N.pos p) "")
      as (pre & Hgo & Hdig & Hval & Hhi & Hlo & _).
    assert (Happ : pre +:+ "" = pre).
    { clear. induction pre as [| x a IH]; [reflexivity |].
      rewrite app_cons. f_equal. exact IH. }
    rewrite Hgo, Happ.
    split; [exact Hdig |]. split.
    { intros ->. cbn in Hhi. lia. }
    split; [rewrite Hval; cbn; lia |].
    split; [exact Hhi |]. intros _. apply Hlo. lia.
Qed.

Lemma str_neg (p : positive) : str (Z.neg p) = "-" +:+ str (Z.pos p).
Proof. reflexivity. Qed.

(** [int(str(n)) == n]. *)
Lemma int_of_str_str (n : Z) : int_of_str (str n) = Ok n.
Proof.
  destruct (Z_le_dec 0 n) as [Hn | Hn].
  - destruct (str_nonneg n Hn) as (Hdig & Hne & Hval & _).
    rewrite int_of_str_digits by assumption. rewrite Hval. reflexivity.
  - destruct n as [| p | p]; try lia.
    rewrite str_neg.
    destruct (str_nonneg (Z.pos p) ltac:(lia)) as (Hdig & Hne & Hval & _).
    unfold int_of_str, strip.
    change (lstrip ("-" +:+ str (Z.pos p))) with ("-" +:+ str (Z.pos p)).
    assert (Hr : rstrip ("-" +:+ str (Z.pos p)) = "-" +:+ str (Z.pos p)).
    { change ("-" +:+ str (Z.pos p)) with (String "-"%char (str (Z.pos p))).
      cbn [rstrip]. rewrite (rstrip_digits _ Hdig).
      destruct (str (Z.pos p)); [congruence | reflexivity]. }
    rewrite Hr.
    change ("-" +:+ str (Z.pos p)) with (String "-"%char (str (Z.pos p))).
    cbv iota beta.
    rewrite (int_body_digits _ 0 false Hdig Hne), Hval. reflexivity.
Qed.

(** *** Star level of a trait id *)

Lemma last_chars_short (s : string) : (len s <= 2)%nat -> last_chars 2 s = s.
Proof.
  intros Hlen. unfold last_chars.
  replace (len s - 2)%nat with 0%nat by lia. destruct s; reflexivity.
Qed.

Lemma last_chars_app (a b : string) : last_chars (len b) (a +:+ b) = b.
Proof.
  unfold last_chars. rewrite len_app.
  replace (len a + len b - len b)%nat with (len a) by lia.
  apply skipn_str_app.
Qed.

(** The last two characters of [str n] for [n >= 10]. *)
Lemma str_last_two (n : Z) :
  10 <= n ->
  last_chars 2 (str n) =
  String (pretty_N_char (Z.to_N (n / 10 mod 10)))
         (String (pretty_N_char (Z.to_N (n mod 10))) "").
Proof.
  intros Hn. destruct n as [| p | p]; try lia.
  unfold str, pretty, pretty_Z, pretty, pretty_positive, pretty, pretty_N.
  destruct (decide (N.pos p = 0%N)) as [Heq | _]; [discriminate |].
  rewrite pretty_N_go_step by lia.
  rewrite pretty_N_go_step.
  2:{ apply N.div_str_pos. lia. }
  destruct (pretty_N_go_prefix (N.pos p / 10 / 10)%N
              (String (pretty_N_char ((N.pos p / 10) mod 10)%N)
                 (String (pretty_N_char (N.pos p mod 10)%N) "")))
    as (pre & -> & _).
  set (tail := String _ (String _ "")).
  change 2%nat with (len tail).
  rewrite last_chars_app. unfold tail.
  f_equal; [| f_equal]; f_equal.
  - rewrite <- (N2Z.id (N.pos p / 10 mod 10)). f_equal.
    rewrite N2Z.inj_mod, N2Z.inj_div. reflexivity.
  - rewrite <- (N2Z.id (N.pos p mod 10)). f_equal.
    rewrite N2Z.inj_mod. reflexivity.
Qed.

Lemma int_of_two_digits (a b : Z) :
  0 <= a < 10 -> 0 <= b < 10 ->
  int_of_str (String (pretty_N_char (Z.to_N a))
                (String (pretty_N_char (Z.to_N b)) "")) = Ok (10 * a + b).
Proof.
  intros Ha Hb.
  assert (Hda : digit_val (pretty_N_char (Z.to_N a)) = Some a).
  { rewrite digit_val_char by lia. rewrite Z2N.id by lia. reflexivity. }
  assert (Hdb : digit_val (pretty_N_char (Z.to_N b)) = Some b).
  { rewrite digit_val_char by lia. rewrite Z2N.id by lia. reflexivity. }
  rewrite int_of_str_digits.
  - cbn [dec_value]. rewrite Hda, Hdb. cbn [default from_option id].
    f_equal; lia.
  - cbn [digits_only]. rewrite Hda, Hdb. reflexivity.
  - discriminate.
Qed.

(** The star level [int(str(spark_id)[-2:])] by arithmetic. *)
Lemma star_level_arith (id : Z) :
  star_level id =
  Ok (if (-10 <? id) && (id <? 0) then id else Z.abs id mod 100).
Proof.
  unfold star_level.
  destruct (Z_le_dec 0 id) as [Hpos | Hneg].
  - assert (Hc : (-10 <? id) && (id <? 0) = false).
    { apply andb_false_iff. right. apply Z.ltb_ge. lia. }
    rewrite Hc, Z.abs_eq by lia.
    destruct (Z_lt_dec id 10) as [Hsmall | Hbig].
    + destruct (str_nonneg id Hpos) as (_ & _ & _ & _ & Hlo).
      rewrite last_chars_short.
      * rewrite int_of_str_str. f_equal. rewrite Z.mod_small by lia. reflexivity.
      * destruct (Z.eq_dec id 0) as [-> | Hnz]; [cbn; lia |].
        specialize (Hlo ltac:(lia)).
        destruct (len (str id)) as [| [| [| k]]] eqn:Hlen; try lia.
        exfalso.
        assert (10 ^ 2 <= 10 ^ (Z.of_nat (S (S (S k))) - 1))
          by (apply Z.pow_le_mono_r; lia).
        lia.
    + rewrite str_last_two by lia.
      rewrite int_of_two_digits.
      * f_equal. Z.div_mod_to_equations. lia.
      * apply Z.mod_pos_bound. lia.
      * apply Z.mod_pos_bound. lia.
  - destruct id as [| p | p]; try lia.
    rewrite str_neg.
    destruct (Z_lt_dec (Z.pos p) 10) as [Hsmall | Hbig].
    + assert (Hc : (-10 <? Z.neg p) && (Z.neg p <? 0) = true).
      { apply andb_true_intro. split; apply Z.ltb_lt; lia. }
      rewrite Hc. rewrite <- str_neg.
      destruct (str_nonneg (Z.pos p) ltac:(lia)) as (_ & _ & _ & _ & Hlo).
      rewrite last_chars_short; [apply int_of_str_str |].
      rewrite str_neg.
      change ("-" +:+ str (Z.pos p)) with (String "-"%char (str (Z.pos p))).
      specialize (Hlo ltac:(lia)).
      unfold len in *. cbn [String.length].
      destruct (String.length (str (Z.pos p))) as [| [| k]] eqn:Hlen; try lia.
      exfalso.
      assert (10 ^ 1 <= 10 ^ (Z.of_nat (S (S k)) - 1))
        by (apply Z.pow_le_mono_r; lia).
      lia.
    + assert (Hc : (-10 <? Z.neg p) && (Z.neg p <? 0) = false).
      { apply andb_false_iff. left. apply Z.ltb_ge. lia. }
      rewrite Hc.
      change ("-" +:+ str (Z.pos p)) with (String "-"%char (str (Z.pos p))).
      assert (Hlast : last_chars 2 (String "-"%char (str (Z.pos p))) =
                      last_chars 2 (str (Z.pos p))).
      { destruct (str_nonneg (Z.pos p) ltac:(lia)) as (_ & _ & _ & Hhi & _).
        unfold last_chars, len in *. cbn [String.length].
        destruct (String.length (str (Z.pos p))) as [| [| k]] eqn:Hlen.
        - cbn in Hhi. lia.
        - cbn in Hhi. lia.
        - replace (S (S (S k)) - 2)%nat with (S k) by lia.
          replace (S (S k) - 2)%nat with k by lia. reflexivity. }
      rewrite Hlast, str_last_two by lia.
      rewrite int_of_two_digits.
      * f_equal. change (Z.abs (Z.neg p)) with (Z.pos p).
        Z.div_mod_to_equations. lia.
      * apply Z.mod_pos_bound. lia.
      * apply Z.mod_pos_bound. lia.
Qed.

(** X1.  The star level read off a trait id, [int(str(spark_id)[-2:])],
    never fails: it is the id itself for an id from -9 to -1 and the last
    two decimal digits of the absolute value otherwise; so for an id that
    is not negative it is the remainder of the id by 100. *)
Theorem star_level_value (spark_id : Z) :
  star_level spark_id =
    Ok (if (-10 <? spark_id) && (spark_id <? 0) then spark_id
        else Z.abs spark_id mod 100) /\
  (0 <= spark_id -> star_level spark_id = Ok (spark_id mod 100)).
Proof.
  split; [apply star_level_arith |].
  intros Hpos. rewrite star_level_arith.
  assert (Hc : (-10 <? spark_id) && (spark_id <? 0) = false).
  { apply andb_false_iff. right. apply Z.ltb_ge. exact Hpos. }
  rewrite Hc, Z.abs_eq by exact Hpos. reflexivity.
Qed.

(** *** Failures of the orchestrator *)

(** mapM *)

Lemma mapM_raise {A B} (f : A -> result B) (l : list A) (e : exn) :
  mapM f l = Raise e -> exists x, In x l /\ f x = Raise e.
Proof.
  induction l as [| x t IH]; cbn [mapM]; [discriminate |].
  destruct (f x) as [y | e'] eqn:Hx; cbn [bind].
  - destruct (mapM f t) as [ys | e'] eqn:Ht; cbn [bind]; [discriminate |].
    intros [= ->]. destruct (IH eq_refl) as (x' & Hin & Hx').
    exists x'. split; [right; assumption | assumption].
  - intros [= ->]. exists x. split; [left; reflexivity | assumption].
Qed.

Lemma mapM_opt_raise {A B} (f : A -> result B) (o : option (list A)) (e : exn) :
  mapM_opt f o = Raise e ->
  exists l x, o = Some l /\ In x l /\ f x = Raise e.
Proof.
  destruct o as [l |]; cbn [mapM_opt]; [| discriminate].
  destruct (mapM f l) as [l' | e'] eqn:Hl; cbn [bind]; [discriminate |].
  intros [= ->]. destruct (mapM_raise f l e Hl) as (x & Hin & Hx). eauto.
Qed.

Lemma mapM_ok {A B} (f : A -> result B) (l : list A) :
  (forall x, In x l -> exists y, f x = Ok y) -> exists l', mapM f l = Ok l'.
Proof.
  intros Hf. destruct (mapM f l) as [l' | e] eqn:Hl; [eauto |].
  destruct (mapM_raise f l e Hl) as (x & Hin & Hx).
  destruct (Hf x Hin) as [y Hy]. congruence.
Qed.

Lemma mapM_Forall2 {A B} (f : A -> result B) (l : list A) (l' : list B) :
  mapM f l = Ok l' -> Forall2 (fun x y => f x = Ok y) l l'.
Proof.
  revert l'. induction l as [| x t IH]; intros l'; cbn [mapM].
  - intros [= <-]. constructor.
  - destruct (f x) as [y | e] eqn:Hx; cbn [bind]; [| discriminate].
    destruct (mapM f t) as [ys | e] eqn:Ht; cbn [bind]; [| discriminate].
    intros [= <-]. constructor; [assumption | apply IH; reflexivity].
Qed.

Lemma mapM_proj {A B C} (f : A -> result B) (g : A -> C) (h : B -> C)
    (l : list A) (l' : list B) :
  (forall x y, f x = Ok y -> h y = g x) ->
  mapM f l = Ok l' -> map h l' = map g l.
Proof.
  intros Hf Hl. apply mapM_Forall2 in Hl.
  induction Hl as [| x y t t' Hxy _ IH]; [reflexivity |].
  cbn [map]. rewrite (Hf x y Hxy), IH. reflexivity.
Qed.

Lemma mapM_opt_proj {A B C} (f : A -> result B) (g : A -> C) (h : B -> C)
    (o : option (list A)) (o' : option (list B)) :
  (forall x y, f x = Ok y -> h y = g x) ->
  mapM_opt f o = Ok o' -> option_map (map h) o' = option_map (map g) o.
Proof.
  intros Hf. destruct o as [l |]; cbn [mapM_opt].
  - destruct (mapM f l) as [l' | e] eqn:Hl; cbn [bind]; [| discriminate].
    intros [= <-]. cbn [option_map]. f_equal. exact (mapM_proj f g h l l' Hf Hl).
  - intros [= <-]. reflexivity.
Qed.

(** enrich_spark and the factor-info loops never raise *)

Lemma enrich_spark_value (data : Data) (id : Z) :
  exists name,
    get_spark_name data id = Ok name /\
    enrich_spark data id =
    Ok {| spark_id := id; spark_name_en := name;
          stars := accepted_stars
                     (if (-10 <? id) && (id <? 0) then id
                      else Z.abs id mod 100) |}.
Proof.
  destruct (get_spark_name_total data id) as [name Hname].
  exists name. split; [exact Hname |].
  unfold enrich_spark. rewrite Hname, star_level_arith. reflexivity.
Qed.

Lemma enrich_factor_info_ok (data : Data) (fi : FactorInfo) :
  exists fi', enrich_factor_info data fi = Ok fi'.
Proof.
  unfold enrich_factor_info.
  destruct (truthy_int (factor_id fi)); [| eauto].
  destruct (get_spark_name_total data (default 0 (factor_id fi))) as [n ->].
  cbn [bind]. eauto.
Qed.

Lemma enrich_parent_spark_ok (data : Data) (fi : FactorInfo) :
  exists fi', enrich_parent_spark data fi = Ok fi'.
Proof.
  unfold enrich_parent_spark.
  destruct (truthy_int (factor_id fi)); [| eauto].
  destruct (get_spark_name_total data (default 0 (factor_id fi))) as [n ->].
  cbn [bind]. rewrite star_level_arith. cbn [bind]. eauto.
Qed.

Lemma truthy_int_some (o : option Z) :
  truthy_int o = true -> exists z, o = Some z /\ z <> 0.
Proof.
  destruct o as [z |]; cbn [truthy_int]; [| discriminate].
  intros Hz. exists z. split; [reflexivity |].
  intros ->. discriminate.
Qed.

(** A failure of the orchestrator is a failure of one of three calls. *)
Lemma enrich_character_raise_origin (char : Character) (data : Data) (e : exn) :
  enrich_character char data = Raise e ->
  (exists cid, card_id char = Some cid /\ cid <> 0 /\
               get_chara_info data cid = Raise e) \/
  (exists skills skill sid,
     skill_array char = Some skills /\ In skill skills /\
     skill_id skill = Some sid /\ sid <> 0 /\
     get_skill_details data sid = Raise e) \/
  (exists parents parent cid,
     succession_chara_array char = Some parents /\ In parent parents /\
     p_card_id parent = Some cid /\ cid <> 0 /\
     get_chara_info data cid = Raise e).
Proof.
  unfold enrich_character. intros Hrun.
  destruct (if truthy_int (card_id char)
            then get_chara_info data (default 0 (card_id char))
            else Ok no_info) as [info | e'] eqn:Hinfo; cbn [bind] in Hrun.
  2:{ injection Hrun as ->. left.
      destruct (truthy_int (card_id char)) eqn:Hcard; [| discriminate].
      destruct (truthy_int_some _ Hcard) as (cid & Hid & Hnz).
      rewrite Hid in Hinfo. exists cid. auto. }
  destruct (mapM_opt (enrich_skill data) (skill_array char))
    as [skills | e'] eqn:Hskills; cbn [bind] in Hrun.
  2:{ injection Hrun as ->. right. left.
      destruct (mapM_opt_raise _ _ _ Hskills) as (l & s & Hl & Hin & Hs).
      unfold enrich_skill in Hs.
      destruct (skill_id s) as [sid |] eqn:Hsid; [| discriminate].
      destruct (sid =? 0) eqn:Hz; [discriminate |].
      destruct (get_skill_details data sid) as [d | e'] eqn:Hd;
        cbn [bind] in Hs; [destruct d; discriminate |].
      injection Hs as ->. apply Z.eqb_neq in Hz.
      exists l, s, sid. auto. }
  destruct (mapM_ok (enrich_spark data) (default [] (factor_id_array char)))
    as [sparks Hsparks].
  { intros x _. destruct (enrich_spark_value data x) as (n & _ & ->). eauto. }
  rewrite Hsparks in Hrun. cbn [bind] in Hrun.
  destruct (mapM_opt (enrich_factor_info data) (factor_info_array char))
    as [infos | e'] eqn:Hinfos; cbn [bind] in Hrun.
  2:{ destruct (mapM_opt_raise _ _ _ Hinfos) as (l & x & _ & _ & Hx).
      destruct (enrich_factor_info_ok data x) as [y Hy]. congruence. }
  destruct (mapM_opt (enrich_parent data) (succession_chara_array char))
    as [parents | e'] eqn:Hparents; cbn [bind] in Hrun; [discriminate |].
  injection Hrun as ->. right. right.
  destruct (mapM_opt_raise _ _ _ Hparents) as (l & p & Hl & Hin & Hp).
  unfold enrich_parent in Hp.
  destruct (truthy_int (p_card_id p)) eqn:Hpc; [| discriminate].
  destruct (truthy_int_some _ Hpc) as (pid & Hpid & Hpnz).
  rewrite Hpid in Hp.
  change (default 0 (Some pid)) with pid in Hp.
  destruct (get_chara_info data pid) as [pinfo | e'] eqn:Hpinfo;
    cbn [bind] in Hp.
  - destruct (mapM_opt (enrich_parent_spark data) (p_factor_info_array p))
      as [ps | e'] eqn:Hps; cbn [bind] in Hp; [discriminate |].
    destruct (mapM_opt_raise _ _ _ Hps) as (l2 & x & _ & _ & Hx).
    destruct (enrich_parent_spark_ok data x) as [y Hy]. congruence.
  - injection Hp as ->. exists l, p, pid. auto.
Qed.

(** X2.  When the orchestrator raises, the exception is the one raised by
    the character lookup of the record's own card id, by the detail lookup
    of one of its skills, or by the character lookup of a parent's card id
    (each id present and not zero); trait, win, nickname and support-card
    enrichment never raise. *)
Theorem enrich_character_raise (char : Character) (data : Data) (e : exn) :
  enrich_character char data = Raise e ->
  (exists cid, card_id char = Some cid /\ cid <> 0 /\
               get_chara_info data cid = Raise e) \/
  (exists skills skill sid,
     skill_array char = Some skills /\ In skill skills /\
     skill_id skill = Some sid /\ sid <> 0 /\
     get_skill_details data sid = Raise e) \/
  (exists parents parent cid,
     succession_chara_array char = Some parents /\ In parent parents /\
     p_card_id parent = Some cid /\ cid <> 0 /\
     get_chara_info data cid = Raise e).
Proof. exact (enrich_character_raise_origin char data e). Qed.

Lemma enrich_character_raise_witness :
  (exists cid, card_id (Fixtures.card_only 100101) = Some cid /\ cid <> 0 /\
               get_chara_info Fixtures.nameless cid = Raise IndexError) \/
  (exists skills skill sid,
     skill_array (Fixtures.card_only 100101) = Some skills /\
     In skill skills /\
     skill_id skill = Some sid /\ sid <> 0 /\
     get_skill_details Fixtures.nameless sid = Raise IndexError) \/
  (exists parents parent cid,
     succession_chara_array (Fixtures.card_only 100101) = Some parents /\
     In parent parents /\
     p_card_id parent = Some cid /\ cid <> 0 /\
     get_chara_info Fixtures.nameless cid = Raise IndexError).
Proof.
  apply (enrich_character_raise (Fixtures.card_only 100101) Fixtures.nameless
           IndexError).
  vm_compute. reflexivity.
Defined.

(** *** What the orchestrator keeps and what it builds *)

Lemma enrich_skill_keeps (data : Data) (s s' : Skill) :
  enrich_skill data s = Ok s' ->
  (skill_id s', level s') = (skill_id s, level s).
Proof.
  unfold enrich_skill. intros Hs.
  destruct (skill_id s) as [sid |] eqn:Hid.
  - destruct (sid =? 0); [injection Hs as <-; rewrite Hid; reflexivity |].
    destruct (get_skill_details data sid) as [[d |] | e]; cbn [bind] in Hs;
      try discriminate; injection Hs as <-; reflexivity.
  - injection Hs as <-. rewrite Hid. reflexivity.
Qed.

Lemma enrich_factor_info_keeps (data : Data) (fi fi' : FactorInfo) :
  enrich_factor_info data fi = Ok fi' -> factor_id fi' = factor_id fi.
Proof.
  unfold enrich_factor_info. intros Hfi.
  destruct (truthy_int (factor_id fi)); [| injection Hfi as <-; reflexivity].
  destruct (get_spark_name data (default 0 (factor_id fi))); cbn [bind] in Hfi;
    [| discriminate].
  injection Hfi as <-. reflexivity.
Qed.

Lemma enrich_parent_spark_keeps (data : Data) (fi fi' : FactorInfo) :
  enrich_parent_spark data fi = Ok fi' -> factor_id fi' = factor_id fi.
Proof.
  unfold enrich_parent_spark. intros Hfi.
  destruct (truthy_int (factor_id fi)); [| injection Hfi as <-; reflexivity].
  destruct (get_spark_name data (default 0 (factor_id fi))); cbn [bind] in Hfi;
    [| discriminate].
  destruct (star_level (default 0 (factor_id fi))); cbn [bind] in Hfi;
    [| discriminate].
  injection Hfi as <-. reflexivity.
Qed.

Lemma enrich_parent_keeps (data : Data) (p p' : Parent) :
  enrich_parent data p = Ok p' -> parent_ids p' = parent_ids p.
Proof.
  unfold enrich_parent, parent_ids. intros Hp.
  destruct (truthy_int (p_card_id p)); [| injection Hp as <-; reflexivity].
  destruct (get_chara_info data (default 0 (p_card_id p))); cbn [bind] in Hp;
    [| discriminate].
  destruct (mapM_opt (enrich_parent_spark data) (p_factor_info_array p))
    as [sparks | e] eqn:Hsparks; cbn [bind] in Hp; [| discriminate].
  injection Hp as <-. cbn [p_card_id p_factor_info_array]. f_equal.
  exact (mapM_opt_proj _ factor_id factor_id _ _
           (enrich_parent_spark_keeps data) Hsparks).
Qed.

Lemma enrich_support_keeps (data : Data) (s : Support) :
  support_card_id (enrich_support data s) = support_card_id s.
Proof.
  unfold enrich_support. destruct (truthy_int (support_card_id s)); reflexivity.
Qed.

(** X3.  A run that returns keeps what the record came with: the card id,
    the outfit id, the three id lists, and, position by position, the id
    and level of every skill, the trait id of every factor entry, the id
    of every support card and the card id and trait ids of every parent. *)
Theorem enrich_character_keeps_input
    (char char' : Character) (data : Data) :
  enrich_character char data = Ok char' ->
  card_id char' = card_id char /\
  race_cloth_id char' = race_cloth_id char /\
  factor_id_array char' = factor_id_array char /\
  win_saddle_id_array char' = win_saddle_id_array char /\
  nickname_id_array char' = nickname_id_array char /\
  option_map (map (fun s => (skill_id s, level s))) (skill_array char') =
    option_map (map (fun s => (skill_id s, level s))) (skill_array char) /\
  option_map (map factor_id) (factor_info_array char') =
    option_map (map factor_id) (factor_info_array char) /\
  option_map (map support_card_id) (support_card_list char') =
    option_map (map support_card_id) (support_card_list char) /\
  option_map (map parent_ids) (succession_chara_array char') =
    option_map (map parent_ids) (succession_chara_array char).
Proof.
  unfold enrich_character. intros Hrun.
  destruct (if truthy_int (card_id char)
            then get_chara_info data (default 0 (card_id char))
            else Ok no_info) as [info | e]; cbn [bind] in Hrun; [| discriminate].
  destruct (mapM_opt (enrich_skill data) (skill_array char))
    as [skills | e] eqn:Hskills; cbn [bind] in Hrun; [| discriminate].
  destruct (mapM (enrich_spark data) (default [] (factor_id_array char)))
    as [sparks | e]; cbn [bind] in Hrun; [| discriminate].
  destruct (mapM_opt (enrich_factor_info data) (factor_info_array char))
    as [infos | e] eqn:Hinfos; cbn [bind] in Hrun; [| discriminate].
  destruct (mapM_opt (enrich_parent data) (succession_chara_array char))
    as [parents | e] eqn:Hparents; cbn [bind] in Hrun; [| discriminate].
  injection Hrun as <-.
  cbn [card_id race_cloth_id skill_array factor_id_array factor_info_array
       win_saddle_id_array nickname_id_array support_card_list
       succession_chara_array].
  repeat (split; [reflexivity |]).
  split; [| split; [| split]].
  - apply (mapM_opt_proj (enrich_skill data)
             (fun s => (skill_id s, level s)) (fun s => (skill_id s, level s)));
      [apply enrich_skill_keeps | exact Hskills].
  - exact (mapM_opt_proj _ factor_id factor_id _ _
             (enrich_factor_info_keeps data) Hinfos).
  - destruct (support_card_list char) as [l |]; [| reflexivity].
    cbn [option_map]. f_equal. rewrite map_map. apply map_ext.
    apply enrich_support_keeps.
  - exact (mapM_opt_proj _ parent_ids parent_ids _ _
             (enrich_parent_keeps data) Hparents).
Qed.

Lemma enrich_character_keeps_input_witness :
  exists char',
    enrich_character Samples.raw_character Samples.skill_defs = Ok char' /\
    card_id char' = card_id Samples.raw_character /\
    race_cloth_id char' = race_cloth_id Samples.raw_character /\
    factor_id_array char' = factor_id_array Samples.raw_character /\
    win_saddle_id_array char' = win_saddle_id_array Samples.raw_character /\
    nickname_id_array char' = nickname_id_array Samples.raw_character /\
    option_map (map (fun s => (skill_id s, level s))) (skill_array char') =
      option_map (map (fun s => (skill_id s, level s)))
                 (skill_array Samples.raw_character) /\
    option_map (map factor_id) (factor_info_array char') =
      option_map (map factor_id) (factor_info_array Samples.raw_character) /\
    option_map (map support_card_id) (support_card_list char') =
      option_map (map support_card_id)
                 (support_card_list Samples.raw_character) /\
    option_map (map parent_ids) (succession_chara_array char') =
      option_map (map parent_ids)
                 (succession_chara_array Samples.raw_character).
Proof.
  eexists. split.
  - vm_compute. reflexivity.
  - apply (enrich_character_keeps_input Samples.raw_character _
             Samples.skill_defs).
    vm_compute. reflexivity.
Defined.

Lemma mapM_enrich_spark_ids (data : Data) (ids : list Z) (l : list SparkEntry) :
  mapM (enrich_spark data) ids = Ok l ->
  map spark_id l = ids /\
  Forall (fun entry =>
            get_spark_name data (spark_id entry) = Ok (spark_name_en entry) /\
            forall k, stars entry = Some k ->
                      1 <= k <= 3 /\
                      (0 <= spark_id entry -> k = spark_id entry mod 100)) l.
Proof.
  intros Hl. apply mapM_Forall2 in Hl.
  induction Hl as [| x y t t' Hxy _ [IH1 IH2]]; [split; constructor |].
  destruct (enrich_spark_value data x) as (n & Hn & Hv).
  rewrite Hv in Hxy. injection Hxy as <-.
  cbn [map spark_id]. split; [f_equal; exact IH1 |].
  constructor; [| exact IH2].
  cbn [spark_id spark_name_en stars]. split; [exact Hn |].
  intros k. unfold accepted_stars.
  destruct ((1 <=? (if (-10 <? x) && (x <? 0) then x else Z.abs x mod 100)) &&
            ((if (-10 <? x) && (x <? 0) then x else Z.abs x mod 100) <=? 3))
    eqn:Hacc; [| discriminate].
  intros [= <-]. apply andb_prop in Hacc as [H1 H3].
  apply Z.leb_le in H1. apply Z.leb_le in H3.
  split; [lia |]. intros Hx.
  assert (Hc : (-10 <? x) && (x <? 0) = false).
  { apply andb_false_iff. right. apply Z.ltb_ge. lia. }
  rewrite Hc, Z.abs_eq by lia. reflexivity.
Qed.

(** The enriched trait list, read off the trait ids. *)
Lemma spark_array_enriched_of_ids
    (char char' : Character) (data : Data) :
  enrich_character char data = Ok char' ->
  match default [] (factor_id_array char) with
  | [] => spark_array_enriched char' = spark_array_enriched char
  | ids =>
      exists entries,
        spark_array_enriched char' = Some entries /\
        map spark_id entries = ids /\
        Forall (fun entry =>
                  get_spark_name data (spark_id entry) =
                    Ok (spark_name_en entry) /\
                  forall k, stars entry = Some k ->
                            1 <= k <= 3 /\
                            (0 <= spark_id entry ->
                             k = spark_id entry mod 100)) entries
  end.
Proof.
  unfold enrich_character. intros Hrun.
  destruct (if truthy_int (card_id char)
            then get_chara_info data (default 0 (card_id char))
            else Ok no_info) as [info | e]; cbn [bind] in Hrun; [| discriminate].
  destruct (mapM_opt (enrich_skill data) (skill_array char))
    as [skills | e]; cbn [bind] in Hrun; [| discriminate].
  destruct (mapM (enrich_spark data) (default [] (factor_id_array char)))
    as [sparks | e] eqn:Hsparks; cbn [bind] in Hrun; [| discriminate].
  destruct (mapM_opt (enrich_factor_info data) (factor_info_array char))
    as [infos | e]; cbn [bind] in Hrun; [| discriminate].
  destruct (mapM_opt (enrich_parent data) (succession_chara_array char))
    as [parents | e]; cbn [bind] in Hrun; [| discriminate].
  injection Hrun as <-. cbn [spark_array_enriched].
  destruct (mapM_enrich_spark_ids data _ _ Hsparks) as [Hids Hall].
  destruct (default [] (factor_id_array char)) as [| i ids] eqn:Hdef.
  - destruct sparks; [reflexivity | discriminate].
  - destruct sparks as [| s sparks]; [discriminate |].
    exists (s :: sparks). auto.
Qed.

(** The enriched win and nickname lists, read off the id lists. *)
Lemma win_and_nickname_arrays_of_ids
    (char char' : Character) (data : Data) :
  enrich_character char data = Ok char' ->
  win_saddle_array_enriched char' =
    match default [] (win_saddle_id_array char) with
    | [] => win_saddle_array_enriched char
    | ids =>
        Some (map (fun i => {| saddle_id := i;
                               race_name_en :=
                                 nonempty (racetitles data !! str i) |}) ids)
    end /\
  nickname_array_enriched char' =
    match default [] (nickname_id_array char) with
    | [] => nickname_array_enriched char
    | ids =>
        Some (map (fun i => {| nickname_id := i;
                               nickname_name_en :=
                                 nonempty (nicknames data !! str i) |}) ids)
    end.
Proof.
  unfold enrich_character. intros Hrun.
  destruct (if truthy_int (card_id char)
            then get_chara_info data (default 0 (card_id char))
            else Ok no_info) as [info | e]; cbn [bind] in Hrun; [| discriminate].
  destruct (mapM_opt (enrich_skill data) (skill_array char))
    as [skills | e]; cbn [bind] in Hrun; [| discriminate].
  destruct (mapM (enrich_spark data) (default [] (factor_id_array char)))
    as [sparks | e]; cbn [bind] in Hrun; [| discriminate].
  destruct (mapM_opt (enrich_factor_info data) (factor_info_array char))
    as [infos | e]; cbn [bind] in Hrun; [| discriminate].
  destruct (mapM_opt (enrich_parent data) (succession_chara_array char))
    as [parents | e]; cbn [bind] in Hrun; [| discriminate].
  injection Hrun as <-.
  cbn [win_saddle_array_enriched nickname_array_enriched].
  split.
  - destruct (default [] (win_saddle_id_array char)); reflexivity.
  - destruct (default [] (nickname_id_array char)); reflexivity.
Qed.

(** X4.  After a run that returns, each enriched list mirrors its id list:
    when the id list is missing or empty the enriched key is left as it
    was; otherwise it holds one entry per id, in order, with the id, the
    name the resolver gives for it (the race-title and nickname tables are
    read at the decimal string of the id, an empty name counting as none)
    and, for a trait, a star level only from 1 to 3, which for an id that
    is not negative is the remainder of the id by 100. *)
Theorem enriched_arrays_mirror_ids
    (char char' : Character) (data : Data) :
  enrich_character char data = Ok char' ->
  match default [] (factor_id_array char) with
  | [] => spark_array_enriched char' = spark_array_enriched char
  | ids =>
      exists entries,
        spark_array_enriched char' = Some entries /\
        map spark_id entries = ids /\
        Forall (fun entry =>
                  get_spark_name data (spark_id entry) =
                    Ok (spark_name_en entry) /\
                  forall k, stars entry = Some k ->
                            1 <= k <= 3 /\
                            (0 <= spark_id entry ->
                             k = spark_id entry mod 100)) entries
  end /\
  win_saddle_array_enriched char' =
    match default [] (win_saddle_id_array char) with
    | [] => win_saddle_array_enriched char
    | ids =>
        Some (map (fun i => {| saddle_id := i;
                               race_name_en :=
                                 nonempty (racetitles data !! str i) |}) ids)
    end /\
  nickname_array_enriched char' =
    match default [] (nickname_id_array char) with
    | [] => nickname_array_enriched char
    | ids =>
        Some (map (fun i => {| nickname_id := i;
                               nickname_name_en :=
                                 nonempty (nicknames data !! str i) |}) ids)
    end.
Proof.
  intros Hrun. split.
  - exact (spark_array_enriched_of_ids char char' data Hrun).
  - exact (win_and_nickname_arrays_of_ids char char' data Hrun).
Qed.

Lemma enriched_arrays_mirror_ids_witness :
  exists char',
    enrich_character Samples.raw_character Samples.skill_defs = Ok char' /\
    match default [] (factor_id_array Samples.raw_character) with
    | [] =>
        spark_array_enriched char' =
          spark_array_enriched Samples.raw_character
    | ids =>
        exists entries,
          spark_array_enriched char' = Some entries /\
          map spark_id entries = ids /\
          Forall (fun entry =>
                    get_spark_name Samples.skill_defs (spark_id entry) =
                      Ok (spark_name_en entry) /\
                    forall k, stars entry = Some k ->
                              1 <= k <= 3 /\
                              (0 <= spark_id entry ->
                               k = spark_id entry mod 100)) entries
    end /\
    win_saddle_array_enriched char' =
      match default [] (win_saddle_id_array Samples.raw_character) with
      | [] => win_saddle_array_enriched Samples.raw_character
      | ids =>
          Some (map (fun i =>
                       {| saddle_id := i;
                          race_name_en :=
                            nonempty (racetitles Samples.skill_defs
                                        !! str i) |}) ids)
      end /\
    nickname_array_enriched char' =
      match default [] (nickname_id_array Samples.raw_character) with
      | [] => nickname_array_enriched Samples.raw_character
      | ids =>
          Some (map (fun i =>
                       {| nickname_id := i;
                          nickname_name_en :=
                            nonempty (nicknames Samples.skill_defs
                                        !! str i) |}) ids)
      end.
Proof.
  eexists. split.
  - vm_compute. reflexivity.
  - apply (enriched_arrays_mirror_ids Samples.raw_character _
             Samples.skill_defs).
    vm_compute. reflexivity.
Defined.

(** *** Character lookup *)

Lemma pick_name_raise (uma : Uma) (e : exn) :
  pick_name uma = Raise e -> e = IndexError /\ u_name uma = Some [].
Proof.
  unfold pick_name. destruct (u_name uma) as [[| a [| b t]] |];
    cbn [default from_option id]; try discriminate.
  - intros [= <-]. auto.
  - destruct b; discriminate.
Qed.

Lemma pick_name_ok (uma : Uma) :
  u_name uma <> Some [] -> exists name, pick_name uma = Ok name.
Proof.
  intros Hne. destruct (pick_name uma) as [name | e] eqn:Hp; [eauto |].
  apply pick_name_raise in Hp as [_ Hnil]. congruence.
Qed.

(** X5.  The character lookup fails in one way only: with IndexError, when
    the entry it reads for the character (the primary table's, or the
    secondary table's when the primary table has none) holds an empty list
    of names. *)
Theorem get_chara_info_raise (data : Data) (cid : Z) (e : exn) :
  get_chara_info data cid = Raise e ->
  e = IndexError /\
  exists uma,
    u_name uma = Some [] /\
    (umas_global data !! str (cid / 100) = Some uma \/
     umas_global data !! str (cid / 100) = None /\
     umas_full data !! str (cid / 100) = Some uma).
Proof.
  unfold get_chara_info, chara_info_primary.
  destruct (umas_global data !! str (cid / 100)) as [uma |] eqn:Hg.
  - destruct (pick_name uma) as [name | e'] eqn:Hp; cbn [bind].
    + destruct (outfit_label uma (str cid)); cbn [bind ci_chara_name_en];
        discriminate.
    + intros [= ->]. apply pick_name_raise in Hp as [-> Hnil].
      split; [reflexivity |]. exists uma. auto.
  - cbn [bind ci_chara_name_en].
    destruct (umas_full data !! str (cid / 100)) as [uma |] eqn:Hf;
      [| discriminate].
    destruct (pick_name uma) as [name | e'] eqn:Hp; cbn [bind].
    + destruct (outfit_label uma (str cid)); discriminate.
    + intros [= ->]. apply pick_name_raise in Hp as [-> Hnil].
      split; [reflexivity |]. exists uma. auto.
Qed.

Lemma get_chara_info_raise_witness :
  IndexError = IndexError /\
  exists uma,
    u_name uma = Some [] /\
    (umas_global Fixtures.nameless !! str (100101 / 100) = Some uma \/
     umas_global Fixtures.nameless !! str (100101 / 100) = None /\
     umas_full Fixtures.nameless !! str (100101 / 100) = Some uma).
Proof.
  apply (get_chara_info_raise Fixtures.nameless 100101 IndexError).
  vm_compute. reflexivity.
Defined.

(** X6.  In a result of the character lookup the costume label and the card
    name come together: with a costume label there is a character name and
    the card name is the label, a space and that name; without one there is
    no card name.  The character name is missing exactly when neither
    character table has an entry for [card_id // 100]. *)
Theorem get_chara_info_shape (data : Data) (cid : Z) (info : CharaInfo) :
  get_chara_info data cid = Ok info ->
  match ci_costume_name_en info with
  | Some label =>
      exists name,
        ci_chara_name_en info = Some name /\
        ci_card_name_en info = Some (label +:+ " " +:+ name)
  | None => ci_card_name_en info = None
  end /\
  (ci_chara_name_en info = None <->
   umas_global data !! str (cid / 100) = None /\
   umas_full data !! str (cid / 100) = None).
Proof.
  unfold get_chara_info, chara_info_primary.
  destruct (umas_global data !! str (cid / 100)) as [uma |] eqn:Hg.
  - destruct (pick_name uma) as [name | e'] eqn:Hp; cbn [bind]; [| discriminate].
    destruct (outfit_label uma (str cid)) as [label |];
      cbn [bind ci_chara_name_en]; intros [= <-];
      cbn [ci_costume_name_en ci_chara_name_en ci_card_name_en].
    + split; [eauto |]. split; [discriminate | intros [? _]; discriminate].
    + split; [reflexivity |]. split; [discriminate | intros [? _]; discriminate].
  - cbn [bind ci_chara_name_en].
    destruct (umas_full data !! str (cid / 100)) as [uma |] eqn:Hf.
    + destruct (pick_name uma) as [name | e'] eqn:Hp; cbn [bind]; [| discriminate].
      destruct (outfit_label uma (str cid)) as [label |];
        cbn [ci_costume_name_en]; intros [= <-];
        cbn [ci_costume_name_en ci_chara_name_en ci_card_name_en].
      * split; [eauto |]. split; [discriminate | intros [_ ?]; discriminate].
      * split; [reflexivity |]. split; [discriminate | intros [_ ?]; discriminate].
    + intros [= <-]. cbn [ci_costume_name_en ci_chara_name_en ci_card_name_en].
      split; [reflexivity |]. split; auto.
Qed.

Lemma get_chara_info_shape_witness :
  exists info,
    get_chara_info Samples.skill_defs 100601 = Ok info /\
    match ci_costume_name_en info with
    | Some label =>
        exists name,
          ci_chara_name_en info = Some name /\
          ci_card_name_en info = Some (label +:+ " " +:+ name)
    | None => ci_card_name_en info = None
    end /\
    (ci_chara_name_en info = None <->
     umas_global Samples.skill_defs !! str (100601 / 100) = None /\
     umas_full Samples.skill_defs !! str (100601 / 100) = None).
Proof.
  eexists. split.
  - vm_compute. reflexivity.
  - apply (get_chara_info_shape Samples.skill_defs 100601).
    vm_compute. reflexivity.
Defined.

(** X7.  Two card ids with the same quotient by 100 are outfits of one
    character: when the lookup returns for one of them it returns for the
    other, with the same character name. *)
Theorem get_chara_info_same_character (data : Data) (a b : Z) (ia : CharaInfo) :
  a / 100 = b / 100 ->
  get_chara_info data a = Ok ia ->
  exists ib,
    get_chara_info data b = Ok ib /\
    ci_chara_name_en ib = ci_chara_name_en ia.
Proof.
  unfold get_chara_info, chara_info_primary. intros Hab. rewrite <- Hab.
  destruct (umas_global data !! str (a / 100)) as [uma |].
  - destruct (pick_name uma) as [name | e']; cbn [bind]; [| discriminate].
    destruct (outfit_label uma (str a)); cbn [bind ci_chara_name_en];
      intros [= <-]; destruct (outfit_label uma (str b));
      cbn [bind ci_chara_name_en]; eauto.
  - cbn [bind ci_chara_name_en].
    destruct (umas_full data !! str (a / 100)) as [uma |].
    + destruct (pick_name uma) as [name | e']; cbn [bind]; [| discriminate].
      destruct (outfit_label uma (str a)); cbn [ci_costume_name_en];
        intros [= <-]; destruct (outfit_label uma (str b));
        cbn [ci_costume_name_en]; eauto.
    + intros [= <-]. eauto.
Qed.

Lemma get_chara_info_same_character_witness :
  exists ia,
    get_chara_info Samples.skill_defs 100601 = Ok ia /\
    exists ib,
      get_chara_info Samples.skill_defs 100602 = Ok ib /\
      ci_chara_name_en ib = ci_chara_name_en ia.
Proof.
  eexists. split.
  - vm_compute. reflexivity.
  - apply (get_chara_info_same_character Samples.skill_defs 100601 100602).
    + reflexivity.
    + vm_compute. reflexivity.
Defined.

(** *** Skill classification by id *)

Lemma digit_char_eqb (d x : N) :
  (d < 10)%N -> (x < 10)%N ->
  Ascii.eqb (pretty_N_char d) (pretty_N_char x) = (d =? x)%N.
Proof.
  intros Hd Hx. destruct (N.eqb_spec d x) as [-> | Hne].
  - apply Ascii.eqb_refl.
  - apply Ascii.eqb_neq. intros Heq. apply Hne.
    exact (pretty_N_char_inj d x Hd Hx Heq).
Qed.

(** The test [len(sid) == 6 and sid.startswith(<two digits>)] by arithmetic. *)
Lemma six_digit_prefix (sid : Z) (a b : N) :
  (a < 10)%N -> (b < 10)%N ->
  (len (str sid) =? 6)%nat &&
  startswith (str sid) (String (pretty_N_char a) (String (pretty_N_char b) ""))
  = (100000 <=? sid) && (sid <? 1000000) &&
    (sid / 10000 =? 10 * Z.of_N a + Z.of_N b).
Proof.
  intros Ha Hb.
  destruct (Z_lt_dec sid 0) as [Hneg | Hnn].
  - destruct sid as [| p | p]; try lia. rewrite str_neg.
    change ("-" +:+ str (Z.pos p)) with (String "-"%char (str (Z.pos p))).
    assert (Hfirst : Ascii.eqb (pretty_N_char a) "-" = false).
    { apply Ascii.eqb_neq. unfold pretty_N_char.
      repeat case_match; discriminate. }
    cbn [startswith]. rewrite Hfirst. cbn [andb]. rewrite andb_false_r.
    symmetry. apply andb_false_iff. left. apply andb_false_iff. left.
    apply Z.leb_gt. lia.
  - destruct (Z_le_dec 100000 sid) as [Hlo |];
      [destruct (Z_lt_dec sid 1000000) as [Hhi |] |].
    + rewrite (str_digits 5 sid) by (cbn; lia).
      set (x := Z.to_N sid). cbn [digits_onto len String.length Nat.eqb andb].
      cbn [startswith].
      rewrite !digit_char_eqb by (try assumption; apply N.mod_lt; discriminate).
      rewrite andb_true_r.
      assert (H1 : (100000 <=? sid) = true) by (apply Z.leb_le; lia).
      assert (H2 : (sid <? 1000000) = true) by (apply Z.ltb_lt; lia).
      rewrite H1, H2. cbn [andb].
      assert (Hx : Z.of_N x = sid) by (unfold x; apply Z2N.id; lia).
      destruct (N.eqb_spec a (x / 10 / 10 / 10 / 10 / 10 mod 10)) as [Ea | Na];
        destruct (N.eqb_spec b (x / 10 / 10 / 10 / 10 mod 10)) as [Eb | Nb];
        cbn [andb]; symmetry;
        [apply Z.eqb_eq | apply Z.eqb_neq | apply Z.eqb_neq | apply Z.eqb_neq].
      * rewrite Ea, Eb.
        rewrite ?N2Z.inj_mod, ?N2Z.inj_div, Hx. change (Z.of_N 10) with 10.
        Z.div_mod_to_equations. lia.
      * intros Heq. apply Nb. apply N2Z.inj.
        rewrite ?N2Z.inj_mod, ?N2Z.inj_div, Hx. change (Z.of_N 10) with 10.
        Z.div_mod_to_equations. lia.
      * intros Heq. apply Na. apply N2Z.inj.
        rewrite ?N2Z.inj_mod, ?N2Z.inj_div, Hx. change (Z.of_N 10) with 10.
        Z.div_mod_to_equations. lia.
      * intros Heq. apply Na. apply N2Z.inj.
        rewrite ?N2Z.inj_mod, ?N2Z.inj_div, Hx. change (Z.of_N 10) with 10.
        Z.div_mod_to_equations. lia.
    + assert (Hlen : (len (str sid) =? 6)%nat = false).
      { apply Nat.eqb_neq. intros Hlen.
        destruct (str_nonneg sid ltac:(lia)) as (_ & _ & _ & Hhi' & _).
        rewrite Hlen in Hhi'. cbn in Hhi'. lia. }
      rewrite Hlen. cbn [andb]. symmetry.
      apply andb_false_iff. left. apply andb_false_iff. right.
      apply Z.ltb_ge. lia.
    + assert (Hlen : (len (str sid) =? 6)%nat = false).
      { apply Nat.eqb_neq. intros Hlen.
        destruct (str_nonneg sid ltac:(lia)) as (_ & _ & _ & _ & Hlo').
        destruct (Z.eq_dec sid 0) as [-> | Hnz]; [discriminate Hlen |].
        specialize (Hlo' ltac:(lia)). rewrite Hlen in Hlo'. cbn in Hlo'. lia. }
      rewrite Hlen. cbn [andb]. symmetry.
      apply andb_false_iff. left. apply andb_false_iff. left.
      apply Z.leb_gt. lia.
Qed.

Lemma existsb_false_Forall {A} (f : A -> bool) (l : list A) :
  existsb f l = false <-> Forall (fun x => f x = false) l.
Proof.
  induction l as [| x t IH]; cbn [existsb].
  - split; [constructor | reflexivity].
  - rewrite orb_false_iff, IH. split.
    + intros [? ?]. constructor; assumption.
    + intros H. inversion H. auto.
Qed.

(** The prefix tests of [get_skill_type] as id ranges. *)
Lemma get_skill_type_by_range (sid : Z) (effects : list Effect) :
  Forall (fun e => ~ In (effect_type e) [1; 2; 3; 4; 5]) effects ->
  Forall (fun e => 0 <= effect_modifier e) effects ->
  get_skill_type sid effects =
  if (100000 <=? sid) && (sid <? 120000) then Some "unique"
  else if (900000 <=? sid) && (sid <? 920000) then Some "inherited"
  else None.
Proof.
  intros Hbuff Hmod. unfold get_skill_type.
  assert (H1 : existsb (fun e => is_stat_buff (effect_type e)) effects = false).
  { apply existsb_false_Forall. eapply Forall_impl; [exact Hbuff |].
    intros e He. apply is_stat_buff_false. exact He. }
  assert (H2 : existsb (fun e => effect_modifier e <? 0) effects = false).
  { apply existsb_false_Forall. eapply Forall_impl; [exact Hmod |].
    intros e He. apply Z.ltb_ge. exact He. }
  rewrite H1, H2.
  rewrite !andb_orb_distrib_r.
  pose proof (six_digit_prefix sid 1 0 ltac:(lia) ltac:(lia)) as P10.
  pose proof (six_digit_prefix sid 1 1 ltac:(lia) ltac:(lia)) as P11.
  pose proof (six_digit_prefix sid 9 0 ltac:(lia) ltac:(lia)) as P90.
  pose proof (six_digit_prefix sid 9 1 ltac:(lia) ltac:(lia)) as P91.
  change (String (pretty_N_char 1) (String (pretty_N_char 0) "")) with "10" in P10.
  change (String (pretty_N_char 1) (String (pretty_N_char 1) "")) with "11" in P11.
  change (String (pretty_N_char 9) (String (pretty_N_char 0) "")) with "90" in P90.
  change (String (pretty_N_char 9) (String (pretty_N_char 1) "")) with "91" in P91.
  rewrite P10, P11, P90, P91.
  change (10 * Z.of_N 1 + Z.of_N 0) with 10.
  change (10 * Z.of_N 1 + Z.of_N 1) with 11.
  change (10 * Z.of_N 9 + Z.of_N 0) with 90.
  change (10 * Z.of_N 9 + Z.of_N 1) with 91.
  destruct (100000 <=? sid) eqn:A1; destruct (sid <? 1000000) eqn:A2;
    destruct (sid / 10000 =? 10) eqn:B10; destruct (sid / 10000 =? 11) eqn:B11;
    destruct (sid / 10000 =? 90) eqn:B90; destruct (sid / 10000 =? 91) eqn:B91;
    destruct (sid <? 120000) eqn:C1; destruct (900000 <=? sid) eqn:C2;
    destruct (sid <? 920000) eqn:C3; cbn [andb orb]; try reflexivity; exfalso;
    rewrite ?Z.leb_le, ?Z.leb_gt, ?Z.ltb_lt, ?Z.ltb_ge, ?Z.eqb_eq, ?Z.eqb_neq in *;
    Z.div_mod_to_equations; lia.
Qed.

(** X8.  For effects without a stat-buff type and without a negative
    modifier, the classification depends on the skill id alone: "unique"
    exactly for ids from 100000 to 119999 (six digits starting with 10 or
    11), "inherited" exactly for ids from 900000 to 919999, and no
    classification for any other id. *)
Theorem get_skill_type_id_ranges (sid : Z) (effects : list Effect) :
  Forall (fun e => ~ In (effect_type e) [1; 2; 3; 4; 5]) effects ->
  Forall (fun e => 0 <= effect_modifier e) effects ->
  get_skill_type sid effects =
  if (100000 <=? sid) && (sid <? 120000) then Some "unique"
  else if (900000 <=? sid) && (sid <? 920000) then Some "inherited"
  else None.
Proof. exact (get_skill_type_by_range sid effects). Qed.

Lemma get_skill_type_id_ranges_witness :
  get_skill_type 900061 [Samples.speed_up] =
  if (100000 <=? 900061) && (900061 <? 120000) then Some "unique"
  else if (900000 <=? 900061) && (900061 <? 920000) then Some "inherited"
  else None.
Proof.
  apply (get_skill_type_id_ranges 900061 [Samples.speed_up]).
  - constructor; [| constructor]. vm_compute. intuition discriminate.
  - constructor; [| constructor]. vm_compute. discriminate.
Defined.

(** *** Ids of unique-skill traits, support cards and plain traits *)



Lemma digits_onto_first (k : nat) (n : N) (s : string) :
  digits_onto (S k) n s =
  String (pretty_N_char ((n / 10 ^ N.of_nat k) mod 10)%N) (digits_onto k n s).
Proof.
  revert n s. induction k as [| k IH]; intros n s.
  - cbn [digits_onto]. change (10 ^ N.of_nat 0)%N with 1%N.
    rewrite N.div_1_r. reflexivity.
  - change (digits_onto (S (S k)) n s) with
      (digits_onto (S k) (n / 10)%N (String (pretty_N_char (n mod 10)%N) s)).
    rewrite IH. f_equal.
    rewrite Nat2N.inj_succ, N.pow_succ_r', N.Div0.div_div. reflexivity.
Qed.

(** X10.  The category of a support card is read off the leading decimal
    digit of its id alone, whatever the tables hold and however many digits
    the id has: 1 to 7 give Speed, Stamina, Power, Guts, Wit, Friend and
    Group, and 8 and 9 give no category. *)
Theorem support_card_type_leading_digit (data : Data) (k : nat) (n : Z) :
  10 ^ Z.of_nat k <= n < 10 ^ Z.of_nat (S k) ->
  si_type (get_support_card_info data n) =
  card_type_of_digit (n / 10 ^ Z.of_nat k).
Proof.
  intros Hn. unfold get_support_card_info. cbn [si_type].
  rewrite (str_digits k n Hn), digits_onto_first.
  assert (Hpow : 0 < 10 ^ Z.of_nat k) by (apply Z.pow_pos_nonneg; lia).
  assert (Hd : 1 <= n / 10 ^ Z.of_nat k < 10).
  { split.
    - apply Z.div_le_lower_bound; lia.
    - apply Z.div_lt_upper_bound; [lia |].
      rewrite Nat2Z.inj_succ, Z.pow_succ_r in Hn by lia. lia. }
  assert (Hdig : ((Z.to_N n / 10 ^ N.of_nat k) mod 10)%N =
                 Z.to_N (n / 10 ^ Z.of_nat k)).
  { apply N2Z.inj.
    rewrite N2Z.inj_mod, N2Z.inj_div, N2Z.inj_pow, nat_N_Z, !Z2N.id by lia.
    change (Z.of_N 10) with 10. apply Z.mod_small. lia. }
  rewrite Hdig.
  assert (Hcases : n / 10 ^ Z.of_nat k = 1 \/ n / 10 ^ Z.of_nat k = 2 \/
                   n / 10 ^ Z.of_nat k = 3 \/ n / 10 ^ Z.of_nat k = 4 \/
                   n / 10 ^ Z.of_nat k = 5 \/ n / 10 ^ Z.of_nat k = 6 \/
                   n / 10 ^ Z.of_nat k = 7 \/ n / 10 ^ Z.of_nat k = 8 \/
                   n / 10 ^ Z.of_nat k = 9) by lia.
  repeat (destruct Hcases as [-> | Hcases]; [vm_compute; reflexivity |]).
  rewrite Hcases. vm_compute. reflexivity.
Qed.

Lemma support_card_type_leading_digit_witness :
  si_type (get_support_card_info Samples.skill_defs 30001) =
  card_type_of_digit (30001 / 10 ^ Z.of_nat 4).
Proof.
  apply (support_card_type_leading_digit Samples.skill_defs 4 30001).
  cbn. lia.
Defined.

(** X11.  A trait id below 1,000,000 or from 20,000,000 on is decoded by
    no tier: its name is the entry of the generic trait-name table at the
    decimal string of the id, an empty or missing entry giving no name. *)
Theorem get_spark_name_plain_lookup (data : Data) (id : Z) :
  id < 1000000 \/ 20000000 <= id ->
  get_spark_name data id = Ok (nonempty (sparknames data !! str id)).
Proof.
  intros Hid. unfold get_spark_name.
  rewrite spark_unique_out_of_range by lia. cbn [bind].
  unfold spark_skill, spark_race, spark_generic.
  assert (H1 : (2000000 <=? id) && (id <? 3000000) = false).
  { apply andb_false_iff.
    destruct Hid; [left; apply Z.leb_gt | right; apply Z.ltb_ge]; lia. }
  assert (H2 : (1000000 <=? id) && (id <? 10000000) = false).
  { apply andb_false_iff.
    destruct Hid; [left; apply Z.leb_gt | right; apply Z.ltb_ge]; lia. }
  rewrite H1, H2. reflexivity.
Qed.

Lemma get_spark_name_plain_lookup_witness :
  get_spark_name Samples.skill_defs 3203 =
  Ok (nonempty (sparknames Samples.skill_defs !! str 3203)).
Proof.
  apply (get_spark_name_plain_lookup Samples.skill_defs 3203). left. lia.
Defined.

Lemma nonempty_not_empty (o : option string) : nonempty o <> Some "".
Proof.
  unfold nonempty, truthy_str. destruct o as [[| c s] |]; discriminate.
Qed.

Lemma white_scan_not_empty (data : Data) (gb : Z) (digits : list Z) :
  white_scan data gb digits <> Some "".
Proof.
  induction digits as [| d rest IH]; cbn [white_scan]; [discriminate |].
  destruct (rarity_is_white (skill_data data !! str (gb + d)));
    [apply nonempty_not_empty | exact IH].
Qed.

Lemma any_scan_not_empty (data : Data) (gb : Z) (digits : list Z) :
  any_scan data gb digits <> Some "".
Proof.
  induction digits as [| d rest IH]; cbn [any_scan]; [discriminate |].
  destruct (nonempty (get_skill_name data (gb + d))) as [name |] eqn:Hname;
    [| exact IH].
  rewrite <- Hname. apply nonempty_not_empty.
Qed.

(** Outside the ranges of the unique-skill and skill tiers only the race
    tier and the generic table are left. *)
Lemma get_spark_name_outside_scans (data : Data) (id : Z) :
  ~ (10000000 <= id < 20000000) -> ~ (2000000 <= id < 3000000) ->
  get_spark_name data id =
  Ok (match spark_race data id with
      | Some name => Some name
      | None => spark_generic data id
      end).
Proof.
  intros Hu Hs. unfold get_spark_name.
  rewrite spark_unique_out_of_range by exact Hu. cbn [bind].
  unfold spark_skill.
  assert (H1 : (2000000 <=? id) && (id <? 3000000) = false).
  { destruct ((2000000 <=? id) && (id <? 3000000)) eqn:E; [| reflexivity].
    apply andb_prop in E as [Hlo Hhi].
    apply Z.leb_le in Hlo. apply Z.ltb_lt in Hhi. lia. }
  rewrite H1. destruct (spark_race data id); reflexivity.
Qed.

(** X12.  The trait resolver never raises, for any integer id and any
    snapshot, although it slices the digits of the id and reads them back
    as integers; and what it returns is a name that is not empty, or no
    name. *)
Theorem get_spark_name_returns_name (data : Data) (id : Z) :
  exists name, get_spark_name data id = Ok name /\ name <> Some "".
Proof.
  unfold get_spark_name.
  assert (Hu : exists u, spark_unique data id = Ok u /\ u <> Some "").
  { destruct (Z_le_dec 10000000 id) as [Hlo |];
      [destruct (Z_lt_dec id 20000000) as [Hhi |] |].
    - eexists. split; [apply spark_unique_in_range; lia |].
      apply nonempty_not_empty.
    - eexists. split; [apply spark_unique_out_of_range; lia | discriminate].
    - eexists. split; [apply spark_unique_out_of_range; lia | discriminate]. }
  destruct Hu as (u & -> & Hne). cbn [bind].
  destruct u as [name |]; [eauto |].
  destruct (spark_skill data id) as [name |] eqn:Hskill.
  { eexists. split; [reflexivity |]. rewrite <- Hskill. unfold spark_skill.
    destruct ((2000000 <=? id) && (id <? 3000000)); [| discriminate].
    cbv zeta.
    destruct (white_scan data (id / 100 * 10) GROUP_DIGITS) eqn:Hw.
    - rewrite <- Hw. apply white_scan_not_empty.
    - apply any_scan_not_empty. }
  destruct (spark_race data id) as [name |] eqn:Hrace.
  { eexists. split; [reflexivity |]. rewrite <- Hrace. unfold spark_race.
    destruct ((1000000 <=? id) && (id <? 10000000)); [| discriminate].
    apply nonempty_not_empty. }
  eexists. split; [reflexivity |]. apply nonempty_not_empty.
Qed.

(** *** Failure and order-rate clauses of the condition parser *)

Lemma int_of_str_raise (s : string) (e : exn) :
  int_of_str s = Raise e -> e = ValueError.
Proof.
  unfold int_of_str.
  destruct (match strip s with
            | String "-"%char r => option_map Z.opp (int_body 0 false r)
            | String "+"%char r => int_body 0 false r
            | r => int_body 0 false r
            end); [discriminate | intros [= <-]; reflexivity].
Qed.

Lemma render_clause_raise (op key value : string) (e : exn) :
  render_clause op key value = Raise e ->
  op = ">=" /\ key = "order_rate" /\ int_of_str value = Raise e.
Proof.
  unfold render_clause, op_is, bind.
  repeat case_match; try discriminate.
  intros [= ->].
  repeat match goal with
         | H : String.eqb _ _ = true |- _ => apply String.eqb_eq in H
         end.
  subst. auto.
Qed.

Lemma render_term_raise (ops : list string) (term : string) (e : exn) :
  render_term ops term = Raise e ->
  exists op k v,
    In op ops /\ partition op term = Some (k, v) /\
    render_clause op (strip k) (strip v) = Raise e.
Proof.
  induction ops as [| op rest IH]; cbn [render_term]; [discriminate |].
  destruct (partition op term) as [[k v] |] eqn:Hpart.
  - destruct (render_clause op (strip k) (strip v)) as [[text |] | e'] eqn:Hr;
      cbn [bind].
    + discriminate.
    + intros Hrest. destruct (IH Hrest) as (op' & k' & v' & Hin & Hp & Hc).
      exists op', k', v'. split; [right; assumption | auto].
    + intros [= ->]. exists op, k, v. split; [left; reflexivity | auto].
  - intros Hrest. destruct (IH Hrest) as (op' & k' & v' & Hin & Hp & Hc).
    exists op', k', v'. split; [right; assumption | auto].
Qed.

Lemma condition_parts_raise (terms : list string) (e : exn) :
  condition_parts terms = Raise e ->
  exists term, In term terms /\ render_term OPERATORS (strip term) = Raise e.
Proof.
  induction terms as [| t rest IH]; cbn [condition_parts]; [discriminate |].
  destruct (strip t) as [| c r] eqn:Hstrip.
  - intros Hrest. destruct (IH Hrest) as (term & Hin & Hterm).
    exists term. split; [right; assumption | assumption].
  - destruct (render_term OPERATORS (String c r)) as [text | e'] eqn:Hterm;
      cbn [bind].
    + destruct (condition_parts rest) as [parts | e'] eqn:Hrest; cbn [bind];
        [discriminate |].
      intros [= ->]. destruct (IH eq_refl) as (term & Hin & Hterm').
      exists term. split; [right; assumption | assumption].
    + intros [= ->]. exists t. split; [left; reflexivity |].
      rewrite Hstrip. exact Hterm.
Qed.

(** X13.  The condition parser fails in one way only: with ValueError, when
    some clause splits at [>=] into the key [order_rate] and a value that
    does not read as an integer. *)
Theorem parse_condition_raise (condition : string) (e : exn) :
  parse_condition condition = Raise e ->
  e = ValueError /\
  exists term k v,
    In term (split_on "&" condition) /\
    partition ">=" (strip term) = Some (k, v) /\
    strip k = "order_rate" /\
    int_of_str (strip v) = Raise ValueError.
Proof.
  unfold parse_condition. destruct condition as [| c rest]; [discriminate |].
  destruct (condition_parts (split_on "&" (String c rest)))
    as [parts | e'] eqn:Hparts; cbn [bind]; [destruct parts; discriminate |].
  intros [= ->].
  destruct (condition_parts_raise _ _ Hparts) as (term & Hin & Hterm).
  destruct (render_term_raise _ _ _ Hterm) as (op & k & v & _ & Hpart & Hclause).
  destruct (render_clause_raise _ _ _ _ Hclause) as (-> & Hkey & Hint).
  pose proof (int_of_str_raise _ _ Hint) as ->.
  split; [reflexivity |]. exists term, k, v. auto.
Qed.

Lemma parse_condition_raise_witness :
  ValueError = ValueError /\
  exists term k v,
    In term (split_on "&" "phase==1&order_rate>=half") /\
    partition ">=" (strip term) = Some (k, v) /\
    strip k = "order_rate" /\
    int_of_str (strip v) = Raise ValueError.
Proof.
  apply (parse_condition_raise "phase==1&order_rate>=half").
  vm_compute. reflexivity.
Defined.
















(** *** Failure of the effect formatter; enriched skill entries *)

Lemma format_div_raise (d : nat) (p q : Z) (x : exn) :
  format_div d p q = Raise x -> x = OverflowError.
Proof.
  unfold format_div, double_of_ratio.
  match goal with
  | |- context [if ?b then Raise OverflowError else _] => destruct b
  end; cbn [bind]; [intros [= <-]; reflexivity | discriminate].
Qed.

(** X15.  The effect formatter fails in one way only: with OverflowError,
    for an effect of a type that divides the modifier (9, 21, 22, 27 or 31)
    whose modifier has an absolute value of at least 2^52. *)
Theorem format_effect_raise (e : Effect) (x : exn) :
  format_effect e = Raise x ->
  x = OverflowError /\
  In (effect_type e) [9; 21; 22; 27; 31] /\
  2 ^ 52 <= Z.abs (effect_modifier e).
Proof.
  unfold format_effect. cbv zeta.
  destruct (is_stat_buff (effect_type e)); [discriminate |].
  assert (Hdiv : forall d q r,
            0 < r -> q = 10 ^ Z.of_nat d * r -> q <= 2 ^ 14 ->
            format_div d (effect_modifier e) q = Raise x ->
            x = OverflowError /\ 2 ^ 52 <= Z.abs (effect_modifier e)).
  { intros d q r Hr Hq Hq14 Hfmt. split; [exact (format_div_raise _ _ _ _ Hfmt) |].
    destruct (Z_lt_dec (Z.abs (effect_modifier e)) (2 ^ 52)) as [Hsmall |]; [| lia].
    destruct (format_div_nearest d (effect_modifier e) q r Hsmall Hr Hq Hq14)
      as (n & Hok & _). congruence. }
  destruct (effect_type e =? 9) eqn:H9.
  { apply Z.eqb_eq in H9. rewrite H9.
    destruct (format_div 0 (effect_modifier e) 100) as [s | x'] eqn:Hfmt;
      cbn [bind]; [discriminate |]. intros [= ->].
    destruct (Hdiv 0%nat 100 100 ltac:(lia) eq_refl ltac:(lia) Hfmt) as [-> Hb].
    cbn [In]. auto. }
  destruct (is_speed (effect_type e)) eqn:Hspeed.
  { destruct (format_div 2 (effect_modifier e) 10000) as [s | x'] eqn:Hfmt;
      cbn [bind]; [discriminate |]. intros [= ->].
    destruct (Hdiv 2%nat 10000 100 ltac:(lia) eq_refl ltac:(lia) Hfmt) as [-> Hb].
    split; [reflexivity |]. split; [| exact Hb].
    unfold is_speed in Hspeed. rewrite !orb_true_iff, !Z.eqb_eq in Hspeed.
    cbn [In]. intuition. }
  destruct (effect_type e =? 31) eqn:H31.
  { apply Z.eqb_eq in H31. rewrite H31.
    destruct (format_div 4 (effect_modifier e) 10000) as [s | x'] eqn:Hfmt;
      cbn [bind]; [discriminate |]. intros [= ->].
    destruct (Hdiv 4%nat 10000 1 ltac:(lia) eq_refl ltac:(lia) Hfmt) as [-> Hb].
    cbn [In]. auto 10. }
  destruct (effect_type e =? 10); discriminate.
Qed.

Lemma format_effect_raise_witness :
  OverflowError = OverflowError /\
  In (effect_type (effect 9 (10 ^ 400))) [9; 21; 22; 27; 31] /\
  2 ^ 52 <= Z.abs (effect_modifier (effect 9 (10 ^ 400))).
Proof.
  apply (format_effect_raise (effect 9 (10 ^ 400))). vm_compute. reflexivity.
Defined.

Lemma Ok_inj {A} (a b : A) : Ok a = Ok b -> a = b.
Proof.
  intros H.
  exact (f_equal (fun r => match r with Ok v => v | Raise _ => a end) H).
Qed.

Lemma effect_info_ok (x : Effect) (i : EffectInfo) :
  effect_info x = Ok i ->
  format_effect x = Ok (ei_readable i) /\
  (ei_type i, ei_modifier i) = (effect_type x, effect_modifier x).
Proof.
  unfold effect_info.
  destruct (format_effect x) as [r | err]; cbn [bind]; [| discriminate].
  intros H. apply Ok_inj in H. rewrite <- H. split; reflexivity.
Qed.

(** X16.  For a skill whose definition has a first alternative, a run of
    the skill step that returns binds every detail key: the rarity label,
    a skill type, the readable form of the alternative's condition, one
    effect entry per effect of that alternative in order, with its type,
    modifier and rendered text, and a summary; the duration is bound to
    [None] exactly when the base duration is zero or missing. *)
Theorem enrich_skill_bundle (data : Data) (skill skill' : Skill) (sid : Z)
    (e : SkillEntry) (alt : Alternative) :
  skill_id skill = Some sid -> sid <> 0 ->
  skill_data data !! str sid = Some e ->
  head (alternatives_of e) = Some alt ->
  enrich_skill data skill = Ok skill' ->
  sk_rarity skill' = Some (Some (rarity_label e)) /\
  (exists t, sk_skill_type skill' = Some (Some t)) /\
  (exists c, parse_condition (default "" (a_condition alt)) = Ok c /\
             sk_condition skill' = Some (Some c)) /\
  (exists infos,
     sk_effects skill' = Some infos /\
     map (fun i => (ei_type i, ei_modifier i)) infos =
       map (fun x => (effect_type x, effect_modifier x))
           (default [] (a_effects alt)) /\
     Forall2 (fun x i => format_effect x = Ok (ei_readable i))
             (default [] (a_effects alt)) infos) /\
  (sk_duration skill' = Some None <-> default 0 (a_baseDuration alt) = 0) /\
  (exists s, sk_summary skill' = Some (Some s)).
Proof.
  intros Hid Hnz He Hhead. unfold enrich_skill, get_skill_details.
  assert (Hz : (sid =? 0) = false) by (apply Z.eqb_neq; assumption).
  rewrite Hid, Hz, He.
  unfold alternatives_of in Hhead.
  assert (Hne : entry_nonempty e = true).
  { unfold entry_nonempty. destruct (se_alternatives e); [| discriminate].
    destruct (se_rarity e); reflexivity. }
  rewrite Hne. unfold skill_details_of.
  destruct (default [] (se_alternatives e)) as [| alt' more];
    cbn [head] in Hhead; [discriminate |].
  injection Hhead as ->.
  destruct (parse_condition (default "" (a_condition alt))) as [c | x];
    cbn [bind]; [| discriminate].
  destruct (default 0 (a_baseDuration alt) =? 0) eqn:Hbase.
  - cbn [bind].
    destruct (mapM effect_info (default [] (a_effects alt))) as [infos | x]
      eqn:Hinfos; cbn [bind]; [| discriminate].
    intros [= <-].
    cbn [sk_rarity sk_skill_type sk_condition sk_effects sk_duration
         sk_summary sd_rarity sd_skill_type sd_condition_readable sd_effects
         sd_duration_per_1000m sd_summary default from_option].
    apply Z.eqb_eq in Hbase.
    repeat split; eauto.
    exists infos. split; [reflexivity |]. split.
    + apply (mapM_proj effect_info
               (fun x => (effect_type x, effect_modifier x))
               (fun i => (ei_type i, ei_modifier i)) _ _); [| exact Hinfos].
      intros x i Hxi. apply (effect_info_ok x i Hxi).
    + apply mapM_Forall2 in Hinfos.
      eapply Forall2_impl; [exact Hinfos |].
      intros x i Hxi. apply (effect_info_ok x i Hxi).
  - destruct (format_div 1 (default 0 (a_baseDuration alt)) 1000) as [dur | x];
      cbn [bind]; [| discriminate].
    destruct (mapM effect_info (default [] (a_effects alt))) as [infos | x]
      eqn:Hinfos; cbn [bind]; [| discriminate].
    intros [= <-].
    cbn [sk_rarity sk_skill_type sk_condition sk_effects sk_duration
         sk_summary sd_rarity sd_skill_type sd_condition_readable sd_effects
         sd_duration_per_1000m sd_summary default from_option].
    apply Z.eqb_neq in Hbase.
    repeat split; eauto; try discriminate; try (intros; contradiction).
    exists infos. split; [reflexivity |]. split.
    + apply (mapM_proj effect_info
               (fun x => (effect_type x, effect_modifier x))
               (fun i => (ei_type i, ei_modifier i)) _ _); [| exact Hinfos].
      intros x i Hxi. apply (effect_info_ok x i Hxi).
    + apply mapM_Forall2 in Hinfos.
      eapply Forall2_impl; [exact Hinfos |].
      intros x i Hxi. apply (effect_info_ok x i Hxi).
Qed.

Lemma enrich_skill_bundle_witness :
  exists skill',
    enrich_skill Samples.skill_defs (Samples.raw_skill 200512) = Ok skill' /\
    sk_rarity skill' =
      Some (Some (rarity_label
                    {| se_rarity := Some 1;
                       se_alternatives :=
                         Some [Samples.corner_alt; Samples.late_alt] |})) /\
    (exists t, sk_skill_type skill' = Some (Some t)) /\
    (exists c,
       parse_condition (default "" (a_condition Samples.corner_alt)) = Ok c /\
       sk_condition skill' = Some (Some c)) /\
    (exists infos,
       sk_effects skill' = Some infos /\
       map (fun i => (ei_type i, ei_modifier i)) infos =
         map (fun x => (effect_type x, effect_modifier x))
             (default [] (a_effects Samples.corner_alt)) /\
       Forall2 (fun x i => format_effect x = Ok (ei_readable i))
               (default [] (a_effects Samples.corner_alt)) infos) /\
    (sk_duration skill' = Some None <->
     default 0 (a_baseDuration Samples.corner_alt) = 0) /\
    (exists s, sk_summary skill' = Some (Some s)).
Proof.
  eexists. split.
  - vm_compute. reflexivity.
  - apply (enrich_skill_bundle Samples.skill_defs (Samples.raw_skill 200512)
             _ 200512
             {| se_rarity := Some 1;
                se_alternatives :=
                  Some [Samples.corner_alt; Samples.late_alt] |}
             Samples.corner_alt).
    + reflexivity.
    + lia.
    + vm_compute. reflexivity.
    + reflexivity.
    + vm_compute. reflexivity.
Defined.

Lemma effect_info_raise (x : Effect) (e : exn) :
  effect_info x = Raise e -> format_effect x = Raise e.
Proof.
  unfold effect_info. destruct (format_effect x); cbn [bind];
    [discriminate | intros [= ->]; reflexivity].
Qed.

(** X17.  The detail lookup of a skill fails only on a definition with a
    first alternative, and then in one of three ways: the condition of that
    alternative fails to parse, its base duration overflows the division
    by 1000 (OverflowError), or one of its effects fails to render; the
    exception is the one of that step. *)
Theorem get_skill_details_raise (data : Data) (sid : Z) (e : exn) :
  get_skill_details data sid = Raise e ->
  exists entry alt,
    skill_data data !! str sid = Some entry /\
    head (alternatives_of entry) = Some alt /\
    (parse_condition (default "" (a_condition alt)) = Raise e \/
     (e = OverflowError /\
      format_div 1 (default 0 (a_baseDuration alt)) 1000 = Raise e) \/
     exists x, In x (default [] (a_effects alt)) /\ format_effect x = Raise e).
Proof.
  unfold get_skill_details. intros Hrun.
  destruct (skill_data data !! str sid) as [entry |]; [| discriminate].
  destruct (entry_nonempty entry); [| discriminate].
  destruct (skill_details_of sid entry) as [d | e'] eqn:Hd; cbn [bind] in Hrun;
    [discriminate |].
  injection Hrun as ->. unfold skill_details_of in Hd.
  destruct (default [] (se_alternatives entry)) as [| alt more] eqn:Halts;
    [discriminate |].
  exists entry, alt. split; [reflexivity |].
  split; [unfold alternatives_of; rewrite Halts; reflexivity |].
  cbv zeta in Hd.
  destruct (parse_condition (default "" (a_condition alt))) as [c | e'] eqn:Hc;
    cbn [bind] in Hd.
  2:{ injection Hd as ->. left. reflexivity. }
  destruct (default 0 (a_baseDuration alt) =? 0) eqn:Hz; cbn [bind] in Hd.
  - destruct (mapM effect_info (default [] (a_effects alt))) as [infos | e']
      eqn:Hm; cbn [bind] in Hd; [discriminate |].
    injection Hd as ->. right. right.
    destruct (mapM_raise _ _ _ Hm) as (x & Hin & Hx). exists x.
    split; [exact Hin |]. exact (effect_info_raise x e Hx).
  - destruct (format_div 1 (default 0 (a_baseDuration alt)) 1000)
      as [t | e'] eqn:Hf; cbn [bind] in Hd.
    + destruct (mapM effect_info (default [] (a_effects alt))) as [infos | e']
        eqn:Hm; cbn [bind] in Hd; [discriminate |].
      injection Hd as ->. right. right.
      destruct (mapM_raise _ _ _ Hm) as (x & Hin & Hx). exists x.
      split; [exact Hin |]. exact (effect_info_raise x e Hx).
    + injection Hd as ->. right. left.
      split; [exact (format_div_raise _ _ _ _ Hf) | reflexivity].
Qed.

Lemma get_skill_details_raise_witness :
  exists entry alt,
    skill_data Fixtures.unreadable !! str 200999 = Some entry /\
    head (alternatives_of entry) = Some alt /\
    (parse_condition (default "" (a_condition alt)) = Raise ValueError \/
     (ValueError = OverflowError /\
      format_div 1 (default 0 (a_baseDuration alt)) 1000 = Raise ValueError) \/
     exists x, In x (default [] (a_effects alt)) /\
               format_effect x = Raise ValueError).
Proof.
  apply (get_skill_details_raise Fixtures.unreadable 200999 ValueError).
  vm_compute. reflexivity.
Defined.

(** *** Skill details: what is read from a definition *)

(** C10 as stated fails: the classification is not computed from the first
    alternative alone.  The same definition stored under the skill ids
    100011 and 200011 is classified "unique" under the one and "white"
    under the other; and an empty dictionary and a dictionary holding only
    an empty list of alternatives, which agree on rarity and on their first
    alternative, yield nothing and the rarity label. *)
Lemma get_skill_details_id_changes_type :
  skill_data Fixtures.twin_ids !! str 100011 = Some Fixtures.plain_entry /\
  skill_data Fixtures.twin_ids !! str 200011 = Some Fixtures.plain_entry /\
  (exists d1 d2,
     get_skill_details Fixtures.twin_ids 100011 = Ok (Some d1) /\
     get_skill_details Fixtures.twin_ids 200011 = Ok (Some d2) /\
     sd_skill_type d1 = Some "unique" /\
     sd_skill_type d2 = Some "white") /\
  se_rarity Fixtures.no_keys = se_rarity Fixtures.no_alternatives /\
  head (alternatives_of Fixtures.no_keys) = head (alternatives_of Fixtures.no_alternatives) /\
  get_skill_details Fixtures.hollow 200021 = Ok None /\
  get_skill_details Fixtures.hollow 200022 = Ok (Some (rarity_only "Rarity 0")) /\
  ~ (forall (d1 d2 : Data) (sid1 sid2 : Z) (e1 e2 : SkillEntry),
       skill_data d1 !! str sid1 = Some e1 ->
       skill_data d2 !! str sid2 = Some e2 ->
       se_rarity e1 = se_rarity e2 ->
       head (alternatives_of e1) = head (alternatives_of e2) ->
       get_skill_details d1 sid1 = get_skill_details d2 sid2).
Proof.
  split; [vm_compute; reflexivity |].
  split; [vm_compute; reflexivity |].
  split.
  { eexists. eexists.
    split; [vm_compute; reflexivity |].
    split; [vm_compute; reflexivity |].
    split; reflexivity. }
  repeat (split; [vm_compute; reflexivity |]).
  intros Hclaim.
  assert (Heq : get_skill_details Fixtures.twin_ids 100011 =
                get_skill_details Fixtures.twin_ids 200011).
  { apply (Hclaim Fixtures.twin_ids Fixtures.twin_ids 100011 200011
             Fixtures.plain_entry Fixtures.plain_entry);
      vm_compute; reflexivity. }
  vm_compute in Heq. discriminate Heq.
Qed.

(** The detail lookup on a definition with a first alternative, step by
    step. *)
Lemma get_skill_details_steps (data : Data) (sid : Z) (e : SkillEntry)
    (alt : Alternative) :
  skill_data data !! str sid = Some e ->
  entry_nonempty e = true ->
  head (alternatives_of e) = Some alt ->
  get_skill_details data sid =
  (c <- parse_condition (default "" (a_condition alt)) ;;
   duration <-
     (if default 0 (a_baseDuration alt) =? 0 then Ok None
      else t <- format_div 1 (default 0 (a_baseDuration alt)) 1000 ;;
           Ok (Some (t +:+ "s"))) ;;
   infos <- mapM effect_info (default [] (a_effects alt)) ;;
   Ok (Some
         {| sd_rarity := rarity_label e;
            sd_condition := Some (default "" (a_condition alt));
            sd_condition_readable := Some c;
            sd_duration_base_ms :=
              if default 0 (a_baseDuration alt) =? 0 then None
              else Some (default 0 (a_baseDuration alt));
            sd_duration_per_1000m := duration;
            sd_effects := Some infos;
            sd_skill_type :=
              Some (match get_skill_type sid (default [] (a_effects alt)) with
                    | Some t => t
                    | None =>
                        if String.eqb (rarity_label e) "Gold" then "gold"
                        else if String.eqb (rarity_label e) "Unique"
                             then "unique"
                        else "white"
                    end);
            sd_summary :=
              Some (c +:+ " → " +:+ join ", " (map ei_readable infos)) |})).
Proof.
  intros Hd Hne Hhead. unfold get_skill_details. rewrite Hd, Hne.
  unfold skill_details_of, alternatives_of in *.
  destruct (default [] (se_alternatives e)) as [| alt' more];
    cbn [head] in Hhead; [discriminate |].
  injection Hhead as ->. cbv zeta.
  destruct (parse_condition (default "" (a_condition alt))) as [c | x];
    cbn [bind]; [| reflexivity].
  destruct (if default 0 (a_baseDuration alt) =? 0 then Ok None
            else t <- format_div 1 (default 0 (a_baseDuration alt)) 1000 ;;
                 Ok (Some (t +:+ "s"))) as [duration | x];
    cbn [bind]; [| reflexivity].
  destruct (mapM effect_info (default [] (a_effects alt))) as [infos | x];
    cbn [bind]; reflexivity.
Qed.

Lemma effect_info_fields (x : Effect) (i : EffectInfo) :
  effect_info x = Ok i ->
  ei_type i = effect_type x /\
  ei_type_name i = default "Unknown" (EFFECT_TYPES !! effect_type x) /\
  ei_modifier i = effect_modifier x /\
  format_effect x = Ok (ei_readable i).
Proof.
  unfold effect_info. destruct (format_effect x) as [s | e]; cbn [bind];
    [| discriminate].
  intros H. apply Ok_inj in H. subst i. repeat split; reflexivity.
Qed.

Lemma effect_info_returns (x : Effect) :
  (exists i, effect_info x = Ok i) <-> (exists s, format_effect x = Ok s).
Proof.
  unfold effect_info. destruct (format_effect x) as [s | e]; cbn [bind].
  - split; eauto.
  - split; intros [? H]; discriminate H.
Qed.

Lemma Forall2_weaken {A B} (P Q : A -> B -> Prop) (l : list A) (l' : list B) :
  (forall x y, P x y -> Q x y) -> Forall2 P l l' -> Forall2 Q l l'.
Proof. intros H. induction 1; constructor; auto. Qed.

Lemma Forall2_left_exists {A B} (P : A -> B -> Prop) (l : list A)
    (l' : list B) :
  Forall2 P l l' -> Forall (fun x => exists y, P x y) l.
Proof. induction 1; constructor; eauto. Qed.

(** C10, amended.  For one skill id, two non-empty skill definitions that
    agree on rarity and on their first alternative get the same result of
    the detail lookup, whatever their further alternatives are, and a
    definition with no alternative gets the rarity label alone.  With a
    first alternative the lookup returns exactly when the condition of that
    alternative parses, its base duration formats and each of its effects
    renders; the bundle then holds that alternative's condition and its
    readable form, the base duration and its text (none for a zero
    duration), one effect entry per effect of that alternative in order,
    the summary built from them, and the classification that
    [get_skill_type] gives for the skill id and those effects, or else the
    one of the rarity label. *)
Theorem get_skill_details_first_alternative
    (d1 d2 : Data) (sid : Z) (e1 e2 : SkillEntry) :
  skill_data d1 !! str sid = Some e1 ->
  skill_data d2 !! str sid = Some e2 ->
  entry_nonempty e1 = true ->
  entry_nonempty e2 = true ->
  se_rarity e1 = se_rarity e2 ->
  head (alternatives_of e1) = head (alternatives_of e2) ->
  get_skill_details d1 sid = get_skill_details d2 sid /\
  (alternatives_of e1 = [] ->
   get_skill_details d1 sid = Ok (Some (rarity_only (rarity_label e1)))) /\
  (forall alt,
     head (alternatives_of e1) = Some alt ->
     let condition := default "" (a_condition alt) in
     let base_duration := default 0 (a_baseDuration alt) in
     let effects := default [] (a_effects alt) in
     ((exists details, get_skill_details d1 sid = Ok (Some details)) <->
      (exists c, parse_condition condition = Ok c) /\
      (base_duration = 0 \/
       exists t, format_div 1 base_duration 1000 = Ok t) /\
      Forall (fun x => exists s, format_effect x = Ok s) effects) /\
     (forall details,
        get_skill_details d1 sid = Ok (Some details) ->
        sd_rarity details = rarity_label e1 /\
        sd_condition details = Some condition /\
        (exists c, parse_condition condition = Ok c /\
                   sd_condition_readable details = Some c) /\
        sd_duration_base_ms details =
          (if base_duration =? 0 then None else Some base_duration) /\
        (if base_duration =? 0 then sd_duration_per_1000m details = None
         else exists t, format_div 1 base_duration 1000 = Ok t /\
                        sd_duration_per_1000m details = Some (t +:+ "s")) /\
        (exists infos,
           sd_effects details = Some infos /\
           Forall2 (fun x i =>
                      ei_type i = effect_type x /\
                      ei_type_name i =
                        default "Unknown" (EFFECT_TYPES !! effect_type x) /\
                      ei_modifier i = effect_modifier x /\
                      format_effect x = Ok (ei_readable i)) effects infos /\
           forall c, sd_condition_readable details = Some c ->
                     sd_summary details =
                       Some (c +:+ " → " +:+
                             join ", " (map ei_readable infos))) /\
        sd_skill_type details =
          Some (match get_skill_type sid effects with
                | Some t => t
                | None =>
                    if String.eqb (rarity_label e1) "Gold" then "gold"
                    else if String.eqb (rarity_label e1) "Unique"
                         then "unique"
                    else "white"
                end))).
Proof.
  intros Hd1 Hd2 Hne1 Hne2 Hrarity Hhead.
  split; [| split].
  - unfold get_skill_details. rewrite Hd1, Hd2, Hne1, Hne2.
    rewrite (skill_details_of_head sid e1 e2 Hrarity Hhead). reflexivity.
  - intros Hnil. unfold get_skill_details. rewrite Hd1, Hne1.
    unfold skill_details_of. fold (alternatives_of e1). rewrite Hnil.
    reflexivity.
  - intros alt Halt condition base_duration effects.
    rewrite (get_skill_details_steps d1 sid e1 alt Hd1 Hne1 Halt).
    fold condition base_duration effects.
    destruct (parse_condition condition) as [c | err] eqn:Hc; cbn [bind].
    2:{ split.
        - split.
          + intros [details H]. discriminate H.
          + intros [[c H] _]. discriminate H.
        - intros details H. discriminate H. }
    destruct (base_duration =? 0) eqn:Hz.
    + cbn [bind].
      destruct (mapM effect_info effects) as [infos | err] eqn:Hm; cbn [bind].
      * pose proof (mapM_Forall2 _ _ _ Hm) as Hall.
        split.
        -- split; [intros _ | eauto].
           split; [eauto |]. split; [left; apply Z.eqb_eq; exact Hz |].
           apply (Forall2_left_exists (fun x i => effect_info x = Ok i))
             in Hall.
           eapply Forall_impl; [exact Hall |].
           intros x Hx. apply effect_info_returns. exact Hx.
        -- intros details H. apply Ok_inj in H. injection H as <-.
           cbn. repeat split; try reflexivity.
           ++ exists c. split; reflexivity.
           ++ exists infos. split; [reflexivity |]. split.
              ** eapply Forall2_weaken; [| exact Hall].
                 intros x i Hi. apply effect_info_fields. exact Hi.
              ** intros c' [= <-]. reflexivity.
      * split.
        -- split; [intros [details H]; discriminate H |].
           intros (_ & _ & Hall). exfalso.
           destruct (mapM_ok effect_info effects) as [l' Hl'].
           { intros x Hin. apply effect_info_returns.
             rewrite List.Forall_forall in Hall. apply Hall. exact Hin. }
           congruence.
        -- intros details H. discriminate H.
    + destruct (format_div 1 base_duration 1000) as [t | err] eqn:Hf;
        cbn [bind].
      2:{ split.
          - split; [intros [details H]; discriminate H |].
            intros (_ & [H0 | [t H]] & _).
            + apply Z.eqb_neq in Hz. contradiction.
            + discriminate H.
          - intros details H. discriminate H. }
      destruct (mapM effect_info effects) as [infos | err] eqn:Hm; cbn [bind].
      * pose proof (mapM_Forall2 _ _ _ Hm) as Hall.
        split.
        -- split; [intros _ | eauto].
           split; [eauto |]. split; [right; eauto |].
           apply (Forall2_left_exists (fun x i => effect_info x = Ok i))
             in Hall.
           eapply Forall_impl; [exact Hall |].
           intros x Hx. apply effect_info_returns. exact Hx.
        -- intros details H. apply Ok_inj in H. injection H as <-.
           cbn. repeat split; try reflexivity.
           ++ exists c. split; reflexivity.
           ++ exists t. split; reflexivity.
           ++ exists infos. split; [reflexivity |]. split.
              ** eapply Forall2_weaken; [| exact Hall].
                 intros x i Hi. apply effect_info_fields. exact Hi.
              ** intros c' [= <-]. reflexivity.
      * split.
        -- split; [intros [details H]; discriminate H |].
           intros (_ & _ & Hall). exfalso.
           destruct (mapM_ok effect_info effects) as [l' Hl'].
           { intros x Hin. apply effect_info_returns.
             rewrite List.Forall_forall in Hall. apply Hall. exact Hin. }
           congruence.
        -- intros details H. discriminate H.
Qed.

Lemma get_skill_details_first_alternative_witness :
  get_skill_details Samples.skill_defs 200512 =
    get_skill_details Samples.skill_defs' 200512 /\
  get_skill_details Samples.skill_defs 200011 =
    Ok (Some (rarity_only "White")).
Proof.
  split.
  - refine (proj1 (get_skill_details_first_alternative
             Samples.skill_defs Samples.skill_defs' 200512
             {| se_rarity := Some 1;
                se_alternatives :=
                  Some [Samples.corner_alt; Samples.late_alt] |}
             {| se_rarity := Some 1;
                se_alternatives := Some [Samples.corner_alt] |}
             _ _ _ _ _ _)); vm_compute; reflexivity.
  - refine (proj1 (proj2 (get_skill_details_first_alternative
             Samples.skill_defs Samples.skill_defs 200011
             {| se_rarity := Some 2; se_alternatives := Some [] |}
             {| se_rarity := Some 2; se_alternatives := Some [] |}
             _ _ _ _ _ _)) _); vm_compute; reflexivity.
Defined.

(** *** The empty snapshot *)













(** *** Table generation *)

Lemma lookup_assign_each (f : string -> string)
    (src result : gmap string string) (k : string) :
  assign_each f src result !! k =
  match src !! k with
  | Some v => Some (f v)
  | None => result !! k
  end.
Proof.
  unfold assign_each.
  apply (map_fold_weak_ind
           (fun acc m => acc !! k = match m !! k with
                                    | Some v => Some (f v)
                                    | None => result !! k
                                    end)).
  - rewrite lookup_empty. reflexivity.
  - intros i x m r Hi IH.
    destruct (decide (i = k)) as [-> | Hne].
    + rewrite !lookup_insert_eq. reflexivity.
    + rewrite !lookup_insert_ne by assumption. exact IH.
Qed.

Lemma startswith_refl (s : string) : startswith s s = true.
Proof.
  induction s as [| c s IH]; [reflexivity |].
  cbn [startswith]. rewrite Ascii.eqb_refl, IH. reflexivity.
Qed.

Lemma occurs_in_refl (s : string) : occurs_in s s = true.
Proof.
  unfold occurs_in. destruct s as [| c s]; [reflexivity |].
  cbn [partition]. rewrite startswith_refl. reflexivity.
Qed.

Lemma correction_for_Some (name : string) (corrections : list (string * string))
    (fixed : string) :
  correction_for name corrections = Some fixed -> In (name, fixed) corrections.
Proof.
  induction corrections as [| [wrong correct] rest IH];
    cbn [correction_for]; [discriminate |].
  destruct (String.eqb wrong name) eqn:Heq.
  - apply String.eqb_eq in Heq. intros [= <-]. left. congruence.
  - intros H. right. apply IH. exact H.
Qed.

Lemma partial_corrections_absent (corrections : list (string * string))
    (name : string) :
  Forall (fun entry => occurs_in (fst entry) name = false) corrections ->
  partial_corrections corrections name = name.
Proof.
  induction 1 as [| [wrong correct] rest Hhere _ IH]; [reflexivity |].
  cbn [partial_corrections]. cbn [fst] in Hhere. rewrite Hhere. exact IH.
Qed.

(** X19.  A name in which no term of the correction table occurs comes
    back unchanged. *)
Theorem apply_corrections_unchanged (name : string)
    (corrections : list (string * string)) :
  Forall (fun entry => occurs_in (fst entry) name = false) corrections ->
  apply_corrections name corrections = name.
Proof.
  intros Habsent. unfold apply_corrections.
  destruct name as [| c rest]; [reflexivity |].
  destruct (correction_for (String c rest) corrections) as [fixed |] eqn:Hfor.
  - exfalso. apply correction_for_Some in Hfor.
    rewrite Forall_forall in Habsent.
    apply list_elem_of_In in Hfor.
    specialize (Habsent _ Hfor). cbn [fst] in Habsent.
    rewrite occurs_in_refl in Habsent. discriminate.
  - apply partial_corrections_absent. exact Habsent.
Qed.

Lemma apply_corrections_unchanged_witness :
  apply_corrections "Speed Bonus" NICKNAME_CORRECTIONS = "Speed Bonus".
Proof.
  apply (apply_corrections_unchanged "Speed Bonus" NICKNAME_CORRECTIONS).
  repeat constructor.
Defined.

Lemma correction_for_In (name fixed : string)
    (corrections : list (string * string)) :
  NoDup (map fst corrections) -> In (name, fixed) corrections ->
  correction_for name corrections = Some fixed.
Proof.
  induction corrections as [| [wrong correct] rest IH];
    cbn [map fst correction_for]; intros Hnd Hin; [destruct Hin |].
  inversion Hnd as [| ? ? Hfresh Hrest]; subst.
  destruct Hin as [Heq | Hin].
  - injection Heq as -> ->. rewrite String.eqb_refl. reflexivity.
  - destruct (String.eqb wrong name) eqn:Hsame.
    + exfalso. apply String.eqb_eq in Hsame. subst wrong.
      apply Hfresh. apply list_elem_of_In.
      change name with (fst (name, fixed)). apply in_map. exact Hin.
    + apply IH; assumption.
Qed.

(** X20.  A name that is itself a term of the correction table (a table
    lists each term once) is replaced by exactly the replacement listed for
    it, whatever other listed terms occur inside it: the partial
    replacements are not applied to it. *)
Theorem apply_corrections_exact (name fixed : string)
    (corrections : list (string * string)) :
  NoDup (map fst corrections) ->
  In (name, fixed) corrections ->
  name <> "" ->
  apply_corrections name corrections = fixed.
Proof.
  intros Hnd Hin Hne. unfold apply_corrections.
  destruct name as [| c rest]; [congruence |].
  rewrite (correction_for_In _ _ _ Hnd Hin). reflexivity.
Qed.

Lemma apply_corrections_exact_witness :
  apply_corrections "Leader" SPARK_NAME_CORRECTIONS = "Pace Chaser".
Proof.
  apply (apply_corrections_exact "Leader" "Pace Chaser"
           SPARK_NAME_CORRECTIONS).
  - assert (Hd : bool_decide (NoDup (map fst SPARK_NAME_CORRECTIONS)))
      by (vm_compute; exact I).
    exact (bool_decide_unpack _ Hd).
  - right. left. reflexivity.
  - discriminate.
Defined.

(** X21.  On a snapshot whose nickname table is the generated one, the
    nickname lookup of an id gives the corrected name of category 130 when
    that category has the id, else the corrected name of category 151, else
    nothing: where the two categories overlap, category 130 wins. *)
Theorem nickname_from_generated
    (text_data : gmap string (gmap string string)) (data : Data) (id : Z) :
  nicknames data = generate_nicknames text_data ->
  get_nickname_name data id =
  match category text_data "130" !! str id with
  | Some name => Some (apply_corrections name NICKNAME_CORRECTIONS)
  | None =>
      match category text_data "151" !! str id with
      | Some name => Some (apply_corrections name NICKNAME_CORRECTIONS)
      | None => None
      end
  end.
Proof.
  intros Htable. unfold get_nickname_name. rewrite Htable.
  unfold generate_nicknames. rewrite !lookup_assign_each, lookup_empty.
  reflexivity.
Qed.

Lemma nickname_from_generated_witness :
  get_nickname_name Fixtures.generated 5 =
  match category Fixtures.text_excerpt "130" !! str 5 with
  | Some name => Some (apply_corrections name NICKNAME_CORRECTIONS)
  | None =>
      match category Fixtures.text_excerpt "151" !! str 5 with
      | Some name => Some (apply_corrections name NICKNAME_CORRECTIONS)
      | None => None
      end
  end.
Proof.
  apply (nickname_from_generated Fixtures.text_excerpt Fixtures.generated 5).
  reflexivity.
Defined.

Lemma generate_supportcardnames_lookup
    (text_data : gmap string (gmap string string)) (k : string) :
  generate_supportcardnames text_data !! k =
  if decide (k ∈ dom (category text_data "75") ∪ dom (category text_data "76")
                 ∪ dom (category text_data "77"))
  then Some {| scn_name := category text_data "75" !! k;
               scn_title := category text_data "76" !! k;
               scn_chara := category text_data "77" !! k |}
  else None.
Proof.
  unfold generate_supportcardnames. cbv zeta.
  set (ids := dom (category text_data "75") ∪ dom (category text_data "76")
              ∪ dom (category text_data "77")).
  set (f := fun card_id : string =>
              (card_id, {| scn_name := category text_data "75" !! card_id;
                           scn_title := category text_data "76" !! card_id;
                           scn_chara := category text_data "77" !! card_id |})).
  assert (Hinj : forall y y', y ∈ ids -> y' ∈ ids -> (f y).1 = (f y').1 -> y = y').
  { intros y y' _ _ H. exact H. }
  destruct (decide (k ∈ ids)) as [Hin | Hout].
  - apply (lookup_set_to_map f ids k _ Hinj). exists k. split; [exact Hin | reflexivity].
  - destruct (set_to_map f ids !! k) as [x |] eqn:Hlk; [| reflexivity].
    exfalso. apply (lookup_set_to_map f ids k x Hinj) in Hlk as (y & Hy & Hfy).
    unfold f in Hfy. injection Hfy as -> _. contradiction.
Qed.

(** X22.  On a snapshot whose support-card table is the generated one, the
    name, title and character that the support-card lookup returns for an
    id are the entries of categories 75, 76 and 77 at that id, each missing
    when its category lacks the id; and the generated table has no entry
    for an id exactly when all three categories lack it. *)
Theorem support_card_info_from_generated
    (text_data : gmap string (gmap string string)) (data : Data) (id : Z) :
  supportcardnames data = generate_supportcardnames text_data ->
  si_name_en (get_support_card_info data id) =
    category text_data "75" !! str id /\
  si_title_en (get_support_card_info data id) =
    category text_data "76" !! str id /\
  si_chara_en (get_support_card_info data id) =
    category text_data "77" !! str id /\
  (supportcardnames data !! str id = None <->
   category text_data "75" !! str id = None /\
   category text_data "76" !! str id = None /\
   category text_data "77" !! str id = None).
Proof.
  intros Htable. unfold get_support_card_info.
  cbn [si_name_en si_title_en si_chara_en].
  rewrite Htable, generate_supportcardnames_lookup.
  destruct (decide (str id ∈ dom (category text_data "75")
                    ∪ dom (category text_data "76")
                    ∪ dom (category text_data "77"))) as [Hin | Hout].
  - cbn. repeat split; try discriminate.
    intros (H75 & H76 & H77). exfalso.
    rewrite !elem_of_union, !elem_of_dom, H75, H76, H77 in Hin.
    destruct Hin as [[[? H] | [? H]] | [? H]]; discriminate.
  - rewrite !elem_of_union, !elem_of_dom in Hout.
    assert (H75 : category text_data "75" !! str id = None).
    { destruct (category text_data "75" !! str id) eqn:E; [| reflexivity].
      exfalso. apply Hout. left. left. eauto. }
    assert (H76 : category text_data "76" !! str id = None).
    { destruct (category text_data "76" !! str id) eqn:E; [| reflexivity].
      exfalso. apply Hout. left. right. eauto. }
    assert (H77 : category text_data "77" !! str id = None).
    { destruct (category text_data "77" !! str id) eqn:E; [| reflexivity].
      exfalso. apply Hout. right. eauto. }
    rewrite H75, H76, H77. cbn. repeat split; reflexivity.
Qed.

Lemma support_card_info_from_generated_witness :
  si_name_en (get_support_card_info Fixtures.generated 30002) =
    category Fixtures.text_excerpt "75" !! str 30002 /\
  si_title_en (get_support_card_info Fixtures.generated 30002) =
    category Fixtures.text_excerpt "76" !! str 30002 /\
  si_chara_en (get_support_card_info Fixtures.generated 30002) =
    category Fixtures.text_excerpt "77" !! str 30002 /\
  (supportcardnames Fixtures.generated !! str 30002 = None <->
   category Fixtures.text_excerpt "75" !! str 30002 = None /\
   category Fixtures.text_excerpt "76" !! str 30002 = None /\
   category Fixtures.text_excerpt "77" !! str 30002 = None).
Proof.
  apply (support_card_info_from_generated Fixtures.text_excerpt
           Fixtures.generated 30002).
  reflexivity.
Defined.

(** X23.  On a snapshot whose trait-name and race-name tables are the
    generated ones, a trait id outside the ranges of the unique-skill and
    skill tiers resolves to corrected text-dictionary names: in the race
    range to the corrected name of category 36 at 1000 plus the last three
    digits of [id // 100] when there is one, and otherwise to the corrected
    name of category 147 at the id itself. *)
Theorem spark_name_from_generated
    (text_data : gmap string (gmap string string)) (data : Data) (id : Z) :
  sparknames data = generate_sparknames text_data ->
  racenames data = generate_racenames text_data ->
  ~ (10000000 <= id < 20000000) ->
  ~ (2000000 <= id < 3000000) ->
  get_spark_name data id =
  Ok (let corrected := fun cat key =>
        nonempty
          (option_map (fun name => apply_corrections name SPARK_NAME_CORRECTIONS)
                      (category text_data cat !! key)) in
      if (1000000 <=? id) && (id <? 10000000) then
        match corrected "36" (str (1000 + id / 100 mod 1000)) with
        | Some name => Some name
        | None => corrected "147" (str id)
        end
      else corrected "147" (str id)).
Proof.
  intros Hsparks Hraces Hu Hs.
  rewrite (get_spark_name_outside_scans data id Hu Hs).
  unfold spark_race, spark_generic. rewrite Hsparks, Hraces.
  unfold generate_sparknames, generate_racenames.
  rewrite !lookup_assign_each, !lookup_empty. cbv zeta.
  assert (Hopt : forall (f : string -> string) (o : option string),
             match o with Some v => Some (f v) | None => None end =
             option_map f o) by (intros f [v |]; reflexivity).
  rewrite !Hopt.
  destruct ((1000000 <=? id) && (id <? 10000000)); reflexivity.
Qed.

Lemma spark_name_from_generated_witness :
  get_spark_name Fixtures.generated 2101 =
  Ok (let corrected := fun cat key =>
        nonempty
          (option_map (fun name => apply_corrections name SPARK_NAME_CORRECTIONS)
                      (category Fixtures.text_excerpt cat !! key)) in
      if (1000000 <=? 2101) && (2101 <? 10000000) then
        match corrected "36" (str (1000 + 2101 / 100 mod 1000)) with
        | Some name => Some name
        | None => corrected "147" (str 2101)
        end
      else corrected "147" (str 2101)).
Proof.
  apply (spark_name_from_generated Fixtures.text_excerpt Fixtures.generated
           2101).
  - reflexivity.
  - reflexivity.
  - lia.
  - lia.
Defined.
